(** * Session review flagging: a shallow embedding of
      [scripts/flag_sessions_for_review.py] and its verified properties.

    The script scans a SQLite (Cloudflare D1) store of sessions for data
    quality issues and records each finding in the [review_queue] table.

    Layout of the development:
    - SQL values, three-valued logic and the store ([sqlval], [Database]);
    - the four SELECT statements and the INSERT, as functions on the store;
    - Python values, exceptions and a state-and-exception monad over the
      world the script runs in ([World], [M]);
    - the script's functions, under their source names;
    - lemmas and the theorems about them.

    Modelling conventions.  Text is a byte string compared bytewise (SQLite's
    BINARY collation).  REAL and BLOB values (and Python floats and bytes) are
    left out.  Column type affinity is not modelled: values are stored as
    bound.  A table scan visits rows in list order and ORDER BY is a stable
    sort; both are one admissible behaviour of the engine, and no theorem
    below depends on the order of ties. *)

From Stdlib Require Import List String Ascii ZArith Bool Arith Lia.
From Stdlib Require Import Sorted DecimalString.
Import ListNotations.

Open Scope string_scope.
Open Scope nat_scope.
Open Scope list_scope.

Infix "+++" := String.append (right associativity, at level 60).

(* ===================================================================== *)
(** * SQL values and three-valued logic *)
(* ===================================================================== *)

Inductive sqlval : Type :=
| SNull
| SInt (z : Z)
| SText (s : string).

(** SQL truth values: [None] is UNKNOWN (NULL). *)
Definition tri : Type := option bool.

(** A WHERE, HAVING or ON clause keeps a row only when it is TRUE. *)
Definition holds (t : tri) : bool :=
  match t with Some true => true | _ => false end.

Definition sql_not (a : tri) : tri := option_map negb a.

Definition sql_or (a b : tri) : tri :=
  match a, b with
  | Some true, _ | _, Some true => Some true
  | Some false, Some false => Some false
  | _, _ => None
  end.

Definition sql_and (a b : tri) : tri :=
  match a, b with
  | Some false, _ | _, Some false => Some false
  | Some true, Some true => Some true
  | _, _ => None
  end.

Definition is_null (v : sqlval) : bool :=
  match v with SNull => true | _ => false end.

(** [x IS NULL] and [x IS NOT NULL] are never UNKNOWN. *)
Definition sql_is_null (v : sqlval) : tri := Some (is_null v).
Definition sql_is_not_null (v : sqlval) : tri := Some (negb (is_null v)).

(** [a = b]: UNKNOWN as soon as one side is NULL; an integer never equals a
    text. *)
Definition sql_eq (a b : sqlval) : tri :=
  match a, b with
  | SNull, _ | _, SNull => None
  | SInt x, SInt y => Some (x =? y)%Z
  | SText x, SText y => Some (x =? y)%string
  | _, _ => Some false
  end.

(** [x IN (y1, ..., yn)] is [x = y1 OR ... OR x = yn]; FALSE on the empty
    list. *)
Definition sql_in (x : sqlval) (l : list sqlval) : tri :=
  fold_right (fun y acc => sql_or (sql_eq x y) acc) (Some false) l.

(** Grouping (GROUP BY, DISTINCT) puts NULL with NULL. *)
Definition sql_same (a b : sqlval) : bool :=
  match a, b with
  | SNull, SNull => true
  | SInt x, SInt y => (x =? y)%Z
  | SText x, SText y => (x =? y)%string
  | _, _ => false
  end.

(** The sort order of ORDER BY: NULL first, then integers, then text. *)
Definition sql_le (a b : sqlval) : bool :=
  match a, b with
  | SNull, _ => true
  | _, SNull => false
  | SInt x, SInt y => (x <=? y)%Z
  | SInt _, SText _ => true
  | SText _, SInt _ => false
  | SText x, SText y => (x <=? y)%string
  end.

(* ===================================================================== *)
(** * Generic relational operators on lists *)
(* ===================================================================== *)

Section Relational.
Context {A : Type}.

(** ORDER BY: stable insertion sort along [le]. *)
Fixpoint insert_sorted (le : A -> A -> bool) (x : A) (l : list A) : list A :=
  match l with
  | [] => [x]
  | y :: t => if le x y then x :: l else y :: insert_sorted le x t
  end.

Fixpoint order_by (le : A -> A -> bool) (l : list A) : list A :=
  match l with
  | [] => []
  | x :: t => insert_sorted le x (order_by le t)
  end.

Definition count (p : A -> bool) (l : list A) : nat := List.length (filter p l).

(** The distinct members of a list under [same], in order of first
    occurrence. *)
Fixpoint distinct (same : A -> A -> bool) (l : list A) : list A :=
  match l with
  | [] => []
  | x :: t => x :: filter (fun y => negb (same y x)) (distinct same t)
  end.
End Relational.

(* ===================================================================== *)
(** * The store *)
(* ===================================================================== *)

Record Session : Type := {
  s_id : sqlval;
  s_date : sqlval;
  s_type : sqlval;
  s_term_id : sqlval;
  s_ordinal_number : sqlval;
  s_created_at : sqlval
}.

Record Membership : Type := { m_term_id : sqlval }.

Record Absence : Type := {
  a_session_id : sqlval;
  a_person_id : sqlval
}.

Record ReviewEntry : Type := {
  r_id : sqlval;
  r_item_type : sqlval;
  r_item_id : sqlval;
  r_issue_type : sqlval;
  r_description : sqlval;
  r_status : sqlval;
  r_created_at : sqlval
}.

(** A table that the file does not define is [None]: a statement naming it
    fails with [sqlite3.OperationalError].  [review_unique] tells whether the
    schema declares UNIQUE (item_type, item_id, issue_type) on review_queue;
    the script itself never creates the schema. *)
Record Database : Type := {
  sessions : option (list Session);
  memberships : option (list Membership);
  session_absences : option (list Absence);
  review_queue : option (list ReviewEntry);
  review_unique : bool
}.

Definition set_review_queue (rq : list ReviewEntry) (d : Database) : Database :=
  {| sessions := sessions d;
     memberships := memberships d;
     session_absences := session_absences d;
     review_queue := Some rq;
     review_unique := review_unique d |}.

(* ===================================================================== *)
(** * The statements of the script *)
(* ===================================================================== *)

(** ** missing_data
<<
  SELECT id, date, type, term_id, ordinal_number FROM sessions
  WHERE date IS NULL OR type IS NULL OR term_id IS NULL
>> *)
Definition where_missing_data (s : Session) : tri :=
  sql_or (sql_or (sql_is_null (s_date s)) (sql_is_null (s_type s)))
         (sql_is_null (s_term_id s)).

Definition select_missing_data (ss : list Session) : list Session :=
  filter (fun s => holds (where_missing_data s)) ss.

(** ** duplicate_dates
<<
  SELECT id, date, type, term_id, ordinal_number FROM sessions
  WHERE date IN (SELECT date FROM sessions WHERE date IS NOT NULL
                 GROUP BY date HAVING COUNT( * ) > 1)
  ORDER BY date
>> *)
Definition duplicated_dates (ss : list Session) : list sqlval :=
  let dates := map s_date (filter (fun s => holds (sql_is_not_null (s_date s))) ss) in
  filter (fun d => 1 <? count (sql_same d) dates) (distinct sql_same dates).

Definition date_asc (a b : Session) : bool := sql_le (s_date a) (s_date b).

Definition select_duplicate_dates (ss : list Session) : list Session :=
  order_by date_asc
    (filter (fun s => holds (sql_in (s_date s) (duplicated_dates ss))) ss).

(** ** incomplete_attendance
<<
  SELECT s.id, s.date, s.type, s.term_id, s.ordinal_number,
         COUNT(sa.person_id) as absence_count,
         (SELECT COUNT( * ) FROM memberships WHERE term_id = s.term_id)
           as term_member_count
  FROM sessions s LEFT JOIN session_absences sa ON s.id = sa.session_id
  WHERE s.term_id IS NOT NULL
  GROUP BY s.id
  HAVING term_member_count > 0
  ORDER BY s.date DESC
>> *)

(** A row of the LEFT JOIN: a session and one matching absence, or the
    session alone (all [sa] columns NULL) when nothing matches. *)
Definition joined : Type := (Session * option Absence)%type.

Definition join_rows (sa : list Absence) (s : Session) : list joined :=
  match filter (fun a => holds (sql_eq (s_id s) (a_session_id a))) sa with
  | [] => [(s, None)]
  | matches => map (fun a => (s, Some a)) matches
  end.

Definition left_join (ss : list Session) (sa : list Absence) : list joined :=
  flat_map (join_rows sa) ss.

Definition sa_person_id (j : joined) : sqlval :=
  match snd j with Some a => a_person_id a | None => SNull end.

Definition group_key (j : joined) : sqlval := s_id (fst j).

(** GROUP BY s.id: one group per distinct key, holding its joined rows. *)
Definition group_by_id (rows : list joined) : list (list joined) :=
  map (fun k => filter (fun j => sql_same (group_key j) k) rows)
      (distinct sql_same (map group_key rows)).

(** One output row of the aggregate query. *)
Record AttendanceRow : Type := {
  ar_session : Session;
  absence_count : nat;
  term_member_count : nat
}.

Definition members_of_term (ms : list Membership) (term : sqlval) : nat :=
  count (fun m => holds (sql_eq (m_term_id m) term)) ms.

(** The bare columns of a group are read from one of its rows (SQLite leaves
    open which; the first is taken here, and the theorems below assume
    session identifiers are distinct, so that a group has one session).
    COUNT(sa.person_id) counts the rows whose person_id is not NULL. *)
Definition aggregate (ms : list Membership) (g : list joined) : list AttendanceRow :=
  match g with
  | [] => []
  | j :: _ =>
      [{| ar_session := fst j;
          absence_count := count (fun r => negb (is_null (sa_person_id r))) g;
          term_member_count := members_of_term ms (s_term_id (fst j)) |}]
  end.

Definition date_desc (a b : AttendanceRow) : bool :=
  sql_le (s_date (ar_session b)) (s_date (ar_session a)).

Definition select_incomplete_attendance
    (ss : list Session) (sa : list Absence) (ms : list Membership)
    : list AttendanceRow :=
  let rows := filter (fun j => holds (sql_is_not_null (s_term_id (fst j))))
                     (left_join ss sa) in
  let groups := flat_map (aggregate ms) (group_by_id rows) in
  order_by date_desc (filter (fun r => 0 <? term_member_count r) groups).

(** ** auto_imported
<<
  SELECT id, date, type, term_id, ordinal_number, created_at FROM sessions
  WHERE id NOT IN (SELECT item_id FROM review_queue
                   WHERE item_type = 'session' AND status = 'resolved')
  ORDER BY created_at DESC
>> *)
Definition resolved_session_entry (r : ReviewEntry) : tri :=
  sql_and (sql_eq (r_item_type r) (SText "session"))
          (sql_eq (r_status r) (SText "resolved")).

Definition resolved_item_ids (rq : list ReviewEntry) : list sqlval :=
  map r_item_id (filter (fun r => holds (resolved_session_entry r)) rq).

Definition created_desc (a b : Session) : bool :=
  sql_le (s_created_at b) (s_created_at a).

Definition select_auto_imported (ss : list Session) (rq : list ReviewEntry)
    : list Session :=
  order_by created_desc
    (filter (fun s => holds (sql_not (sql_in (s_id s) (resolved_item_ids rq)))) ss).

(** ** The INSERT into review_queue

    The engine rejects the row when its primary key is taken or, where the
    schema declares it, when the UNIQUE key (item_type, item_id, issue_type)
    is taken.  NULL never collides with anything in either check. *)
Definition pk_taken (row : ReviewEntry) (rq : list ReviewEntry) : bool :=
  existsb (fun r => holds (sql_eq (r_id r) (r_id row))) rq.

Definition same_review_key (row r : ReviewEntry) : bool :=
  holds (sql_eq (r_item_type r) (r_item_type row))
  && holds (sql_eq (r_item_id r) (r_item_id row))
  && holds (sql_eq (r_issue_type r) (r_issue_type row)).

Definition unique_taken (row : ReviewEntry) (rq : list ReviewEntry) : bool :=
  existsb (same_review_key row) rq.

Inductive insert_outcome : Type :=
| Inserted (d : Database)
| NoSuchTable
| ConstraintFailed.

Definition insert_review_queue (row : ReviewEntry) (d : Database) : insert_outcome :=
  match review_queue d with
  | None => NoSuchTable
  | Some rq =>
      if pk_taken row rq || (review_unique d && unique_taken row rq)
      then ConstraintFailed
      else Inserted (set_review_queue (rq ++ [row]) d)
  end.

(* ===================================================================== *)
(** * Python values *)
(* ===================================================================== *)

(** What [dict(row)] and [json.loads] can hand to the script. *)
#[warnings="-register-all"]
Inductive pyval : Type :=
| PNone
| PBool (b : bool)
| PInt (z : Z)
| PStr (s : string)
| PList (l : list pyval)
| PDict (d : list (string * pyval)).

Definition pydict : Type := list (string * pyval).

Section Dict.
Context {V : Type}.

Fixpoint dict_get (k : string) (d : list (string * V)) : option V :=
  match d with
  | [] => None
  | (k', v) :: t => if (k' =? k)%string then Some v else dict_get k t
  end.

(** [d[k] = v]: an existing key keeps its place, a new one goes last. *)
Fixpoint dict_set (k : string) (v : V) (d : list (string * V)) : list (string * V) :=
  match d with
  | [] => [(k, v)]
  | (k', v') :: t =>
      if (k' =? k)%string then (k, v) :: t else (k', v') :: dict_set k v t
  end.
End Dict.

(** [d.get(k, default)] *)
Definition py_get (k : string) (default : pyval) (d : pydict) : pyval :=
  match dict_get k d with Some v => v | None => default end.

(** Truth value testing, as [not x] and [if x] use it. *)
Definition truthy (v : pyval) : bool :=
  match v with
  | PNone => false
  | PBool b => b
  | PInt z => negb (z =? 0)%Z
  | PStr s => negb (s =? "")%string
  | PList l => match l with [] => false | _ => true end
  | PDict d => match d with [] => false | _ => true end
  end.

(** [x == 0] *)
Definition py_eq_zero (v : pyval) : bool :=
  match v with
  | PInt z => (z =? 0)%Z
  | PBool b => negb b
  | _ => false
  end.

Definition py_type_name (v : pyval) : string :=
  match v with
  | PNone => "NoneType"
  | PBool _ => "bool"
  | PInt _ => "int"
  | PStr _ => "str"
  | PList _ => "list"
  | PDict _ => "dict"
  end.

Definition py_of_sql (v : sqlval) : pyval :=
  match v with
  | SNull => PNone
  | SInt z => PInt z
  | SText s => PStr s
  end.

Definition string_of_Z (z : Z) : string := NilZero.string_of_int (Z.to_int z).
Definition string_of_nat (n : nat) : string := NilZero.string_of_uint (Nat.to_uint n).

Definition nl : string := String (ascii_of_nat 10) "".

(** [sep.join(l)] *)
Fixpoint join (sep : string) (l : list string) : string :=
  match l with
  | [] => ""
  | [x] => x
  | x :: t => x +++ sep +++ join sep t
  end.

(** [s.replace(c, by)] for a one-character pattern. *)
Fixpoint replace_char (c : ascii) (by_ : string) (s : string) : string :=
  match s with
  | EmptyString => EmptyString
  | String a t =>
      if Ascii.eqb a c then by_ +++ replace_char c by_ t
      else String a (replace_char c by_ t)
  end.

Fixpoint chars (s : string) : list string :=
  match s with
  | EmptyString => []
  | String a t => String a "" :: chars t
  end.

(* ===================================================================== *)
(** * Exceptions, events and the world *)
(* ===================================================================== *)

Inductive exn : Type :=
| FileNotFoundError (msg : string)
| OperationalError (msg : string)     (* sqlite3 *)
| IntegrityError (msg : string)       (* sqlite3 *)
| ProgrammingError (msg : string)     (* sqlite3: unsupported parameter type *)
| AttributeError (msg : string)
| TypeError (msg : string)
| JSONDecodeError (msg : string)
| RecursionError (msg : string)       (* json: nesting too deep *)
| ValueError (msg : string).          (* json: an integer beyond the digit limit *)

(** [str(e)] *)
Definition exn_str (e : exn) : string :=
  match e with
  | FileNotFoundError m | OperationalError m | IntegrityError m
  | ProgrammingError m | AttributeError m | TypeError m | JSONDecodeError m
  | RecursionError m | ValueError m => m
  end.

Definition is_integrity_error (e : exn) : bool :=
  match e with IntegrityError _ => true | _ => false end.

Definition is_json_decode_error (e : exn) : bool :=
  match e with JSONDecodeError _ => true | _ => false end.

Inductive result (A : Type) : Type :=
| Ok (a : A)
| Raise (e : exn).
Arguments Ok {A} a.
Arguments Raise {A} e.

(** What an observer of a run can see, in the order it happens.  [FlagCall]
    marks an entry into [flag_session_for_review]. *)
Inductive event : Type :=
| Stdout (line : string)
| Stderr (line : string)
| Connect
| Close
| FlagCall (session_id : pyval) (issue_type description : string).

(** The outcome of [subprocess.run(["npx", "wrangler", ...], check=True)]. *)
Inductive process_exit : Type :=
| Completed (stdout : string)
| CalledProcessError (stderr : string)
| ExecutableNotFound.

(** The collaborators the script does not define: the remote D1 service
    behind wrangler, the JSON decoder, [repr] of containers, and the sources
    of identifiers and time (indexed by the number of draws so far).
    [json.loads] returns a value or raises: JSONDecodeError on text that is
    not JSON, and other exceptions besides (RecursionError on nesting too
    deep, ValueError on an integer beyond the digit limit). *)
Class Runtime : Type := {
  Remote : Type;
  npx_wrangler : list string -> list (string * string) -> Remote -> process_exit * Remote;
  json_loads : string -> result pyval;
  py_repr : pyval -> string;
  uuid4_hex : nat -> string;
  utcnow_isoformat : nat -> string
}.

Section Script.
Context {RT : Runtime}.

(** [db]: the local D1 file ([None] when [get_local_db_path] finds none);
    [files]: the working directory; [draws]: identifiers drawn so far. *)
Record World : Type := {
  db : option Database;
  remote : Remote;
  files : list (string * string);
  trace : list event;
  draws : nat
}.

Definition M (A : Type) : Type := World -> result A * World.

Definition ret {A} (a : A) : M A := fun w => (Ok a, w).
Definition raise {A} (e : exn) : M A := fun w => (Raise e, w).

Definition bind {A B} (m : M A) (k : A -> M B) : M B :=
  fun w =>
    match m w with
    | (Ok a, w') => k a w'
    | (Raise e, w') => (Raise e, w')
    end.

Notation "x <- m ;; k" := (bind m (fun x => k))
  (at level 61, m at next level, right associativity).
Notation "m ;; k" := (bind m (fun _ => k))
  (at level 61, right associativity).

(** [try: body  except E1: h1  except E2: h2 ...]: [clauses e] is the handler
    of the first clause that matches [e], if any. *)
Definition try_except {A} (body : M A) (clauses : exn -> option (M A)) : M A :=
  fun w =>
    match body w with
    | (Ok a, w') => (Ok a, w')
    | (Raise e, w') =>
        match clauses e with
        | Some handler => handler w'
        | None => (Raise e, w')
        end
    end.

(** [try: body  finally: cleanup] *)
Definition try_finally {A} (body : M A) (cleanup : M unit) : M A :=
  fun w =>
    match body w with
    | (r, w') =>
        match cleanup w' with
        | (Ok _, w'') => (r, w'')
        | (Raise e, w'') => (Raise e, w'')
        end
    end.

Definition lift {A} (r : result A) : M A := fun w => (r, w).

Definition with_trace (t : list event) (w : World) : World :=
  {| db := db w; remote := remote w; files := files w; trace := t; draws := draws w |}.

Definition with_db (d : option Database) (w : World) : World :=
  {| db := d; remote := remote w; files := files w; trace := trace w; draws := draws w |}.

Definition with_files (f : list (string * string)) (w : World) : World :=
  {| db := db w; remote := remote w; files := f; trace := trace w; draws := draws w |}.

Definition with_remote (r : Remote) (w : World) : World :=
  {| db := db w; remote := r; files := files w; trace := trace w; draws := draws w |}.

Definition log (e : event) : M unit :=
  fun w => (Ok tt, with_trace (trace w ++ [e]) w).

Definition print (line : string) : M unit := log (Stdout line).
Definition eprint (line : string) : M unit := log (Stderr line).

(** One reading of [uuid.uuid4()] and [datetime.utcnow()]. *)
Definition draw : M nat :=
  fun w => (Ok (draws w),
            {| db := db w; remote := remote w; files := files w;
               trace := trace w; draws := S (draws w) |}).

Definition write_file (path content : string) : M unit :=
  fun w => (Ok tt, with_files (dict_set path content (files w)) w).

Definition remove_file (path : string) : M unit :=
  fun w => (Ok tt, with_files (filter (fun f => negb (fst f =? path)%string) (files w)) w).

(** [str(x)] inside an f-string. *)
Definition py_str (v : pyval) : string :=
  match v with
  | PNone => "None"
  | PBool true => "True"
  | PBool false => "False"
  | PInt z => string_of_Z z
  | PStr s => s
  | PList _ | PDict _ => py_repr v
  end.

(** [x.get]: only dicts have it. *)
Definition as_dict (v : pyval) : result pydict :=
  match v with
  | PDict d => Ok d
  | _ => Raise (AttributeError ("'" +++ py_type_name v +++ "' object has no attribute 'get'"))
  end.

(** [for x in v] *)
Definition py_iter (v : pyval) : result (list pyval) :=
  match v with
  | PList l => Ok l
  | PDict d => Ok (map (fun kv => PStr (fst kv)) d)
  | PStr s => Ok (map PStr (chars s))
  | _ => Raise (TypeError ("'" +++ py_type_name v +++ "' object is not iterable"))
  end.

(** [len(v)] *)
Definition py_len (v : pyval) : result nat :=
  match v with
  | PList l => Ok (List.length l)
  | PDict d => Ok (List.length d)
  | PStr s => Ok (String.length s)
  | _ => Raise (TypeError ("object of type '" +++ py_type_name v +++ "' has no len()"))
  end.

(* ===================================================================== *)
(** * The script *)
(* ===================================================================== *)

Definition REMOTE_DB_NAME : string := "betterlb_openlgu".

(** ** run_wrangler_command *)
Definition run_wrangler_command (command : list string) : M (option string) :=
  fun w =>
    match npx_wrangler ("npx" :: "wrangler" :: command) (files w) (remote w) with
    | (Completed out, r) => (Ok (Some out), with_remote r w)
    | (CalledProcessError err, r) =>
        (eprint ("Error running wrangler command: " +++ err) ;; ret None)
          (with_remote r w)
    | (ExecutableNotFound, r) =>
        (eprint "Error: wrangler not found. Make sure @cloudflare/wrangler is installed." ;;
         ret None)
          (with_remote r w)
    end.

(** ** get_db_connection (local file; the script never passes use_remote) *)
Definition get_db_connection : M unit :=
  fun w =>
    match db w with
    | None =>
        (Raise (FileNotFoundError
                  ("Could not find local D1 database file. "
                   +++ "Make sure you've run the dev server at least once, or use --remote flag.")),
         w)
    | Some _ => log Connect w
    end.

(** ** parse_wrangler_output *)
Definition py_json_loads (s : string) : M pyval := lift (json_loads s).

Definition parse_wrangler_output (output : option string) : M pyval :=
  match output with
  | None => ret (PList [])
  | Some s =>
      if (s =? "")%string then ret (PList [])
      else
        try_except
          (data <- py_json_loads s ;;
           match data with
           | PList (first :: _) =>
               match first with
               | PDict d =>
                   match dict_get "results" d with
                   | Some r => ret r
                   | None => ret data
                   end
               | _ => ret data
               end
           | _ => ret (PList [])
           end)
          (fun e => if is_json_decode_error e then Some (ret (PList [])) else None)
  end.

(** ** The SELECT statements as the engine sees them *)
Inductive statement : Type :=
| MissingData
| DuplicateDates
| IncompleteAttendance
| AutoImported.

(** The text inside the triple quotes: a newline, the lines, a newline and
    the indentation of the closing quotes. *)
Definition triple_quoted (lines : list string) : string :=
  nl +++ join nl lines +++ nl +++ "    ".

Definition sql_text (q : statement) : string :=
  match q with
  | MissingData => triple_quoted
      [ "        SELECT id, date, type, term_id, ordinal_number";
        "        FROM sessions";
        "        WHERE date IS NULL";
        "           OR type IS NULL";
        "           OR term_id IS NULL" ]
  | DuplicateDates => triple_quoted
      [ "        SELECT id, date, type, term_id, ordinal_number";
        "        FROM sessions";
        "        WHERE date IN (";
        "            SELECT date";
        "            FROM sessions";
        "            WHERE date IS NOT NULL";
        "            GROUP BY date";
        "            HAVING COUNT(" +++ "*) > 1";
        "        )";
        "        ORDER BY date" ]
  | IncompleteAttendance => triple_quoted
      [ "        SELECT s.id, s.date, s.type, s.term_id, s.ordinal_number,";
        "               COUNT(sa.person_id) as absence_count,";
        "               (SELECT COUNT(" +++ "*) FROM memberships WHERE term_id = s.term_id) as term_member_count";
        "        FROM sessions s";
        "        LEFT JOIN session_absences sa ON s.id = sa.session_id";
        "        WHERE s.term_id IS NOT NULL";
        "        GROUP BY s.id";
        "        HAVING term_member_count > 0";
        "        ORDER BY s.date DESC" ]
  | AutoImported => triple_quoted
      [ "        SELECT id, date, type, term_id, ordinal_number, created_at";
        "        FROM sessions";
        "        WHERE id NOT IN (";
        "            SELECT item_id FROM review_queue WHERE item_type = 'session' AND status = 'resolved'";
        "        )";
        "        ORDER BY created_at DESC" ]
  end.

(** [dict(row)] for the three shapes of result row. *)
Definition row5 (s : Session) : pydict :=
  [ ("id", py_of_sql (s_id s));
    ("date", py_of_sql (s_date s));
    ("type", py_of_sql (s_type s));
    ("term_id", py_of_sql (s_term_id s));
    ("ordinal_number", py_of_sql (s_ordinal_number s)) ].

Definition row6 (s : Session) : pydict :=
  row5 s ++ [ ("created_at", py_of_sql (s_created_at s)) ].

Definition row7 (r : AttendanceRow) : pydict :=
  row5 (ar_session r)
  ++ [ ("absence_count", PInt (Z.of_nat (absence_count r)));
       ("term_member_count", PInt (Z.of_nat (term_member_count r))) ].

Definition table {A} (name : string) (t : option A) : result A :=
  match t with
  | Some x => Ok x
  | None => Raise (OperationalError ("no such table: " +++ name))
  end.

Definition rbind {A B} (r : result A) (k : A -> result B) : result B :=
  match r with
  | Ok a => k a
  | Raise e => Raise e
  end.

(** [cursor.execute(query)] followed by [cursor.fetchall()] and [dict(row)]. *)
Definition run_select (q : statement) (d : Database) : result (list pyval) :=
  match q with
  | MissingData =>
      rbind (table "sessions" (sessions d)) (fun ss =>
      Ok (map (fun s => PDict (row5 s)) (select_missing_data ss)))
  | DuplicateDates =>
      rbind (table "sessions" (sessions d)) (fun ss =>
      Ok (map (fun s => PDict (row5 s)) (select_duplicate_dates ss)))
  | IncompleteAttendance =>
      rbind (table "sessions" (sessions d)) (fun ss =>
      rbind (table "session_absences" (session_absences d)) (fun sa =>
      rbind (table "memberships" (memberships d)) (fun ms =>
      Ok (map (fun r => PDict (row7 r)) (select_incomplete_attendance ss sa ms)))))
  | AutoImported =>
      rbind (table "sessions" (sessions d)) (fun ss =>
      rbind (table "review_queue" (review_queue d)) (fun rq =>
      Ok (map (fun s => PDict (row6 s)) (select_auto_imported ss rq))))
  end.

Definition cursor_execute_select (q : statement) : M (list pyval) :=
  fun w =>
    match db w with
    | Some d => (run_select q d, w)
    | None => (Raise (OperationalError "unable to open database file"), w)
    end.

(** ** execute_query *)
Definition execute_query (query : statement) (use_remote : bool) : M pyval :=
  if use_remote then
    write_file ".temp_query.sql" (sql_text query) ;;
    try_finally
      (result <- run_wrangler_command
                   ["d1"; "execute"; REMOTE_DB_NAME; "--remote"; "--file=.temp_query.sql"] ;;
       parse_wrangler_output result)
      (remove_file ".temp_query.sql")
  else
    get_db_connection ;;
    rows <- cursor_execute_select query ;;
    log Close ;;
    ret (PList rows).

(** ** The detection rules *)
Definition detect_missing_data_sessions (use_remote : bool) : M pyval :=
  execute_query MissingData use_remote.

Definition detect_duplicate_dates (use_remote : bool) : M pyval :=
  execute_query DuplicateDates use_remote.

(** The loop of detect_incomplete_attendance: keep a session unless its
    term_member_count is 0. *)
Fixpoint keep_with_members (sessions : list pyval) : result (list pyval) :=
  match sessions with
  | [] => Ok []
  | session :: rest =>
      rbind (as_dict session) (fun d =>
      if py_eq_zero (py_get "term_member_count" (PInt 0) d)
      then keep_with_members rest
      else rbind (keep_with_members rest) (fun kept => Ok (session :: kept)))
  end.

Definition detect_incomplete_attendance (use_remote : bool) : M pyval :=
  sessions <- execute_query IncompleteAttendance use_remote ;;
  items <- lift (py_iter sessions) ;;
  incomplete <- lift (keep_with_members items) ;;
  ret (PList incomplete).

Definition detect_auto_imported_unreviewed (use_remote : bool) : M pyval :=
  execute_query AutoImported use_remote.

(** ** flag_session_for_review *)

(** sqlite3 binds None, int, bool and str; anything else is refused. *)
Definition bind_param (v : pyval) : result sqlval :=
  match v with
  | PNone => Ok SNull
  | PBool b => Ok (SInt (if b then 1 else 0)%Z)
  | PInt z => Ok (SInt z)
  | PStr s => Ok (SText s)
  | PList _ | PDict _ =>
      Raise (ProgrammingError
               ("Error binding parameter 3: type '" +++ py_type_name v +++ "' is not supported"))
  end.

(** The tuple [params] as a row of review_queue. *)
Definition review_row
    (review_id : string) (item_id : sqlval) (issue_type description now : string)
    : ReviewEntry :=
  {| r_id := SText review_id;
     r_item_type := SText "session";
     r_item_id := item_id;
     r_issue_type := SText issue_type;
     r_description := SText description;
     r_status := SText "pending";
     r_created_at := SText now |}.

(** [cursor.execute(query, params)] and [conn.commit()] for the INSERT. *)
Definition cursor_execute_insert
    (review_id : string) (session_id : pyval) (issue_type description now : string)
    : M unit :=
  fun w =>
    match bind_param session_id, db w with
    | Raise e, _ => (Raise e, w)
    | Ok _, None => (Raise (OperationalError "unable to open database file"), w)
    | Ok item_id, Some d =>
        match insert_review_queue
                (review_row review_id item_id issue_type description now) d with
        | Inserted d' => (Ok tt, with_db (Some d') w)
        | NoSuchTable => (Raise (OperationalError "no such table: review_queue"), w)
        | ConstraintFailed => (Raise (IntegrityError "UNIQUE constraint failed"), w)
        end
    end.

Definition insert_statement_text
    (review_id : string) (session_id : pyval) (issue_type description now : string)
    : string :=
  let escaped_desc := replace_char "'"%char "''" description in
  "INSERT INTO review_queue (id, item_type, item_id, issue_type, description, status, created_at) VALUES ('"
  +++ review_id +++ "', 'session', '" +++ py_str session_id +++ "', '" +++ issue_type
  +++ "', '" +++ escaped_desc +++ "', 'pending', '" +++ now +++ "');" +++ nl.

(** [f"review_{uuid.uuid4().hex[:24]}"] at the [n]-th draw. *)
Definition review_id_of (n : nat) : string :=
  "review_" +++ substring 0 24 (uuid4_hex n).

Definition flag_session_for_review
    (session_id : pyval) (issue_type description : string) (dry_run use_remote : bool)
    : M bool :=
  log (FlagCall session_id issue_type description) ;;
  n <- draw ;;
  let review_id := review_id_of n in
  let now := utcnow_isoformat n in
  if dry_run then
    print ("  [DRY RUN] Would flag session " +++ py_str session_id
           +++ " for review: " +++ description) ;;
    ret true
  else if use_remote then
    let sql_file := ".temp_insert_" +++ review_id +++ ".sql" in
    write_file sql_file
      (insert_statement_text review_id session_id issue_type description now) ;;
    try_except
      (result <- run_wrangler_command
                   ["d1"; "execute"; REMOTE_DB_NAME; "--remote"; "--file=" +++ sql_file] ;;
       remove_file sql_file ;;
       ret (match result with Some _ => true | None => false end))
      (fun e =>
         Some (remove_file sql_file ;;
               eprint ("  Error flagging session " +++ py_str session_id +++ ": " +++ exn_str e) ;;
               ret false))
  else
    get_db_connection ;;
    try_except
      (cursor_execute_insert review_id session_id issue_type description now ;;
       log Close ;;
       ret true)
      (fun e =>
         if is_integrity_error e then
           (* Already in review queue *)
           Some (log Close ;; ret true)
         else
           Some (log Close ;;
                 eprint ("  Error flagging session " +++ py_str session_id +++ ": " +++ exn_str e) ;;
                 ret false)).

(** ** run_checks *)
Record CriterionStats : Type := { found : nat; flagged : nat }.

Record Results : Type := {
  total_flagged : nat;
  by_criteria : list (string * CriterionStats)
}.

Definition check_functions (criterion : string) : option (bool -> M pyval) :=
  if (criterion =? "missing_data")%string then Some detect_missing_data_sessions
  else if (criterion =? "duplicate_dates")%string then Some detect_duplicate_dates
  else if (criterion =? "incomplete_attendance")%string then Some detect_incomplete_attendance
  else if (criterion =? "auto_imported")%string then Some detect_auto_imported_unreviewed
  else None.

(** The fields a missing_data description names: those whose value is
    falsy. *)
Definition missing_fields (session : pydict) : list string :=
  (if truthy (py_get "date" PNone session) then [] else ["date"])
  ++ (if truthy (py_get "type" PNone session) then [] else ["type"])
  ++ (if truthy (py_get "term_id" PNone session) then [] else ["term_id"]).

(** The description built for one session (lines 327 to 343). *)
Definition description_for (criterion : string) (session : pydict) : string :=
  if (criterion =? "missing_data")%string then
    "Missing required fields: " +++ join ", " (missing_fields session)
  else if (criterion =? "duplicate_dates")%string then
    "Duplicate session date: " +++ py_str (py_get "date" (PStr "unknown") session)
  else if (criterion =? "incomplete_attendance")%string then
    "Incomplete attendance: " +++ py_str (py_get "absence_count" (PInt 0) session)
    +++ " absences recorded for "
    +++ py_str (py_get "term_member_count" (PInt 0) session) +++ " term members"
  else
    "Session flagged for " +++ criterion.

(** The loop over the sessions of one criterion; returns flagged_count. *)
Fixpoint flag_sessions
    (criterion : string) (sessions : list pyval) (dry_run use_remote : bool)
    (flagged_count : nat) : M nat :=
  match sessions with
  | [] => ret flagged_count
  | session :: rest =>
      d <- lift (as_dict session) ;;
      let session_id := py_get "id" PNone d in
      if negb (truthy session_id) then
        flag_sessions criterion rest dry_run use_remote flagged_count
      else
        ok <- flag_session_for_review session_id criterion
                (description_for criterion d) dry_run use_remote ;;
        flag_sessions criterion rest dry_run use_remote
          (if ok then flagged_count + 1 else flagged_count)
  end.

(** [f"\nRunning check: {criterion}..."] *)
Definition announcement (criterion : string) : string :=
  nl +++ "Running check: " +++ criterion +++ "...".

(** The body of the loop over the criteria for a recognised criterion, up
    to the counts it stores in [results]. *)
Definition run_check
    (criterion : string) (check : bool -> M pyval) (dry_run use_remote : bool)
    : M CriterionStats :=
  print (announcement criterion) ;;
  sessions <- check use_remote ;;
  items <- lift (py_iter sessions) ;;
  flagged_count <- flag_sessions criterion items dry_run use_remote 0 ;;
  found_count <- lift (py_len sessions) ;;
  ret {| found := found_count; flagged := flagged_count |}.

(** The loop over the criteria, threading [results]. *)
Fixpoint run_checks_from
    (criteria : list string) (dry_run use_remote : bool) (results : Results)
    : M Results :=
  match criteria with
  | [] => ret results
  | criterion :: rest =>
      match check_functions criterion with
      | None =>
          eprint ("Warning: Unknown criterion '" +++ criterion +++ "', skipping.") ;;
          run_checks_from rest dry_run use_remote results
      | Some check =>
          stats <- run_check criterion check dry_run use_remote ;;
          let results' :=
            {| total_flagged := total_flagged results + flagged stats;
               by_criteria := dict_set criterion stats (by_criteria results) |} in
          print ("  Found " +++ string_of_nat (found stats) +++ " sessions, flagged "
                 +++ string_of_nat (flagged stats) +++ " for review") ;;
          run_checks_from rest dry_run use_remote results'
      end
  end.

Definition run_checks (criteria : list string) (dry_run use_remote : bool) : M Results :=
  run_checks_from criteria dry_run use_remote {| total_flagged := 0; by_criteria := [] |}.

End Script.

(* ===================================================================== *)
(** * Vocabulary of the properties *)
(* ===================================================================== *)

(** The number of connections open after a trace, [n] being open before. *)
Fixpoint open_after (n : nat) (t : list event) : nat :=
  match t with
  | [] => n
  | Connect :: t' => open_after (S n) t'
  | Close :: t' => open_after (Nat.pred n) t'
  | _ :: t' => open_after n t'
  end.

Definition open_connections (t : list event) : nat := open_after 0 t.

(** [after] is [before] followed by the events of a run that leaves [n]
    connections open. *)
Definition leaves_open (before after : list event) (n : nat) : Prop :=
  exists during, after = before ++ during /\ open_connections during = n.


(** The number of sessions whose date equals [D] (never so for NULL). *)
Definition sharing_date (D : sqlval) (ss : list Session) : nat :=
  count (fun s => holds (sql_eq (s_date s) D)) ss.

(** The required fields of a session that are NULL, by name. *)
Definition null_fields (s : Session) : list string :=
  (if is_null (s_date s) then ["date"] else [])
  ++ (if is_null (s_type s) then ["type"] else [])
  ++ (if is_null (s_term_id s) then ["term_id"] else []).

(** A stored value that Python reads as false: NULL, the empty text, 0. *)
Definition blank (v : sqlval) : bool :=
  match v with
  | SNull => true
  | SInt z => (z =? 0)%Z
  | SText s => (s =? "")%string
  end.

Definition blank_fields (s : Session) : list string :=
  (if blank (s_date s) then ["date"] else [])
  ++ (if blank (s_type s) then ["type"] else [])
  ++ (if blank (s_term_id s) then ["term_id"] else []).

(** The absences recorded for a session: the rows of session_absences that
    reference it and name a person. *)
Definition recorded_absences (sa : list Absence) (s : Session) : nat :=
  count (fun a => holds (sql_eq (s_id s) (a_session_id a))
                  && negb (is_null (a_person_id a))) sa.

(** A review_queue entry of item type 'session' and status 'resolved' for
    the item [id]. *)
Definition resolved_for (id : sqlval) (r : ReviewEntry) : Prop :=
  r_item_type r = SText "session" /\ r_status r = SText "resolved" /\ r_item_id r = id.

(** The entries of the queue under the key ('session', item, issue). *)
Definition entries_for (item : sqlval) (issue : string) (rq : list ReviewEntry) : nat :=
  count (fun r => holds (sql_eq (r_item_type r) (SText "session"))
                  && holds (sql_eq (r_item_id r) item)
                  && holds (sql_eq (r_issue_type r) (SText issue))) rq.

(** The row incomplete_attendance reports for a session: the session with
    its recorded absences and the memberships of its term. *)
Definition attendance_row (sa : list Absence) (ms : list Membership) (s : Session)
    : AttendanceRow :=
  {| ar_session := s;
     absence_count := recorded_absences sa s;
     term_member_count := members_of_term ms (s_term_id s) |}.

(** ** Reading a trace *)

Fixpoint starts_with (p s : string) : bool :=
  match p, s with
  | EmptyString, _ => true
  | String a p', String b s' => Ascii.eqb a b && starts_with p' s'
  | String _ _, EmptyString => false
  end.

Definition is_announcement (e : event) : bool :=
  match e with
  | Stdout line => starts_with (nl +++ "Running check: ") line
  | _ => false
  end.

Definition is_flag_call (e : event) : bool :=
  match e with FlagCall _ _ _ => true | _ => false end.

(** Neither an announcement nor an entry into the writer. *)
Definition quiet (e : event) : bool := negb (is_announcement e) && negb (is_flag_call e).

Definition unannounced (e : event) : bool := negb (is_announcement e).

Definition announcements (t : list event) : list event := filter is_announcement t.
Definition flag_calls (t : list event) : list event := filter is_flag_call t.

(** A candidate record that carries a usable identifier. *)
Definition has_id (session : pyval) : bool :=
  match session with
  | PDict d => truthy (py_get "id" PNone d)
  | _ => false
  end.

Section TraceVocabulary.
Context {RT : Runtime}.

(** The entry into the writer that run_checks makes for a candidate. *)
Definition flag_call_for (criterion : string) (session : pyval) : event :=
  match session with
  | PDict d => FlagCall (py_get "id" PNone d) criterion (description_for criterion d)
  | _ => FlagCall PNone criterion ""
  end.

(** [w'] has the trace of [w] followed by events that all satisfy [p]. *)
Definition extends_by (p : event -> bool) (w w' : World) : Prop :=
  exists during, trace w' = trace w ++ during /\ forallb p during = true.

Definition same_store (w w' : World) : Prop := db w' = db w.

Definition respects {A} (R : World -> World -> Prop) (m : M A) : Prop :=
  forall w, R w (snd (m w)).

(** The candidates a rule finds in the store [d]. *)
Definition finds (d : Database) (criterion : string) (rows : list pyval) : Prop :=
  exists check,
    check_functions criterion = Some check
    /\ forall w, db w = Some d -> fst (check false w) = Ok (PList rows).


End TraceVocabulary.

Definition known (criterion : string) : bool :=
  existsb (String.eqb criterion)
    ["missing_data"; "duplicate_dates"; "incomplete_attendance"; "auto_imported"].

Definition schema_loaded (d : Database) : bool :=
  match sessions d, memberships d, session_absences d, review_queue d with
  | Some _, Some _, Some _, Some _ => true
  | _, _, _, _ => false
  end.

(** The results after a completed check of [criterion]. *)
Definition record_check (criterion : string) (stats : CriterionStats) (results : Results)
    : Results :=
  {| total_flagged := total_flagged results + flagged stats;
     by_criteria := dict_set criterion stats (by_criteria results) |}.

Definition found_line (stats : CriterionStats) : event :=
  Stdout ("  Found " +++ string_of_nat (found stats) +++ " sessions, flagged "
          +++ string_of_nat (flagged stats) +++ " for review").

(** The sum of the per-criterion flagged counts. *)
Definition flagged_sum (by_criteria : list (string * CriterionStats)) : nat :=
  list_sum (map (fun kv => flagged (snd kv)) by_criteria).

(** ** The checks of a run *)


Section RunVocabulary.
Context {RT : Runtime}.








End RunVocabulary.

(* ===================================================================== *)
(** * A concrete runtime and stores, for the examples *)
(* ===================================================================== *)

Definition dq : string := String (ascii_of_nat 34) "".

(** What wrangler prints for one row: a list holding an envelope object. *)
Definition example_envelope : string :=
  "[{" +++ dq +++ "results" +++ dq +++ ": [{" +++ dq +++ "id" +++ dq +++ ": "
  +++ dq +++ "A" +++ dq +++ "}], " +++ dq +++ "success" +++ dq +++ ": true}]".

(** The number of "[" a text starts with. *)
Fixpoint opening_brackets (s : string) : N :=
  match s with
  | EmptyString => 0%N
  | String c t => if Ascii.eqb c "["%char then N.succ (opening_brackets t) else 0%N
  end.


(** A decoder that knows three documents, gives up with RecursionError on a
    text that opens 100000 lists or more, and rejects everything else. *)
Definition example_json_loads (s : string) : result pyval :=
  if (100000 <=? opening_brackets s)%N then
    Raise (RecursionError
             "maximum recursion depth exceeded while decoding a JSON array from a unicode string")
  else if (s =? example_envelope)%string then
    Ok (PList [PDict [("results", PList [PDict [("id", PStr "A")]]);
                      ("success", PBool true)]])
  else if (s =? "[1, 2]")%string then Ok (PList [PInt 1; PInt 2])
  else if (s =? "{}")%string then Ok (PDict [])
  else Raise (JSONDecodeError "Expecting value").

Definition example_runtime : Runtime :=
  {| Remote := unit;
     npx_wrangler := fun _ _ r => (ExecutableNotFound, r);
     json_loads := example_json_loads;
     py_repr := fun _ => "<repr>";
     uuid4_hex := fun n => string_of_nat n +++ "0123456789abcdef0123456789abcdef";
     utcnow_isoformat := fun n => "2026-01-01T00:00:00." +++ string_of_nat n |}.

Definition session
    (id date type term_id : sqlval) (created_at : string) : Session :=
  {| s_id := id; s_date := date; s_type := type; s_term_id := term_id;
     s_ordinal_number := SNull; s_created_at := SText created_at |}.

(** The scenario of the specification: A and B share a date, C has none. *)
Definition session_A : Session :=
  session (SText "A") (SText "2024-01-01") (SText "X") (SInt 1) "2024-01-03".
Definition session_B : Session :=
  session (SText "B") (SText "2024-01-01") (SText "Y") (SInt 1) "2024-01-02".
Definition session_C : Session :=
  session (SText "C") SNull (SText "X") (SInt 1) "2024-01-01".

(** A session of a term without members, and one whose date is an empty
    text and whose type is NULL. *)
Definition session_D : Session :=
  session (SText "D") (SText "2024-02-01") (SText "X") (SInt 2) "2024-01-04".
Definition session_E : Session :=
  session (SText "E") (SText "") SNull (SInt 1) "2024-01-05".

(** A session stored with an empty identifier and no date. *)
Definition session_unnamed : Session :=
  session (SText "") SNull (SText "X") (SInt 1) "2024-01-06".

Definition queue_entry (id : string) (item_id : sqlval) (issue status : string)
    : ReviewEntry :=
  {| r_id := SText id; r_item_type := SText "session"; r_item_id := item_id;
     r_issue_type := SText issue; r_description := SText "";
     r_status := SText status; r_created_at := SText "2024-01-10" |}.

Definition example_sessions : list Session :=
  [session_A; session_B; session_C; session_D].

Definition example_absences : list Absence :=
  [ {| a_session_id := SText "A"; a_person_id := SText "p1" |};
    {| a_session_id := SText "A"; a_person_id := SText "p2" |};
    {| a_session_id := SText "D"; a_person_id := SText "p1" |} ].

Definition example_memberships : list Membership :=
  [ {| m_term_id := SInt 1 |}; {| m_term_id := SInt 1 |}; {| m_term_id := SInt 1 |} ].

(** A is pending under one issue, B is resolved. *)
Definition example_queue : list ReviewEntry :=
  [ queue_entry "r1" (SText "A") "missing_data" "pending";
    queue_entry "r2" (SText "B") "duplicate_dates" "resolved" ].

Definition store (ss : list Session) (rq : list ReviewEntry) : Database :=
  {| sessions := Some ss;
     memberships := Some example_memberships;
     session_absences := Some example_absences;
     review_queue := Some rq;
     review_unique := true |}.

Definition example_store : Database := store example_sessions example_queue.

(** A database file in which the migrations have not run: no table. *)
Definition empty_file : Database :=
  {| sessions := None; memberships := None; session_absences := None;
     review_queue := None; review_unique := false |}.

Definition world_of (d : Database) : @World example_runtime :=
  @Build_World example_runtime (Some d) tt [] [] 0.


(* ===================================================================== *)
(** * Locating the local database file: get_local_db_path *)
(* ===================================================================== *)

(** The directory tree below the working directory.  A path is the list of
    its components; [os.path.join(os.getcwd(), ...)] is left implicit.  The
    entries of a directory come in the order [os.listdir] gives them. *)
#[warnings="-register-all"]
Inductive fsnode : Type :=
| RegularFile
| Directory (entries : list (string * fsnode)).

(** The node a path leads to, if any: [os.path.exists] is [fs_find <> None]. *)
Fixpoint fs_find (p : list string) (n : fsnode) : option fsnode :=
  match p with
  | [] => Some n
  | name :: rest =>
      match n with
      | Directory es =>
          match dict_get name es with
          | Some child => fs_find rest child
          | None => None
          end
      | RegularFile => None
      end
  end.

(** [s.endswith(suffix)] *)
Definition ends_with (suffix s : string) : bool :=
  let n := String.length s in
  let m := String.length suffix in
  (m <=? n) && (substring (n - m) m s =? suffix)%string.

Definition is_directory (n : fsnode) : bool :=
  match n with Directory _ => true | RegularFile => false end.

Definition dirnames (es : list (string * fsnode)) : list string :=
  map fst (filter (fun e => is_directory (snd e)) es).

Definition filenames (es : list (string * fsnode)) : list string :=
  map fst (filter (fun e => negb (is_directory (snd e))) es).

(** [os.walk(top)], top-down: one (root, dirs, files) per directory. *)
Fixpoint walk (root : list string) (n : fsnode)
    : list (list string * list string * list string) :=
  match n with
  | RegularFile => []
  | Directory es =>
      (root, dirnames es, filenames es)
      :: flat_map (fun e => walk (root ++ [fst e]) (snd e)) es
  end.

Definition wrangler_dir : list string :=
  [".wrangler"; "state"; "v3"; "d1"; "miniflare-D1DatabaseObject"].

Definition hashed_file : list string :=
  wrangler_dir
  ++ ["8cf4ff2ff4bcf8fb5e932fb0d18f9ef4fe8321f4a81add33541736e5f957933b.sqlite"].

Definition possible_paths : list (list string) := [hashed_file; wrangler_dir].

(** The first name of a listing that ends with ".sqlite". *)
Definition first_sqlite (names : list string) : option string :=
  find (ends_with ".sqlite") names.

(** The body of the loop over [possible_paths]: what it returns for one
    path, [None] when the loop goes on. *)
Definition try_path (cwd : fsnode) (p : list string) : option (list string) :=
  match fs_find p cwd with
  | None => None
  | Some (Directory es) =>
      match first_sqlite (map fst es) with
      | Some file => Some (p ++ [file])
      | None => None
      end
  | Some RegularFile => Some p
  end.

Fixpoint first_path (cwd : fsnode) (paths : list (list string)) : option (list string) :=
  match paths with
  | [] => None
  | p :: rest =>
      match try_path cwd p with
      | Some found => Some found
      | None => first_path cwd rest
      end
  end.

(** The loop over [os.walk]: the first ".sqlite" among the files of a
    visited directory. *)
Fixpoint first_in_walk (steps : list (list string * list string * list string))
    : option (list string) :=
  match steps with
  | [] => None
  | (root, _, files) :: rest =>
      match first_sqlite files with
      | Some file => Some (root ++ [file])
      | None => first_in_walk rest
      end
  end.

Definition get_local_db_path (cwd : fsnode) : option (list string) :=
  match first_path cwd possible_paths with
  | Some found => Some found
  | None =>
      match fs_find wrangler_dir cwd with
      | Some top => first_in_walk (walk wrangler_dir top)
      | None => None
      end
  end.

(* ===================================================================== *)
(** * The command line: main *)
(* ===================================================================== *)

(** Command-line text is taken to be ASCII. *)
Definition ascii_lower (c : ascii) : ascii :=
  let n := nat_of_ascii c in
  if (65 <=? n) && (n <=? 90) then ascii_of_nat (n + 32) else c.

(** [s.lower()] *)
Fixpoint py_lower (s : string) : string :=
  match s with
  | EmptyString => EmptyString
  | String c t => String (ascii_lower c) (py_lower t)
  end.

(** [c.isspace()] on ASCII: tab to carriage return, the four separators
    and the space. *)
Definition py_isspace (c : ascii) : bool :=
  let n := nat_of_ascii c in
  ((9 <=? n) && (n <=? 13)) || ((28 <=? n) && (n <=? 32)).

Fixpoint lstrip (s : string) : string :=
  match s with
  | EmptyString => EmptyString
  | String c t => if py_isspace c then lstrip t else s
  end.

(** [s.rstrip()]: drops the spaces that only spaces follow. *)
Fixpoint rstrip (s : string) : string :=
  match s with
  | EmptyString => EmptyString
  | String c t =>
      match rstrip t with
      | EmptyString => if py_isspace c then EmptyString else String c EmptyString
      | t' => String c t'
      end
  end.

(** [s.strip()] *)
Definition py_strip (s : string) : string := rstrip (lstrip s).

(** [s.split(sep)] for a one-character separator. *)
Fixpoint split_on (sep : ascii) (s : string) : list string :=
  match s with
  | EmptyString => [EmptyString]
  | String c t =>
      if Ascii.eqb c sep then EmptyString :: split_on sep t
      else
        match split_on sep t with
        | [] => [String c EmptyString]
        | piece :: rest => String c piece :: rest
        end
  end.

Definition all_criteria : list string :=
  ["missing_data"; "duplicate_dates"; "incomplete_attendance"; "auto_imported"].

(** The criteria main hands to run_checks. *)
Definition parse_criteria (criteria : string) : list string :=
  if (py_lower criteria =? "all")%string then all_criteria
  else map py_strip (split_on ","%char criteria).

(** [c * n] *)
Fixpoint py_repeat (c : string) (n : nat) : string :=
  match n with
  | 0 => EmptyString
  | S n' => c +++ py_repeat c n'
  end.

(** What [parser.parse_args()] returns. *)
Record Args : Type := {
  arg_criteria : string;
  arg_dry_run : bool;
  arg_remote : bool
}.

(** How main ends: by returning, or by [sys.exit(code)]. *)
Inductive exit_status : Type :=
| Returned
| SystemExit (code : nat).

Section Main.
Context {RT : Runtime}.

Notation "x <- m ;; k" := (bind m (fun x => k))
  (at level 61, m at next level, right associativity).
Notation "m ;; k" := (bind m (fun _ => k))
  (at level 61, right associativity).

(** The lines main prints before it runs the checks. *)
Definition print_banner (args : Args) (criteria : list string) : M unit :=
  print (py_repeat "=" 60) ;;
  print "Session Review Flagging Script" ;;
  print (py_repeat "=" 60) ;;
  (if arg_dry_run args then print "DRY RUN MODE - No changes will be made" else ret tt) ;;
  (if arg_remote args then print ("Using remote database: " +++ REMOTE_DB_NAME)
   else print "Using local database") ;;
  print ("Running checks: " +++ join ", " criteria) ;;
  print (py_repeat "-" 60).

(** The loop over [results['by_criteria'].items()]. *)
Fixpoint print_stats (by_criteria : list (string * CriterionStats)) : M unit :=
  match by_criteria with
  | [] => ret tt
  | (criterion, stats) :: rest =>
      print ("  " +++ criterion +++ ": " +++ string_of_nat (flagged stats) +++ "/"
             +++ string_of_nat (found stats) +++ " flagged") ;;
      print_stats rest
  end.

Definition print_summary (args : Args) (results : Results) : M unit :=
  print (nl +++ py_repeat "=" 60) ;;
  print "SUMMARY" ;;
  print (py_repeat "=" 60) ;;
  print ("Total sessions flagged: " +++ string_of_nat (total_flagged results)) ;;
  print_stats (by_criteria results) ;;
  (if arg_dry_run args
   then print (nl +++ "Dry run complete. Run without --dry-run to apply changes.")
   else ret tt).

Definition main (args : Args) : M exit_status :=
  let criteria := parse_criteria (arg_criteria args) in
  print_banner args criteria ;;
  try_except
    (results <- run_checks criteria (arg_dry_run args) (arg_remote args) ;;
     print_summary args results ;;
     ret Returned)
    (fun e =>
       Some (eprint (nl +++ "Error: " +++ exn_str e) ;;
             ret (SystemExit 1))).

End Main.

(* ===================================================================== *)
(** * Vocabulary of the further properties *)
(* ===================================================================== *)

(** The body of an SQL string literal read back: two quotes stand for one,
    a lone quote would end the literal. *)
Fixpoint sql_unquote (s : string) : option string :=
  match s with
  | EmptyString => Some EmptyString
  | String c t =>
      if Ascii.eqb c "'"%char then
        match t with
        | String c' t' =>
            if Ascii.eqb c' "'"%char
            then option_map (String "'"%char) (sql_unquote t')
            else None
        | EmptyString => None
        end
      else option_map (String c) (sql_unquote t)
  end.

(** The command line of a remote query. *)
Definition temp_query_args : list string :=
  ["npx"; "wrangler"; "d1"; "execute"; REMOTE_DB_NAME; "--remote"; "--file=.temp_query.sql"].

(** The stderr line for a criterion that is not recognised. *)
Definition warning (criterion : string) : event :=
  Stderr ("Warning: Unknown criterion '" +++ criterion +++ "', skipping.").

(** A row as the writer inserts it for one of [issues]. *)
Definition written_for (issues : list string) (r : ReviewEntry) : Prop :=
  r_item_type r = SText "session"
  /\ r_status r = SText "pending"
  /\ exists issue, In issue issues /\ r_issue_type r = SText issue.

(** [d'] is [d] with rows appended to review_queue, each written for one of
    [issues]; nothing else differs. *)
Definition store_grows (issues : list string) (d d' : Database) : Prop :=
  sessions d' = sessions d
  /\ memberships d' = memberships d
  /\ session_absences d' = session_absences d
  /\ review_unique d' = review_unique d
  /\ match review_queue d, review_queue d' with
     | Some rq, Some rq' => exists added, rq' = rq ++ added /\ Forall (written_for issues) added
     | None, None => True
     | _, _ => False
     end.

(** At most one row per (session item, issue kind). *)
Definition keys_unique (rq : list ReviewEntry) : Prop :=
  forall item issue, entries_for item issue rq <= 1.

(** The store enforces the uniqueness constraint and satisfies it. *)
Definition constraint_holds (d : Database) : Prop :=
  review_unique d = true
  /\ match review_queue d with
     | Some rq => keys_unique rq
     | None => True
     end.

(** The member count test of detect_incomplete_attendance. *)
Definition has_members (session : pydict) : bool :=
  negb (py_eq_zero (py_get "term_member_count" (PInt 0) session)).

(** The number of commas of a text. *)
Fixpoint commas (s : string) : nat :=
  match s with
  | EmptyString => 0
  | String c t => (if Ascii.eqb c ","%char then 1 else 0) + commas t
  end.

Definition first_char_is_space (s : string) : bool :=
  match s with
  | EmptyString => false
  | String c _ => py_isspace c
  end.

Fixpoint last_char_is_space (s : string) : bool :=
  match s with
  | EmptyString => false
  | String c EmptyString => py_isspace c
  | String _ t => last_char_is_space t
  end.

Section FurtherVocabulary.
Context {RT : Runtime}.

Definition only_appends (issues : list string) (w w' : World) : Prop :=
  match db w, db w' with
  | Some d, Some d' => store_grows issues d d'
  | None, None => True
  | _, _ => False
  end.

Definition keeps_constraint (w w' : World) : Prop :=
  (forall d, db w = Some d -> constraint_holds d) ->
  (forall d', db w' = Some d' -> constraint_holds d').

(** Printing returns and only extends the trace. *)
Definition only_prints (m : M unit) : Prop :=
  forall w, exists t, m w = (Ok tt, with_trace (trace w ++ t) w).

(** The temporary file of a remote INSERT with the [n]-th identifier. *)
Definition temp_insert_file (n : nat) : string :=
  ".temp_insert_" +++ review_id_of n +++ ".sql".

(** The command line of a remote INSERT with the [n]-th identifier. *)
Definition temp_insert_args (n : nat) : list string :=
  ["npx"; "wrangler"; "d1"; "execute"; REMOTE_DB_NAME; "--remote";
   "--file=" +++ temp_insert_file n].

(** The candidate is already in the queue under [criterion]. *)
Definition already_flagged (criterion : string) (rq : list ReviewEntry) (session : pydict)
    : Prop :=
  exists item, bind_param (py_get "id" PNone session) = Ok item
               /\ 1 <= entries_for item criterion rq.

End FurtherVocabulary.

(** ** Example trees and command lines *)

Fixpoint nest (p : list string) (leaf : fsnode) : fsnode :=
  match p with
  | [] => leaf
  | name :: rest => Directory [(name, nest rest leaf)]
  end.

(** A working directory whose miniflare directory holds a database two
    levels down, beside a journal. *)
Definition example_tree : fsnode :=
  nest wrangler_dir
    (Directory [("journal.txt", RegularFile);
                ("v1", Directory [("db.sqlite", RegularFile)])]).

Definition example_args : Args :=
  {| arg_criteria := "missing_data, no_such_check"; arg_dry_run := true;
     arg_remote := false |}.

(** A working directory that holds the database file of the known hash,
    and one whose miniflare directory lists a directory named like a
    database. *)
Definition hashed_tree : fsnode := nest hashed_file RegularFile.

Definition listing_tree : fsnode :=
  nest wrangler_dir
    (Directory [("journal.txt", RegularFile); ("old.sqlite", Directory [])]).

(** A world without a local database file. *)
Definition world_without_store : @World example_runtime :=
  @Build_World example_runtime None tt [] [] 0.

(** Candidates as the rules return them: one with an identifier, one
    without. *)
Definition candidate_A : pydict := [("id", PStr "A"); ("date", PNone)].
Definition candidate_unnamed : pydict := [("date", PNone)].

(* ===================================================================== *)
(** * Merging the service categories: a shallow embedding of
      [scripts/merge_services.py] *)
(* ===================================================================== *)

(** The script reads every [.json] file of [src/data/services/categories],
    collects their items in one list, sorts it by service name and writes it
    to [src/data/services/services.json], which Prettier then formats. *)

Module Merge.

(** The exceptions the script can meet, by class. *)
Inductive exn : Type :=
| FileNotFoundError
| NotADirectoryError
| IsADirectoryError
| JSONDecodeError
| UnicodeDecodeError
| RecursionError
| ValueError
| TypeError
| KeyError.

Inductive result (A : Type) : Type :=
| Ok (a : A)
| Raise (e : exn).
Arguments Ok {A} a.
Arguments Raise {A} e.

Definition bind {A B} (m : result A) (k : A -> result B) : result B :=
  match m with
  | Ok a => k a
  | Raise e => Raise e
  end.

(** The outcome of [subprocess.run(["npx", "prettier", ...], check=True)]. *)
Inductive process_exit : Type :=
| Completed
| CalledProcessError
| ExecutableNotFound.

(** The collaborators the script does not define: the JSON decoder, which
    returns a value or raises (JSONDecodeError, UnicodeDecodeError,
    RecursionError, ValueError), the encoder, and Prettier, which is given
    the text of the file and leaves some text behind, whatever its exit. *)
Class Tools : Type := {
  json_load : string -> result pyval;
  json_dump : list pyval -> string;
  npx_prettier : string -> process_exit * string
}.

(** What a name of the file system stands for. *)
Inductive node : Type :=
| File (text : string)
| Folder.

(** [src/data/services/categories], with its entries in the order
    [os.listdir] gives them. *)
Inductive listing : Type :=
| NoSuchDirectory
| NotADirectory
| Entries (es : list (string * node)).

Record Disk : Type := {
  categories : listing;
  services_json : option node
}.

Section Script.
Context {T : Tools}.

Notation "x <- m ;; k" := (bind m (fun x => k))
  (at level 61, m at next level, right associativity).

(** [os.listdir(input_dir)] *)
Definition listdir (d : Disk) : result (list string) :=
  match categories d with
  | NoSuchDirectory => Raise FileNotFoundError
  | NotADirectory => Raise NotADirectoryError
  | Entries es => Ok (map fst es)
  end.

(** [sorted(names)]: strings compare by code point, which is the order of
    their UTF-8 bytes. *)
Fixpoint insert_name (x : string) (l : list string) : list string :=
  match l with
  | [] => [x]
  | y :: rest => if String.ltb y x then y :: insert_name x rest else x :: l
  end.

Definition sorted (names : list string) : list string :=
  fold_right insert_name [] names.

(** [open(os.path.join(input_dir, filename), 'r')] and the text read. *)
Definition open_read (d : Disk) (filename : string) : result string :=
  match categories d with
  | Entries es =>
      match dict_get filename es with
      | Some (File text) => Ok text
      | Some Folder => Raise IsADirectoryError
      | None => Raise FileNotFoundError
      end
  | _ => Raise FileNotFoundError
  end.

(** What [combined.extend(data)] appends. *)
Definition iterate (data : pyval) : result (list pyval) :=
  match data with
  | PList l => Ok l
  | PDict d => Ok (map (fun kv => PStr (fst kv)) d)
  | PStr s => Ok (map PStr (chars s))
  | _ => Raise TypeError
  end.

(** The loop over the sorted file names. *)
Fixpoint load (d : Disk) (filenames : list string) (combined : list pyval)
    : result (list pyval) :=
  match filenames with
  | [] => Ok combined
  | filename :: rest =>
      if ends_with ".json" filename then
        text <- open_read d filename ;;
        data <- json_load text ;;
        items <- iterate data ;;
        load d rest (combined ++ items)
      else load d rest combined
  end.

(** [x['service']] *)
Definition service_key (x : pyval) : result pyval :=
  match x with
  | PDict d =>
      match dict_get "service" d with
      | Some v => Ok v
      | None => Raise KeyError
      end
  | _ => Raise TypeError
  end.

(** Booleans are integers. *)
Definition numeric (v : pyval) : option Z :=
  match v with
  | PBool b => Some (if b then 1 else 0)%Z
  | PInt z => Some z
  | _ => None
  end.

(** [a == b] *)
Fixpoint py_eq (a b : pyval) : bool :=
  match a with
  | PNone => match b with PNone => true | _ => false end
  | PStr s => match b with PStr t => (s =? t)%string | _ => false end
  | PList l =>
      match b with
      | PList m =>
          (fix all2 (l m : list pyval) : bool :=
             match l, m with
             | [], [] => true
             | x :: l', y :: m' => py_eq x y && all2 l' m'
             | _, _ => false
             end) l m
      | _ => false
      end
  | PDict d =>
      match b with
      | PDict e =>
          (List.length d =? List.length e)
          && (fix each (d : list (string * pyval)) : bool :=
                match d with
                | [] => true
                | (k, v) :: d' =>
                    match dict_get k e with
                    | Some w => py_eq v w
                    | None => false
                    end && each d'
                end) d
      | _ => false
      end
  | PBool _ | PInt _ =>
      match numeric a, numeric b with
      | Some x, Some y => (x =? y)%Z
      | _, _ => false
      end
  end.

(** [a < b]: numbers with numbers, strings with strings, lists with lists
    at their first unequal items; anything else is a TypeError. *)
Fixpoint py_lt (a b : pyval) : result bool :=
  match a with
  | PStr s => match b with PStr t => Ok (String.ltb s t) | _ => Raise TypeError end
  | PList l =>
      match b with
      | PList m =>
          (fix lex (l m : list pyval) : result bool :=
             match l, m with
             | [], [] => Ok false
             | [], _ :: _ => Ok true
             | _ :: _, [] => Ok false
             | x :: l', y :: m' => if py_eq x y then lex l' m' else py_lt x y
             end) l m
      | _ => Raise TypeError
      end
  | PBool _ | PInt _ =>
      match numeric a, numeric b with
      | Some x, Some y => Ok (x <? y)%Z
      | _, _ => Raise TypeError
      end
  | PNone | PDict _ => Raise TypeError
  end.

(** [list.sort(key=...)] first computes the key of every item, in order. *)
Fixpoint with_keys (items : list pyval) : result (list (pyval * pyval)) :=
  match items with
  | [] => Ok []
  | x :: rest =>
      k <- service_key x ;;
      keyed <- with_keys rest ;;
      Ok ((k, x) :: keyed)
  end.

(** The sort is stable and compares keys with [<] only; on keys that all
    compare its result is that of any stable sort, here by insertion.  An
    item goes before the first one whose key is not less than its own. *)
Fixpoint insert (x : pyval * pyval) (l : list (pyval * pyval))
    : result (list (pyval * pyval)) :=
  match l with
  | [] => Ok [x]
  | y :: rest =>
      less <- py_lt (fst y) (fst x) ;;
      if less : bool then
        placed <- insert x rest ;;
        Ok (y :: placed)
      else Ok (x :: l)
  end.

Fixpoint sort_keyed (l : list (pyval * pyval)) : result (list (pyval * pyval)) :=
  match l with
  | [] => Ok []
  | x :: rest =>
      done <- sort_keyed rest ;;
      insert x done
  end.

(** [combined.sort(key=lambda x: x['service'])] *)
Definition sort_by_service (combined : list pyval) : result (list pyval) :=
  keyed <- with_keys combined ;;
  done <- sort_keyed keyed ;;
  Ok (map snd done).

(** The value of [combined] when it is written. *)
Definition combined_services (d : Disk) : result (list pyval) :=
  filenames <- listdir d ;;
  combined <- load d (sorted filenames) [] ;;
  sort_by_service combined.

Definition write_services (text : string) (d : Disk) : Disk :=
  {| categories := categories d; services_json := Some (File text) |}.

Definition merged_and_formatted (n : nat) : string :=
  "Successfully merged and formatted " +++ string_of_nat n
  +++ " services into one file.".

Definition merged_only (n : nat) : string :=
  "Successfully merged " +++ string_of_nat n
  +++ " services into one file (Prettier formatting skipped).".

(** The outcome, the disk afterwards and the lines printed. *)
Definition merge_services (d : Disk) : result unit * Disk * list string :=
  match combined_services d with
  | Raise e => (Raise e, d, [])
  | Ok combined =>
      match services_json d with
      | Some Folder => (Raise IsADirectoryError, d, [])
      | _ =>
          let text := json_dump combined in
          match npx_prettier text with
          | (Completed, text') =>
              (Ok tt, write_services text' d,
               [merged_and_formatted (List.length combined)])
          | (CalledProcessError, text') =>
              (Ok tt, write_services text' d,
               [merged_only (List.length combined)])
          | (ExecutableNotFound, _) =>
              (Raise FileNotFoundError, write_services text d, [])
          end
      end
  end.

(** ** Vocabulary *)

(** The service name of an item, when it has one. *)
Definition service_name (x : pyval) : option string :=
  match x with
  | PDict d =>
      match dict_get "service" d with
      | Some (PStr s) => Some s
      | _ => None
      end
  | _ => None
  end.

Definition is_named (x : pyval) : bool :=
  match service_name x with Some _ => true | None => false end.

Definition has_name (s : string) (x : pyval) : bool :=
  match service_name x with
  | Some t => (t =? s)%string
  | None => false
  end.

(** [a] may come before [b]: its name is not greater. *)
Definition name_le (a b : pyval) : Prop :=
  match service_name a, service_name b with
  | Some s, Some t => String.ltb t s = false
  | _, _ => False
  end.

(** A record without the [service] key. *)
Definition is_nameless_record (x : pyval) : bool :=
  match x with
  | PDict d => match dict_get "service" d with None => true | Some _ => false end
  | _ => false
  end.

Definition is_record (x : pyval) : bool :=
  match x with PDict _ => true | _ => false end.

(** The items an entry of the directory contributes. *)
Definition file_items (e : string * node) : list pyval :=
  if ends_with ".json" (fst e) then
    match snd e with
    | File text =>
        match json_load text with
        | Ok data =>
            match iterate data with
            | Ok items => items
            | Raise _ => []
            end
        | Raise _ => []
        end
    | Folder => []
    end
  else [].

Definition outcome (run : result unit * Disk * list string) : result unit :=
  fst (fst run).

Definition disk_after (run : result unit * Disk * list string) : Disk :=
  snd (fst run).

Definition printed (run : result unit * Disk * list string) : list string :=
  snd run.

End Script.

End Merge.

(** ** Example category files *)

Definition service (name : string) : pyval :=
  PDict [("service", PStr name); ("category", PStr "general")].

Definition health_json : string :=
  "[{" +++ dq +++ "service" +++ dq +++ ": " +++ dq +++ "Vaccination" +++ dq +++ "}, {"
  +++ dq +++ "service" +++ dq +++ ": " +++ dq +++ "Birth certificate" +++ dq +++ "}]".

Definition permits_json : string :=
  "[{" +++ dq +++ "service" +++ dq +++ ": " +++ dq +++ "Business permit" +++ dq +++ "}]".

(** A decoder that knows three documents and rejects everything else, an
    encoder that only tells the number of items, and a Prettier that exits
    with an error and leaves the file alone. *)
Definition example_tools : Merge.Tools :=
  {| Merge.json_load := fun text =>
       if (text =? health_json)%string then
         Merge.Ok (PList [service "Vaccination"; service "Birth certificate"])
       else if (text =? permits_json)%string then
         Merge.Ok (PList [service "Business permit"])
       else if (text =? "[1]")%string then Merge.Ok (PList [PInt 1])
       else Merge.Raise Merge.JSONDecodeError;
     Merge.json_dump := fun items =>
       "<" +++ string_of_nat (List.length items) +++ " items>";
     Merge.npx_prettier := fun text => (Merge.CalledProcessError, text) |}.

Definition example_categories : list (string * Merge.node) :=
  [("permits.json", Merge.File permits_json);
   ("README.md", Merge.File "notes");
   ("health.json", Merge.File health_json)].

Definition example_disk : Merge.Disk :=
  {| Merge.categories := Merge.Entries example_categories;
     Merge.services_json := None |}.

(** The same directory with a file that is not JSON, and with a file whose
    one item is a number. *)
Definition broken_disk : Merge.Disk :=
  {| Merge.categories :=
       Merge.Entries (example_categories ++ [("draft.json", Merge.File "{")]);
     Merge.services_json := Some (Merge.File "old") |}.

Definition numbers_disk : Merge.Disk :=
  {| Merge.categories :=
       Merge.Entries (example_categories ++ [("numbers.json", Merge.File "[1]")]);
     Merge.services_json := Some (Merge.File "old") |}.
(* ===================================================================== *)
(** * Lemmas: SQL logic *)
(* ===================================================================== *)

Lemma holds_Some (b : bool) : holds (Some b) = b.
Proof. now destruct b. Qed.

Lemma holds_sql_eq (a b : sqlval) :
  holds (sql_eq a b) = true <-> a = b /\ a <> SNull.
Proof.
  destruct a as [|x|x], b as [|y|y]; cbn [sql_eq]; rewrite ?holds_Some;
    try (split; [discriminate | intros [E N]; congruence]).
  - rewrite Z.eqb_eq. split; [intros ->; split; [reflexivity | discriminate]|].
    intros [E _]. congruence.
  - rewrite String.eqb_eq. split; [intros ->; split; [reflexivity | discriminate]|].
    intros [E _]. congruence.
Qed.

Lemma sql_same_eq (a b : sqlval) : sql_same a b = true <-> a = b.
Proof.
  destruct a as [|x|x], b as [|y|y]; simpl; split; try discriminate; try reflexivity.
  - intros H. apply Z.eqb_eq in H. now subst.
  - intros E. injection E as ->. apply Z.eqb_refl.
  - intros H. apply String.eqb_eq in H. now subst.
  - intros E. injection E as ->. apply String.eqb_refl.
Qed.

Lemma sql_same_refl (a : sqlval) : sql_same a a = true.
Proof. now apply sql_same_eq. Qed.

Lemma sql_same_holds_eq (a b : sqlval) :
  b <> SNull -> sql_same a b = holds (sql_eq a b).
Proof.
  intros N. destruct a as [|x|x], b as [|y|y]; cbn [sql_eq sql_same];
    rewrite ?holds_Some; try reflexivity; congruence.
Qed.

Lemma holds_sql_in (x : sqlval) (l : list sqlval) :
  holds (sql_in x l) = true <-> x <> SNull /\ In x l.
Proof.
  induction l as [|y l IH]; simpl.
  - split; [discriminate | intros [_ []]].
  - split.
    + intros H.
      destruct (sql_eq x y) as [[|]|] eqn:E.
      * assert (Hxy : holds (sql_eq x y) = true) by now rewrite E.
        apply holds_sql_eq in Hxy. destruct Hxy as [-> N]. auto.
      * destruct (sql_in x l) as [[|]|]; simpl in H; try discriminate.
        destruct IH as [IH _]. destruct (IH eq_refl). auto.
      * destruct (sql_in x l) as [[|]|]; simpl in H; try discriminate.
        destruct IH as [IH _]. destruct (IH eq_refl). auto.
    + intros [N [-> | Hin]].
      * assert (Hxx : holds (sql_eq x x) = true) by (apply holds_sql_eq; auto).
        destruct (sql_eq x x) as [[|]|]; try discriminate. reflexivity.
      * destruct IH as [_ IH]. specialize (IH (conj N Hin)).
        destruct (sql_in x l) as [[|]|]; try discriminate.
        now destruct (sql_eq x y) as [[|]|].
Qed.

(** [x NOT IN l] is TRUE exactly when every comparison is FALSE: no member
    equals [x], and nothing involved is NULL. *)
Lemma holds_sql_not_in (x : sqlval) (l : list sqlval) :
  holds (sql_not (sql_in x l)) = true <->
  forall y, In y l -> sql_eq x y = Some false.
Proof.
  induction l as [|y l IH]; simpl.
  - split; [intros _ y [] | reflexivity].
  - split.
    + intros H z [<- | Hin].
      * destruct (sql_eq x y) as [[|]|]; try reflexivity;
          destruct (sql_in x l) as [[|]|]; discriminate.
      * apply IH; [|assumption].
        destruct (sql_eq x y) as [[|]|], (sql_in x l) as [[|]|]; try discriminate;
          reflexivity.
    + intros H. rewrite (H y (or_introl eq_refl)).
      assert (IH' : holds (sql_not (sql_in x l)) = true) by (apply IH; auto).
      destruct (sql_in x l) as [[|]|]; try discriminate. reflexivity.
Qed.

Lemma sql_eq_false (x y : sqlval) :
  sql_eq x y = Some false <-> x <> SNull /\ y <> SNull /\ x <> y.
Proof.
  destruct x as [|a|a], y as [|b|b]; simpl; split;
    try discriminate; try (intros (N1 & N2 & N3); congruence);
    try (intros _; repeat split; discriminate).
  - intros H. injection H as H. apply Z.eqb_neq in H.
    repeat split; try discriminate. congruence.
  - intros (_ & _ & N). f_equal. apply Z.eqb_neq. congruence.
  - intros H. injection H as H. apply String.eqb_neq in H.
    repeat split; try discriminate. congruence.
  - intros (_ & _ & N). f_equal. apply String.eqb_neq. congruence.
Qed.

Lemma py_of_sql_inj (a b : sqlval) : py_of_sql a = py_of_sql b -> a = b.
Proof. destruct a, b; simpl; congruence. Qed.

(** ** The sort order is a total preorder *)

Lemma string_leb_refl (a : string) : (a <=? a)%string = true.
Proof. destruct (String.leb_total a a); assumption. Qed.

Lemma string_leb_trans (a b c : string) :
  (a <=? b)%string = true -> (b <=? c)%string = true -> (a <=? c)%string = true.
Proof.
  unfold String.leb. revert b c.
  induction a as [|x a IH]; intros [|y b] [|z c]; simpl; try easy.
  unfold Ascii.compare.
  destruct (N.compare_spec (N_of_ascii x) (N_of_ascii y)) as [E1|L1|G1];
    destruct (N.compare_spec (N_of_ascii y) (N_of_ascii z)) as [E2|L2|G2];
    destruct (N.compare_spec (N_of_ascii x) (N_of_ascii z)) as [E3|L3|G3];
    try easy; try lia.
  apply IH.
Qed.

Lemma sql_le_total (a b : sqlval) : sql_le a b = true \/ sql_le b a = true.
Proof.
  destruct a as [|x|x], b as [|y|y]; simpl; auto.
  - destruct (Z.leb_spec x y); auto. right. apply Z.leb_le. lia.
  - apply String.leb_total.
Qed.

Lemma sql_le_trans (a b c : sqlval) :
  sql_le a b = true -> sql_le b c = true -> sql_le a c = true.
Proof.
  destruct a as [|x|x], b as [|y|y], c as [|z|z]; simpl; try easy.
  - rewrite !Z.leb_le. lia.
  - apply string_leb_trans.
Qed.

(* ===================================================================== *)
(** * Lemmas: relational operators *)
(* ===================================================================== *)

Section RelationalFacts.
Context {A : Type}.
Variable le : A -> A -> bool.

Lemma insert_sorted_in (x y : A) (l : list A) :
  In y (insert_sorted le x l) <-> y = x \/ In y l.
Proof.
  induction l as [|z l IH]; simpl.
  - intuition.
  - destruct (le x z); simpl; [intuition | rewrite IH; intuition].
Qed.

Lemma order_by_in (x : A) (l : list A) : In x (order_by le l) <-> In x l.
Proof.
  induction l as [|z l IH]; simpl; [reflexivity|].
  rewrite insert_sorted_in, IH. intuition.
Qed.

Lemma insert_sorted_length (x : A) (l : list A) :
  List.length (insert_sorted le x l) = S (List.length l).
Proof.
  induction l as [|z l IH]; simpl; [reflexivity|].
  destruct (le x z); simpl; congruence.
Qed.

Lemma order_by_length (l : list A) : List.length (order_by le l) = List.length l.
Proof.
  induction l as [|z l IH]; simpl; [reflexivity|].
  now rewrite insert_sorted_length, IH.
Qed.

Hypothesis le_total : forall a b, le a b = true \/ le b a = true.
Hypothesis le_trans : forall a b c, le a b = true -> le b c = true -> le a c = true.

Lemma insert_sorted_sorted (x : A) (l : list A) :
  StronglySorted (fun a b => le a b = true) l ->
  StronglySorted (fun a b => le a b = true) (insert_sorted le x l).
Proof.
  induction 1 as [|z l Hs IH Hall]; simpl.
  - constructor; constructor.
  - destruct (le x z) eqn:E.
    + constructor; [constructor; assumption|].
      constructor; [assumption|].
      rewrite Forall_forall in *. intros y Hy. eauto.
    + constructor; [assumption|].
      rewrite Forall_forall in *. intros y Hy.
      apply insert_sorted_in in Hy. destruct Hy as [-> | Hy]; [|auto].
      destruct (le_total x z); congruence.
Qed.

Lemma order_by_sorted (l : list A) :
  StronglySorted (fun a b => le a b = true) (order_by le l).
Proof.
  induction l as [|z l IH]; simpl; [constructor|].
  now apply insert_sorted_sorted.
Qed.
End RelationalFacts.

Lemma count_app {A} (p : A -> bool) (l1 l2 : list A) :
  count p (l1 ++ l2) = count p l1 + count p l2.
Proof. unfold count. now rewrite filter_app, length_app. Qed.

Lemma count_ext {A} (p q : A -> bool) (l : list A) :
  (forall x, In x l -> p x = q x) -> count p l = count q l.
Proof. intros H. unfold count. now rewrite (filter_ext_in _ _ _ H). Qed.

Lemma count_pos {A} (p : A -> bool) (l : list A) :
  0 < count p l <-> exists x, In x l /\ p x = true.
Proof.
  unfold count. split.
  - intros H. destruct (filter p l) as [|x t] eqn:E; [simpl in H; lia|].
    exists x. apply filter_In. rewrite E. now left.
  - intros (x & Hin & Hp).
    assert (Hf : In x (filter p l)) by (apply filter_In; auto).
    destruct (filter p l); [destruct Hf | simpl; lia].
Qed.

Lemma distinct_in (l : list sqlval) (x : sqlval) :
  In x (distinct sql_same l) <-> In x l.
Proof.
  induction l as [|y l IH]; simpl; [reflexivity|].
  rewrite filter_In, IH. split.
  - intros [-> | [H _]]; auto.
  - intros [-> | H]; auto.
    destruct (sql_same x y) eqn:E.
    + apply sql_same_eq in E. subst. auto.
    + right. split; [assumption | reflexivity].
Qed.

(* ===================================================================== *)
(** * Lemmas: running a statement against the local store *)
(* ===================================================================== *)

Section LocalExecution.
Context {RT : Runtime}.

Lemma execute_query_local_ok (q : statement) (w : World) (d : Database)
    (rows : list pyval) :
  db w = Some d ->
  run_select q d = Ok rows ->
  execute_query q false w
  = (Ok (PList rows), with_trace (trace w ++ [Connect; Close]) w).
Proof.
  intros Hdb Hq.
  unfold execute_query, bind, get_db_connection, cursor_execute_select, log, ret.
  rewrite Hdb. simpl. rewrite Hdb, Hq. simpl.
  unfold with_trace. simpl. now rewrite <- app_assoc.
Qed.

Lemma execute_query_local_raise (q : statement) (w : World) (d : Database) (e : exn) :
  db w = Some d ->
  run_select q d = Raise e ->
  execute_query q false w = (Raise e, with_trace (trace w ++ [Connect]) w).
Proof.
  intros Hdb Hq.
  unfold execute_query, bind, get_db_connection, cursor_execute_select, log, ret.
  rewrite Hdb. simpl. rewrite Hdb, Hq. reflexivity.
Qed.

Lemma execute_query_no_store (q : statement) (w : World) :
  db w = None ->
  exists msg, execute_query q false w = (Raise (FileNotFoundError msg), w).
Proof.
  intros Hdb. eexists.
  unfold execute_query, bind, get_db_connection. rewrite Hdb. reflexivity.
Qed.

End LocalExecution.

(* ===================================================================== *)
(** * The detection rules *)
(* ===================================================================== *)

Lemma row5_inj (a b : Session) :
  row5 a = row5 b ->
  s_id a = s_id b /\ s_date a = s_date b /\ s_type a = s_type b
  /\ s_term_id a = s_term_id b /\ s_ordinal_number a = s_ordinal_number b.
Proof.
  unfold row5. intros H. injection H as H1 H2 H3 H4 H5.
  repeat split; now apply py_of_sql_inj.
Qed.

Lemma truthy_py_of_sql (v : sqlval) : truthy (py_of_sql v) = negb (blank v).
Proof. destruct v; reflexivity. Qed.

Lemma missing_fields_row5 (s : Session) : missing_fields (row5 s) = blank_fields s.
Proof.
  unfold missing_fields, blank_fields, py_get. simpl.
  rewrite !truthy_py_of_sql.
  now destruct (blank (s_date s)), (blank (s_type s)), (blank (s_term_id s)).
Qed.

Lemma blank_fields_null_fields (s : Session) :
  blank (s_date s) = is_null (s_date s) ->
  blank (s_type s) = is_null (s_type s) ->
  blank (s_term_id s) = is_null (s_term_id s) ->
  blank_fields s = null_fields s.
Proof. unfold blank_fields, null_fields. now intros -> -> ->. Qed.

Lemma select_missing_data_in (ss : list Session) (s : Session) :
  In s (select_missing_data ss) <->
  In s ss /\ (s_date s = SNull \/ s_type s = SNull \/ s_term_id s = SNull).
Proof.
  unfold select_missing_data, where_missing_data, sql_is_null.
  rewrite filter_In.
  destruct (s_date s), (s_type s), (s_term_id s); simpl;
    intuition (try discriminate; try congruence).
Qed.

Lemma sql_same_sym_holds (D v : sqlval) :
  D <> SNull -> sql_same D v = holds (sql_eq v D).
Proof.
  intros N. destruct D as [|x|x], v as [|y|y]; cbn [sql_eq sql_same];
    rewrite ?holds_Some; try reflexivity; try congruence.
  - apply Z.eqb_sym.
  - apply String.eqb_sym.
Qed.

Lemma sharing_date_dates (D : sqlval) (ss : list Session) :
  D <> SNull ->
  count (sql_same D)
        (map s_date (filter (fun s => holds (sql_is_not_null (s_date s))) ss))
  = sharing_date D ss.
Proof.
  intros N. unfold sharing_date, count.
  induction ss as [|s ss IH]; [reflexivity|].
  cbn [filter]. rewrite <- (sql_same_sym_holds D (s_date s) N).
  unfold sql_is_not_null at 1. rewrite holds_Some.
  destruct (is_null (s_date s)) eqn:E; cbn [negb map filter].
  - destruct (s_date s); try discriminate.
    replace (sql_same D SNull) with false by (destruct D; simpl; congruence).
    exact IH.
  - destruct (sql_same D (s_date s)); cbn [List.length]; [f_equal|]; exact IH.
Qed.

Lemma duplicated_dates_in (ss : list Session) (D : sqlval) :
  D <> SNull ->
  (In D (duplicated_dates ss) <-> 2 <= sharing_date D ss).
Proof.
  intros N. unfold duplicated_dates. cbv zeta.
  rewrite filter_In, distinct_in, sharing_date_dates by assumption.
  rewrite Nat.ltb_lt. split; [intros [_ H]; lia|].
  intros H. split; [|lia].
  assert (Hpos : 0 < sharing_date D ss) by lia.
  apply count_pos in Hpos. destruct Hpos as (s & Hin & Hs).
  apply holds_sql_eq in Hs. destruct Hs as [<- Hn].
  apply in_map. apply filter_In. split; [assumption|].
  unfold sql_is_not_null. now destruct (s_date s).
Qed.

Lemma sharing_date_null (ss : list Session) : sharing_date SNull ss = 0.
Proof.
  unfold sharing_date, count.
  induction ss as [|s ss IH]; simpl; [reflexivity|].
  now destruct (s_date s).
Qed.

Lemma select_duplicate_dates_in (ss : list Session) (s : Session) :
  In s (select_duplicate_dates ss) <-> In s ss /\ 2 <= sharing_date (s_date s) ss.
Proof.
  unfold select_duplicate_dates.
  rewrite order_by_in, filter_In, holds_sql_in.
  split.
  - intros (Hin & N & Hd). split; [assumption|]. now apply duplicated_dates_in.
  - intros (Hin & Hc). split; [assumption|].
    assert (N : s_date s <> SNull).
    { intros E. rewrite E, sharing_date_null in Hc. lia. }
    split; [assumption|]. now apply duplicated_dates_in.
Qed.

Section DetectionRules.
Context {RT : Runtime}.

(** C3 (amended).  Against a local store, missing_data returns exactly the
    sessions whose date, type or term_id is NULL; and the description built
    for a returned session is "Missing required fields: " followed by the
    names, joined with ", ", of exactly the fields that Python reads as
    false (NULL, empty text or 0) -- which are exactly the NULL fields when
    no required field holds an empty text or 0. *)
Theorem missing_data_rule (w : World) (d : Database) (ss : list Session) :
  db w = Some d ->
  sessions d = Some ss ->
  exists rows : list Session,
    detect_missing_data_sessions false w
    = (Ok (PList (map (fun s => PDict (row5 s)) rows)),
       with_trace (trace w ++ [Connect; Close]) w)
    /\ (forall s, In s rows <->
                  In s ss /\ (s_date s = SNull \/ s_type s = SNull \/ s_term_id s = SNull))
    /\ (forall s, In s rows ->
                  description_for "missing_data" (row5 s)
                  = "Missing required fields: " +++ join ", " (blank_fields s))
    /\ (forall s, In s rows ->
                  blank (s_date s) = is_null (s_date s) ->
                  blank (s_type s) = is_null (s_type s) ->
                  blank (s_term_id s) = is_null (s_term_id s) ->
                  description_for "missing_data" (row5 s)
                  = "Missing required fields: " +++ join ", " (null_fields s)).
Proof.
  intros Hdb Hss. exists (select_missing_data ss).
  split; [|split; [|split]].
  - unfold detect_missing_data_sessions. apply execute_query_local_ok with d; [assumption|].
    simpl. now rewrite Hss.
  - apply select_missing_data_in.
  - intros s _. unfold description_for. simpl. now rewrite missing_fields_row5.
  - intros s _ H1 H2 H3. unfold description_for. simpl.
    now rewrite missing_fields_row5, blank_fields_null_fields.
Qed.

(** C4.  Against a local store, duplicate_dates returns every session whose
    date is shared by at least two sessions, returns no session whose date
    is NULL or unique, and returns its rows by date ascending. *)
Theorem duplicate_dates_rule (w : World) (d : Database) (ss : list Session) :
  db w = Some d ->
  sessions d = Some ss ->
  exists rows : list Session,
    detect_duplicate_dates false w
    = (Ok (PList (map (fun s => PDict (row5 s)) rows)),
       with_trace (trace w ++ [Connect; Close]) w)
    /\ (forall D, 2 <= sharing_date D ss ->
                  forall s, In s ss -> s_date s = D -> In s rows)
    /\ (forall s, In s rows ->
                  In s ss /\ s_date s <> SNull /\ 2 <= sharing_date (s_date s) ss)
    /\ StronglySorted (fun a b => sql_le (s_date a) (s_date b) = true) rows.
Proof.
  intros Hdb Hss. exists (select_duplicate_dates ss).
  split; [|split; [|split]].
  - unfold detect_duplicate_dates. apply execute_query_local_ok with d; [assumption|].
    simpl. now rewrite Hss.
  - intros D HD s Hin <-. apply select_duplicate_dates_in. auto.
  - intros s H. apply select_duplicate_dates_in in H. destruct H as [Hin H].
    repeat split; try assumption.
    intros E. rewrite E, sharing_date_null in H. lia.
  - unfold select_duplicate_dates.
    apply (order_by_sorted date_asc).
    + intros a b. apply sql_le_total.
    + intros a b c. apply sql_le_trans.
Qed.

End DetectionRules.

(* ===================================================================== *)
(** * auto_imported *)
(* ===================================================================== *)

Lemma holds_resolved_session_entry (r : ReviewEntry) :
  holds (resolved_session_entry r) = true <->
  r_item_type r = SText "session" /\ r_status r = SText "resolved".
Proof.
  unfold resolved_session_entry. split.
  - intros H.
    assert (H1 : holds (sql_eq (r_item_type r) (SText "session")) = true)
      by (destruct (sql_eq (r_item_type r) _) as [[|]|],
                   (sql_eq (r_status r) _) as [[|]|]; try discriminate; reflexivity).
    assert (H2 : holds (sql_eq (r_status r) (SText "resolved")) = true)
      by (destruct (sql_eq (r_item_type r) _) as [[|]|],
                   (sql_eq (r_status r) _) as [[|]|]; try discriminate; reflexivity).
    apply holds_sql_eq in H1, H2. tauto.
  - intros [-> ->]. reflexivity.
Qed.

Lemma resolved_item_ids_in (rq : list ReviewEntry) (y : sqlval) :
  In y (resolved_item_ids rq) <-> exists r, In r rq /\ resolved_for y r.
Proof.
  unfold resolved_item_ids, resolved_for. rewrite in_map_iff. split.
  - intros (r & <- & Hr). apply filter_In in Hr. destruct Hr as [Hin Hr].
    apply holds_resolved_session_entry in Hr. exists r. tauto.
  - intros (r & Hin & H1 & H2 & H3). exists r. split; [assumption|].
    apply filter_In. split; [assumption|].
    apply holds_resolved_session_entry. tauto.
Qed.

Lemma select_auto_imported_in (ss : list Session) (rq : list ReviewEntry) (s : Session) :
  (forall r, In r rq -> r_item_type r = SText "session" ->
             r_status r = SText "resolved" -> r_item_id r <> SNull) ->
  s_id s <> SNull ->
  (In s (select_auto_imported ss rq) <->
   In s ss /\ ~ exists r, In r rq /\ resolved_for (s_id s) r).
Proof.
  intros Hnn Hid. unfold select_auto_imported.
  rewrite order_by_in, filter_In, holds_sql_not_in.
  split; intros [Hin H]; (split; [assumption|]).
  - intros (r & Hr & Hres).
    assert (Hy : In (s_id s) (resolved_item_ids rq))
      by (apply resolved_item_ids_in; eauto).
    apply H, sql_eq_false in Hy. tauto.
  - intros y Hy. apply sql_eq_false.
    apply resolved_item_ids_in in Hy. destruct Hy as (r & Hr & H1 & H2 & H3).
    repeat split; [assumption | |].
    + rewrite <- H3. now apply Hnn.
    + intros E. apply H. exists r. unfold resolved_for. rewrite E. tauto.
Qed.

(* ===================================================================== *)
(** * incomplete_attendance *)
(* ===================================================================== *)

Lemma join_rows_session (sa : list Absence) (s : Session) (j : joined) :
  In j (join_rows sa s) -> fst j = s.
Proof.
  unfold join_rows.
  destruct (filter _ sa) as [|a m]; simpl.
  - intros [<- | []]. reflexivity.
  - intros [<- | H]; [reflexivity|].
    apply in_map_iff in H. destruct H as (b & <- & _). reflexivity.
Qed.

Lemma join_rows_head (sa : list Absence) (s : Session) :
  exists o t, join_rows sa s = (s, o) :: t.
Proof.
  unfold join_rows. destruct (filter _ sa) as [|a m]; simpl; eauto.
Qed.

(** COUNT(sa.person_id) over the joined rows of one session is the number
    of absences recorded for it. *)
Lemma join_rows_count (sa : list Absence) (s : Session) :
  count (fun r => negb (is_null (sa_person_id r))) (join_rows sa s)
  = recorded_absences sa s.
Proof.
  unfold join_rows, recorded_absences, count.
  assert (G : forall l : list Absence,
             List.length (filter (fun r : joined => negb (is_null (sa_person_id r)))
                                 (map (fun a => (s, Some a)) l))
             = List.length (filter (fun a => negb (is_null (a_person_id a))) l)).
  { induction l as [|a l IH]; simpl; [reflexivity|].
    unfold sa_person_id at 1. simpl.
    destruct (negb (is_null (a_person_id a))); simpl; congruence. }
  assert (F : forall l : list Absence,
             filter (fun a => holds (sql_eq (s_id s) (a_session_id a))
                              && negb (is_null (a_person_id a))) l
             = filter (fun a => negb (is_null (a_person_id a)))
                      (filter (fun a => holds (sql_eq (s_id s) (a_session_id a))) l)).
  { induction l as [|a l IH]; simpl; [reflexivity|].
    destruct (holds (sql_eq (s_id s) (a_session_id a))); simpl; [|exact IH].
    destruct (negb (is_null (a_person_id a))); simpl; congruence. }
  rewrite F.
  destruct (filter (fun a => holds (sql_eq (s_id s) (a_session_id a))) sa) as [|a m] eqn:E.
  - reflexivity.
  - apply G.
Qed.

Lemma filter_flat_map_join_rows (p : Session -> bool) (sa : list Absence)
    (ss : list Session) :
  filter (fun j : joined => p (fst j)) (flat_map (join_rows sa) ss)
  = flat_map (join_rows sa) (filter p ss).
Proof.
  induction ss as [|s ss IH]; simpl; [reflexivity|].
  rewrite filter_app, IH.
  assert (H : forall l : list joined,
             (forall j, In j l -> fst j = s) ->
             filter (fun j : joined => p (fst j)) l = if p s then l else []).
  { induction l as [|j l IHl]; intros Hl; simpl.
    - now destruct (p s).
    - rewrite (Hl j (or_introl eq_refl)).
      rewrite IHl by (intros; apply Hl; now right).
      now destruct (p s). }
  rewrite (H _ (join_rows_session sa s)).
  destruct (p s); reflexivity.
Qed.

Lemma filter_none {A} (p : A -> bool) (l : list A) :
  (forall x, In x l -> p x = false) -> filter p l = [].
Proof.
  induction l as [|a l IH]; intros H; simpl; [reflexivity|].
  rewrite (H a (or_introl eq_refl)). apply IH. intros; apply H; now right.
Qed.

Lemma filter_all {A} (p : A -> bool) (l : list A) :
  (forall x, In x l -> p x = true) -> filter p l = l.
Proof.
  induction l as [|a l IH]; intros H; simpl; [reflexivity|].
  rewrite (H a (or_introl eq_refl)). f_equal. apply IH. intros; apply H; now right.
Qed.

Lemma filter_same_id_nodup (ss : list Session) (s : Session) :
  NoDup (map s_id ss) -> In s ss ->
  filter (fun s' => sql_same (s_id s') (s_id s)) ss = [s].
Proof.
  induction ss as [|a ss IH]; simpl; [intros _ []|].
  intros Hnd Hin. inversion Hnd as [|? ? Hnotin Hnd']; subst.
  destruct Hin as [-> | Hin].
  - rewrite sql_same_refl. f_equal. apply filter_none.
    intros b Hb. destruct (sql_same (s_id b) (s_id s)) eqn:E; [|reflexivity].
    apply sql_same_eq in E. exfalso. apply Hnotin. rewrite <- E. now apply in_map.
  - destruct (sql_same (s_id a) (s_id s)) eqn:E.
    + apply sql_same_eq in E. exfalso. apply Hnotin. rewrite E. now apply in_map.
    + now apply IH.
Qed.

Lemma filter_idem {A} (p : A -> bool) (l : list A) : filter p (filter p l) = filter p l.
Proof. apply filter_all. intros x H. now apply filter_In in H. Qed.

Lemma distinct_run (x : sqlval) (run rest : list sqlval) :
  (forall y, In y run -> y = x) ->
  filter (fun y => negb (sql_same y x)) (distinct sql_same (run ++ rest))
  = filter (fun y => negb (sql_same y x)) (distinct sql_same rest).
Proof.
  induction run as [|a run IH]; intros Hrun; [reflexivity|].
  assert (a = x) by (apply Hrun; now left). subst a.
  cbn [app distinct filter]. rewrite sql_same_refl. cbn [negb].
  rewrite filter_idem. apply IH. intros; apply Hrun; now right.
Qed.

Lemma distinct_block (x : sqlval) (run rest : list sqlval) :
  (forall y, In y run -> y = x) -> ~ In x rest ->
  distinct sql_same ((x :: run) ++ rest) = x :: distinct sql_same rest.
Proof.
  intros Hrun Hx. cbn [app distinct]. f_equal.
  rewrite distinct_run by assumption.
  apply filter_all. intros y Hy. rewrite distinct_in in Hy.
  destruct (sql_same y x) eqn:E; [|reflexivity].
  apply sql_same_eq in E. subst y. contradiction.
Qed.

Lemma group_keys_nodup (sa : list Absence) (ss : list Session) :
  NoDup (map s_id ss) ->
  distinct sql_same (map group_key (flat_map (join_rows sa) ss)) = map s_id ss.
Proof.
  induction ss as [|s ss IH]; intros Hnd; [reflexivity|].
  inversion Hnd as [|? ? Hnotin Hnd']; subst.
  cbn [flat_map map]. rewrite map_app.
  destruct (join_rows_head sa s) as (o & t & E).
  assert (Hall : forall j, In j (join_rows sa s) -> group_key j = s_id s)
    by (intros j Hj; unfold group_key; now rewrite (join_rows_session sa s j Hj)).
  rewrite E in *. cbn [map]. unfold group_key at 1. cbn [fst].
  rewrite distinct_block.
  - f_equal. now apply IH.
  - intros y Hy. apply in_map_iff in Hy. destruct Hy as (j & <- & Hj).
    apply Hall. now right.
  - intros Hin. apply Hnotin.
    apply in_map_iff in Hin. destruct Hin as (j & Hk & Hj).
    apply in_flat_map in Hj. destruct Hj as (s' & Hs' & Hj').
    unfold group_key in Hk. rewrite (join_rows_session sa s' j Hj') in Hk.
    rewrite <- Hk. now apply in_map.
Qed.

Lemma group_by_id_nodup (sa : list Absence) (ss : list Session) :
  NoDup (map s_id ss) ->
  group_by_id (flat_map (join_rows sa) ss) = map (join_rows sa) ss.
Proof.
  intros Hnd. unfold group_by_id.
  rewrite group_keys_nodup by assumption. rewrite map_map.
  apply map_ext_in. intros s Hs.
  change (fun j : joined => sql_same (group_key j) (s_id s))
    with (fun j : joined => (fun s' => sql_same (s_id s') (s_id s)) (fst j)).
  rewrite filter_flat_map_join_rows, filter_same_id_nodup by assumption.
  cbn [flat_map]. apply app_nil_r.
Qed.

Lemma aggregate_join_rows (sa : list Absence) (ms : list Membership) (ss : list Session) :
  flat_map (aggregate ms) (map (join_rows sa) ss) = map (attendance_row sa ms) ss.
Proof.
  induction ss as [|s ss IH]; [reflexivity|].
  cbn [map flat_map]. rewrite IH.
  pose proof (join_rows_count sa s) as Hc.
  destruct (join_rows_head sa s) as (o & t & E). rewrite E in *.
  unfold aggregate, attendance_row. cbn [fst app]. now rewrite Hc.
Qed.

(** Filtering the sessions keeps their identifiers distinct. *)
Lemma distinct_ids_filter (keep : Session -> bool) (ss : list Session) :
  NoDup (map s_id ss) -> NoDup (map s_id (filter keep ss)).
Proof.
  intros Hnd. induction ss as [|s ss IH]; cbn [filter map]; [constructor|].
  cbn [map] in Hnd. apply NoDup_cons_iff in Hnd. destruct Hnd as [Hnew Hrest].
  destruct (keep s); cbn [map]; [|now apply IH].
  apply NoDup_cons_iff. split; [|now apply IH].
  rewrite in_map_iff. intros (s' & Eid & Hs'). apply Hnew.
  rewrite <- Eid. apply in_map. now apply filter_In in Hs'.
Qed.

Lemma select_incomplete_attendance_nodup
    (ss : list Session) (sa : list Absence) (ms : list Membership) :
  NoDup (map s_id ss) ->
  select_incomplete_attendance ss sa ms
  = order_by date_desc
      (filter (fun r => 0 <? term_member_count r)
         (map (attendance_row sa ms)
            (filter (fun s => holds (sql_is_not_null (s_term_id s))) ss))).
Proof.
  intros Hnd. unfold select_incomplete_attendance, left_join. cbv zeta.
  rewrite (filter_flat_map_join_rows
             (fun s => holds (sql_is_not_null (s_term_id s)))).
  rewrite group_by_id_nodup by now apply distinct_ids_filter.
  now rewrite aggregate_join_rows.
Qed.

Lemma select_incomplete_attendance_in
    (ss : list Session) (sa : list Absence) (ms : list Membership) (r : AttendanceRow) :
  NoDup (map s_id ss) ->
  (In r (select_incomplete_attendance ss sa ms) <->
   exists s, In s ss /\ s_term_id s <> SNull
             /\ 0 < members_of_term ms (s_term_id s)
             /\ r = attendance_row sa ms s).
Proof.
  intros Hnd. rewrite select_incomplete_attendance_nodup by assumption.
  rewrite order_by_in, filter_In, in_map_iff, Nat.ltb_lt.
  split.
  - intros ((s & <- & Hs) & Hpos). apply filter_In in Hs. destruct Hs as [Hin Ht].
    exists s. repeat split; try assumption.
    intros E. rewrite E in Ht. discriminate.
  - intros (s & Hin & Ht & Hpos & ->). split; [|exact Hpos].
    exists s. split; [reflexivity|]. apply filter_In. split; [assumption|].
    unfold sql_is_not_null. now destruct (s_term_id s).
Qed.

Lemma keep_with_members_rows (rows : list AttendanceRow) :
  (forall r, In r rows -> 0 < term_member_count r) ->
  keep_with_members (map (fun r => PDict (row7 r)) rows)
  = Ok (map (fun r => PDict (row7 r)) rows).
Proof.
  induction rows as [|r rows IH]; intros H; [reflexivity|].
  cbn [map keep_with_members as_dict rbind].
  assert (Hz : py_eq_zero (py_get "term_member_count" (PInt 0) (row7 r)) = false).
  { unfold py_get, row7, row5. simpl.
    apply Z.eqb_neq. specialize (H r (or_introl eq_refl)). lia. }
  rewrite Hz, IH by (intros; apply H; now right). reflexivity.
Qed.

(** ** A NULL among the resolved items *)

Lemma sql_or_not_false_r (a b : tri) : b <> Some false -> sql_or a b <> Some false.
Proof. destruct a as [[|]|], b as [[|]|]; cbn; congruence. Qed.

Lemma sql_or_unknown_l (b : tri) : sql_or None b <> Some false.
Proof. destruct b as [[|]|]; cbn; congruence. Qed.

Lemma sql_in_with_null (x : sqlval) (l : list sqlval) :
  In SNull l -> sql_in x l <> Some false.
Proof.
  unfold sql_in. induction l as [|y l IH]; [intros []|].
  cbn [fold_right]. intros [-> | Hin].
  - replace (sql_eq x SNull) with (@None bool) by now destruct x.
    apply sql_or_unknown_l.
  - apply sql_or_not_false_r. now apply IH.
Qed.

Lemma select_auto_imported_with_null (ss : list Session) (rq : list ReviewEntry) :
  (exists r, In r rq /\ resolved_for SNull r) ->
  select_auto_imported ss rq = [].
Proof.
  intros (r & Hin & Htype & Hstatus & Hitem).
  assert (Hnull : In SNull (resolved_item_ids rq)).
  { unfold resolved_item_ids. rewrite <- Hitem. apply in_map, filter_In.
    split; [exact Hin|]. unfold resolved_session_entry. now rewrite Htype, Hstatus. }
  unfold select_auto_imported.
  assert (Hnone : filter (fun s => holds (sql_not (sql_in (s_id s) (resolved_item_ids rq)))) ss
                  = []).
  { induction ss as [|s ss IH]; [reflexivity|]. cbn [filter].
    pose proof (sql_in_with_null (s_id s) _ Hnull) as Hs.
    destruct (sql_in (s_id s) (resolved_item_ids rq)) as [[|]|]; cbn; try exact IH.
    now destruct Hs. }
  now rewrite Hnone.
Qed.

Section JoinRules.
Context {RT : Runtime}.

(** C5.  One resolved session entry whose item_id is NULL hides every
    session: under the three-valued logic of SQL, [id NOT IN (..., NULL)]
    is never true, so that auto_imported returns no row at all, whatever the
    sessions and the other entries of the queue are. *)
Theorem auto_imported_null_item_id_hides_every_session (w : World) (d : Database)
    (ss : list Session) (rq : list ReviewEntry) :
  db w = Some d ->
  sessions d = Some ss ->
  review_queue d = Some rq ->
  (exists r, In r rq /\ resolved_for SNull r) ->
  detect_auto_imported_unreviewed false w
  = (Ok (PList []), with_trace (trace w ++ [Connect; Close]) w).
Proof.
  intros Hdb Hss Hrq Hnull. unfold detect_auto_imported_unreviewed.
  apply execute_query_local_ok with d; [assumption|].
  cbn [run_select]. rewrite Hss, Hrq. cbn [table rbind].
  now rewrite (select_auto_imported_with_null ss rq Hnull).
Qed.

(** X28.  The auto_imported rule away from NULL items.  Against a local
    store in which no resolved session entry
    of the queue has a NULL item_id, auto_imported returns, among the
    sessions with an identifier, exactly those for which the queue holds no
    entry of item type 'session' and status 'resolved'; the rows come by
    created_at descending; and a session all of whose entries are pending is
    returned. *)
Theorem auto_imported_rule (w : World) (d : Database)
    (ss : list Session) (rq : list ReviewEntry) :
  db w = Some d ->
  sessions d = Some ss ->
  review_queue d = Some rq ->
  (forall r, In r rq -> r_item_type r = SText "session" ->
             r_status r = SText "resolved" -> r_item_id r <> SNull) ->
  exists rows : list Session,
    detect_auto_imported_unreviewed false w
    = (Ok (PList (map (fun s => PDict (row6 s)) rows)),
       with_trace (trace w ++ [Connect; Close]) w)
    /\ (forall s, s_id s <> SNull ->
                  (In s rows <->
                   In s ss /\ ~ exists r, In r rq /\ resolved_for (s_id s) r))
    /\ StronglySorted (fun a b => sql_le (s_created_at b) (s_created_at a) = true) rows
    /\ (forall s, In s ss -> s_id s <> SNull ->
                  (forall r, In r rq -> r_item_id r = s_id s ->
                             r_status r = SText "pending") ->
                  In s rows).
Proof.
  intros Hdb Hss Hrq Hnn. exists (select_auto_imported ss rq).
  split; [|split; [|split]].
  - unfold detect_auto_imported_unreviewed.
    apply execute_query_local_ok with d; [assumption|].
    simpl. now rewrite Hss, Hrq.
  - intros s Hid. now apply select_auto_imported_in.
  - unfold select_auto_imported. apply (order_by_sorted created_desc).
    + intros a b. apply sql_le_total.
    + intros a b c H1 H2. unfold created_desc in *. eapply sql_le_trans; eassumption.
  - intros s Hin Hid Hpending. apply select_auto_imported_in; try assumption.
    split; [assumption|]. intros (r & Hr & _ & Hst & Hitem).
    specialize (Hpending r Hr Hitem). congruence.
Qed.

(** C6.  Against a local store whose session identifiers are distinct,
    incomplete_attendance returns one candidate for every session with a
    term reference whose term has at least one membership, and nothing else:
    a session whose term has no membership is left out whatever its
    absences; each candidate carries the absences recorded for its session
    and the membership count of its term. *)
Theorem incomplete_attendance_rule (w : World) (d : Database)
    (ss : list Session) (sa : list Absence) (ms : list Membership) :
  db w = Some d ->
  sessions d = Some ss ->
  session_absences d = Some sa ->
  memberships d = Some ms ->
  NoDup (map s_id ss) ->
  exists rows : list AttendanceRow,
    detect_incomplete_attendance false w
    = (Ok (PList (map (fun r => PDict (row7 r)) rows)),
       with_trace (trace w ++ [Connect; Close]) w)
    /\ (forall s, In s ss -> members_of_term ms (s_term_id s) = 0 ->
                  forall r, In r rows -> ar_session r <> s)
    /\ (forall s, In s ss -> s_term_id s <> SNull ->
                  0 < members_of_term ms (s_term_id s) ->
                  In (attendance_row sa ms s) rows)
    /\ (forall r, In r rows ->
                  In (ar_session r) ss
                  /\ absence_count r = recorded_absences sa (ar_session r)
                  /\ term_member_count r = members_of_term ms (s_term_id (ar_session r))
                  /\ dict_get "absence_count" (row7 r)
                     = Some (PInt (Z.of_nat (recorded_absences sa (ar_session r))))
                  /\ dict_get "term_member_count" (row7 r)
                     = Some (PInt (Z.of_nat (members_of_term ms (s_term_id (ar_session r)))))
                  /\ description_for "incomplete_attendance" (row7 r)
                     = "Incomplete attendance: "
                       +++ string_of_Z (Z.of_nat (recorded_absences sa (ar_session r)))
                       +++ " absences recorded for "
                       +++ string_of_Z (Z.of_nat (members_of_term ms (s_term_id (ar_session r))))
                       +++ " term members").
Proof.
  intros Hdb Hss Hsa Hms Hnd. exists (select_incomplete_attendance ss sa ms).
  assert (Hin := fun r => select_incomplete_attendance_in ss sa ms r Hnd).
  split; [|split; [|split]].
  - unfold detect_incomplete_attendance, bind.
    rewrite (execute_query_local_ok IncompleteAttendance w d
               (map (fun r => PDict (row7 r)) (select_incomplete_attendance ss sa ms)))
      by (try assumption; simpl; now rewrite Hss, Hsa, Hms).
    unfold lift, py_iter, ret.
    rewrite keep_with_members_rows; [reflexivity|].
    intros r Hr. apply Hin in Hr. destruct Hr as (s & _ & _ & Hpos & ->). exact Hpos.
  - intros s _ Hzero r Hr E. apply Hin in Hr.
    destruct Hr as (s' & _ & _ & Hpos & ->). simpl in E. subst s'. lia.
  - intros s Hs Ht Hpos. apply Hin. exists s. auto.
  - intros r Hr. apply Hin in Hr. destruct Hr as (s & Hs & _ & _ & ->).
    cbn [ar_session absence_count term_member_count attendance_row].
    repeat split; try assumption; reflexivity.
Qed.

End JoinRules.

(* ===================================================================== *)
(** * Frame reasoning for the monad *)
(* ===================================================================== *)

Section Frames.
Context {RT : Runtime}.

Section Closure.
Variable R : World -> World -> Prop.
Hypothesis R_refl : forall w, R w w.
Hypothesis R_trans : forall a b c, R a b -> R b c -> R a c.

Lemma respects_ret {A} (a : A) : respects R (ret a).
Proof. intros w. apply R_refl. Qed.

Lemma respects_raise {A} (e : exn) : respects R (@raise _ A e).
Proof. intros w. apply R_refl. Qed.

Lemma respects_lift {A} (r : result A) : respects R (lift r).
Proof. intros w. apply R_refl. Qed.

Lemma respects_bind {A B} (m : M A) (k : A -> M B) :
  respects R m -> (forall a, respects R (k a)) -> respects R (bind m k).
Proof.
  intros Hm Hk w. unfold bind. specialize (Hm w).
  destruct (m w) as [[a|e] w1]; simpl in *; [|assumption].
  eapply R_trans; [eassumption | apply Hk].
Qed.

Lemma respects_try_except {A} (body : M A) (clauses : exn -> option (M A)) :
  respects R body ->
  (forall e h, clauses e = Some h -> respects R h) ->
  respects R (try_except body clauses).
Proof.
  intros Hb Hc w. unfold try_except. specialize (Hb w).
  destruct (body w) as [[a|e] w1]; simpl in *; [assumption|].
  destruct (clauses e) as [h|] eqn:E; [|assumption].
  eapply R_trans; [eassumption | now apply (Hc e h)].
Qed.

Lemma respects_try_finally {A} (body : M A) (cleanup : M unit) :
  respects R body -> respects R cleanup -> respects R (try_finally body cleanup).
Proof.
  intros Hb Hc w. unfold try_finally. specialize (Hb w).
  destruct (body w) as [r w1]. specialize (Hc w1).
  destruct (cleanup w1) as [[u|e] w2]; simpl in *; eapply R_trans; eassumption.
Qed.
End Closure.

Lemma same_store_refl (w : World) : same_store w w.
Proof. reflexivity. Qed.

Lemma same_store_trans (a b c : World) : same_store a b -> same_store b c -> same_store a c.
Proof. unfold same_store. congruence. Qed.

Lemma extends_by_refl (p : event -> bool) (w : World) : extends_by p w w.
Proof. exists []. now rewrite app_nil_r. Qed.

Lemma extends_by_trans (p : event -> bool) (a b c : World) :
  extends_by p a b -> extends_by p b c -> extends_by p a c.
Proof.
  intros (t1 & E1 & H1) (t2 & E2 & H2). exists (t1 ++ t2). split.
  - now rewrite E2, E1, app_assoc.
  - now rewrite forallb_app, H1, H2.
Qed.


End Frames.

Section Behaviour.
Context {RT : Runtime}.

(** Unfolds a handler clause [clauses e = Some h] chosen by a test. *)
Ltac pick_clause :=
  match goal with H : _ = Some _ |- _ => cbv beta in H end;
  repeat match goal with
  | H : (if ?c then _ else _) = Some _ |- _ => destruct c
  | H : Some _ = Some _ |- _ => injection H as <-
  | H : None = Some _ |- _ => discriminate H
  end.

(** Walks a monadic term built from the combinators, leaving the effects
    that are not [ret], [raise] or [lift] to [prim]. *)
Ltac frame refl trans prim :=
  repeat first
    [ apply (respects_ret _ refl)
    | apply (respects_raise _ refl)
    | apply (respects_lift _ refl)
    | solve [prim]
    | apply (respects_bind _ trans); [|intros ?]
    | apply (respects_try_finally _ trans)
    | apply (respects_try_except _ trans); [|intros ? ? ?; pick_clause]
    | match goal with
      | |- respects _ (if ?b then _ else _) => destruct b
      | |- respects _ (match ?x with _ => _ end) => destruct x
      end ].

(** ** The local store is only written by the INSERT *)

Lemma log_same_store (e : event) : respects same_store (log e).
Proof. intros w. reflexivity. Qed.

Lemma draw_same_store : respects same_store draw.
Proof. intros w. reflexivity. Qed.

Lemma write_file_same_store (p c : string) : respects same_store (write_file p c).
Proof. intros w. reflexivity. Qed.

Lemma remove_file_same_store (p : string) : respects same_store (remove_file p).
Proof. intros w. reflexivity. Qed.

Lemma run_wrangler_command_same_store (c : list string) :
  respects same_store (run_wrangler_command c).
Proof.
  intros w. unfold run_wrangler_command.
  destruct (npx_wrangler _ _ _) as [[out|err|] r]; reflexivity.
Qed.

Lemma get_db_connection_same_store : respects same_store get_db_connection.
Proof. intros w. unfold get_db_connection. destruct (db w); reflexivity. Qed.

Lemma cursor_execute_select_same_store (q : statement) :
  respects same_store (cursor_execute_select q).
Proof. intros w. unfold cursor_execute_select. destruct (db w); reflexivity. Qed.

Ltac store_prim :=
  first [ apply log_same_store | apply draw_same_store
        | apply write_file_same_store | apply remove_file_same_store
        | apply run_wrangler_command_same_store
        | apply get_db_connection_same_store
        | apply cursor_execute_select_same_store ].

Ltac store_frame := frame constr:(same_store_refl) constr:(same_store_trans) ltac:(idtac; store_prim).

Lemma parse_wrangler_output_same_store (o : option string) :
  respects same_store (parse_wrangler_output o).
Proof. unfold parse_wrangler_output, py_json_loads. store_frame. Qed.

Lemma execute_query_same_store (q : statement) (use_remote : bool) :
  respects same_store (execute_query q use_remote).
Proof.
  unfold execute_query, print, eprint.
  frame constr:(same_store_refl) constr:(same_store_trans)
        ltac:(idtac; first [store_prim | apply parse_wrangler_output_same_store]).
Qed.

Lemma check_same_store (criterion : string) (check : bool -> M pyval) (use_remote : bool) :
  check_functions criterion = Some check -> respects same_store (check use_remote).
Proof.
  unfold check_functions. intros H.
  repeat match type of H with
         | (if ?c then _ else _) = _ => destruct c
         end; try discriminate; injection H as <-;
    unfold detect_missing_data_sessions, detect_duplicate_dates,
      detect_incomplete_attendance, detect_auto_imported_unreviewed;
    frame constr:(same_store_refl) constr:(same_store_trans) ltac:(idtac; apply execute_query_same_store).
Qed.

(** ** What is appended to the trace *)

Lemma log_extends (p : event -> bool) (e : event) :
  p e = true -> respects (extends_by p) (log e).
Proof. intros H w. exists [e]. simpl. now rewrite H. Qed.

Lemma unchanged_trace_extends (p : event -> bool) (w w' : World) :
  trace w' = trace w -> extends_by p w w'.
Proof. intros E. exists []. now rewrite app_nil_r. Qed.

Lemma draw_extends (p : event -> bool) : respects (extends_by p) draw.
Proof. intros w. now apply unchanged_trace_extends. Qed.

Lemma write_file_extends (p : event -> bool) (f c : string) :
  respects (extends_by p) (write_file f c).
Proof. intros w. now apply unchanged_trace_extends. Qed.

Lemma remove_file_extends (p : event -> bool) (f : string) :
  respects (extends_by p) (remove_file f).
Proof. intros w. now apply unchanged_trace_extends. Qed.

Lemma run_wrangler_command_extends (c : list string) :
  respects (extends_by quiet) (run_wrangler_command c).
Proof.
  intros w. unfold run_wrangler_command.
  destruct (npx_wrangler _ _ _) as [[out|err|] r]; simpl.
  - now apply unchanged_trace_extends.
  - now exists [Stderr ("Error running wrangler command: " +++ err)].
  - now eexists [Stderr _].
Qed.

Lemma get_db_connection_extends : respects (extends_by quiet) get_db_connection.
Proof.
  intros w. unfold get_db_connection. destruct (db w); simpl.
  - now exists [Connect].
  - apply extends_by_refl.
Qed.

Lemma cursor_execute_select_extends (q : statement) :
  respects (extends_by quiet) (cursor_execute_select q).
Proof.
  intros w. unfold cursor_execute_select. destruct (db w); apply extends_by_refl.
Qed.

Lemma cursor_execute_insert_extends (rid : string) (sid : pyval) (i d n : string) :
  respects (extends_by quiet) (cursor_execute_insert rid sid i d n).
Proof.
  intros w. unfold cursor_execute_insert.
  destruct (bind_param sid); [|apply extends_by_refl].
  destruct (db w); [|apply extends_by_refl].
  destruct (insert_review_queue _ _); simpl;
    now apply unchanged_trace_extends.
Qed.

Ltac quiet_prim :=
  first [ apply log_extends; reflexivity
        | apply draw_extends | apply write_file_extends | apply remove_file_extends
        | apply run_wrangler_command_extends
        | apply get_db_connection_extends
        | apply cursor_execute_select_extends
        | apply cursor_execute_insert_extends ].

Ltac quiet_frame :=
  frame constr:(extends_by_refl quiet) constr:(extends_by_trans quiet) ltac:(idtac; quiet_prim).




(* ===================================================================== *)
(** * The writer *)
(* ===================================================================== *)

Lemma quiet_no_calls (t : list event) :
  forallb quiet t = true -> flag_calls t = [] /\ announcements t = [].
Proof.
  induction t as [|e t IH]; simpl; [auto|].
  intros H. apply andb_prop in H. destruct H as [He Ht].
  destruct (IH Ht) as [-> ->].
  unfold quiet in He. apply andb_prop in He. destruct He as [Ha Hf].
  apply negb_true_iff in Ha, Hf. now rewrite Ha, Hf.
Qed.

Lemma flag_calls_app (a b : list event) : flag_calls (a ++ b) = flag_calls a ++ flag_calls b.
Proof. apply filter_app. Qed.


(** In preview mode the writer only announces what it would write. *)
Lemma flag_session_for_review_dry_run
    (sid : pyval) (issue desc : string) (use_remote : bool) (w : World) :
  flag_session_for_review sid issue desc true use_remote w
  = (Ok true,
     {| db := db w; remote := remote w; files := files w;
        trace := trace w ++ [FlagCall sid issue desc;
                             Stdout ("  [DRY RUN] Would flag session " +++ py_str sid
                                     +++ " for review: " +++ desc)];
        draws := S (draws w) |}).
Proof.
  unfold flag_session_for_review, bind, log, draw, print, ret, with_trace. simpl.
  now rewrite <- app_assoc.
Qed.

(** Every call enters the writer once and is quiet afterwards. *)
Lemma flag_session_for_review_trace
    (sid : pyval) (issue desc : string) (dry_run use_remote : bool) (w : World) :
  exists during,
    trace (snd (flag_session_for_review sid issue desc dry_run use_remote w))
    = trace w ++ FlagCall sid issue desc :: during
    /\ forallb quiet during = true.
Proof.
  unfold flag_session_for_review.
  match goal with
  | |- context [bind (log ?e) ?k w] =>
      change (bind (log e) k w) with (k tt (with_trace (trace w ++ [e]) w));
      assert (Hk : respects (extends_by quiet) (k tt))
  end.
  { cbv beta. unfold print, eprint. quiet_frame. }
  destruct (Hk (with_trace (trace w ++ [FlagCall sid issue desc]) w)) as (during & E & Hq).
  exists during. split; [|assumption].
  rewrite E. simpl. now rewrite <- app_assoc.
Qed.

(** One call of the writer against the local store, preview off. *)
Lemma flag_session_for_review_local
    (sid : pyval) (item : sqlval) (issue desc : string) (w : World) (d : Database) :
  db w = Some d ->
  bind_param sid = Ok item ->
  let row := review_row (review_id_of (draws w)) item issue desc
                        (utcnow_isoformat (draws w)) in
  let after (d' : Database) (t : list event) : World :=
    {| db := Some d'; remote := remote w; files := files w;
       trace := trace w ++ FlagCall sid issue desc :: Connect :: Close :: t;
       draws := S (draws w) |} in
  flag_session_for_review sid issue desc false false w
  = match insert_review_queue row d with
    | Inserted d' => (Ok true, after d' [])
    | ConstraintFailed => (Ok true, after d [])
    | NoSuchTable =>
        (Ok false,
         after d [Stderr ("  Error flagging session " +++ py_str sid +++ ": "
                          +++ "no such table: review_queue")])
    end.
Proof.
  intros Hdb Hbind row after. subst row after.
  unfold flag_session_for_review, bind, log, draw, get_db_connection, try_except,
    cursor_execute_insert, eprint, ret. simpl.
  rewrite Hdb. simpl. rewrite ?Hbind, ?Hdb.
  destruct (insert_review_queue _ d) as [d'| |]; simpl; unfold with_trace, with_db; simpl;
    repeat rewrite <- app_assoc; reflexivity.
Qed.

Lemma existsb_count {A} (p : A -> bool) (l : list A) :
  existsb p l = (0 <? count p l).
Proof.
  unfold count. induction l as [|a l IH]; simpl; [reflexivity|].
  destruct (p a); simpl; [reflexivity | exact IH].
Qed.

Lemma unique_taken_entries
    (rid : string) (item : sqlval) (issue desc now : string) (rq : list ReviewEntry) :
  unique_taken (review_row rid item issue desc now) rq
  = (0 <? entries_for item issue rq).
Proof. unfold unique_taken. now rewrite existsb_count. Qed.

Lemma entries_for_insert
    (rid sid issue desc now : string) (rq : list ReviewEntry) :
  entries_for (SText sid) issue (rq ++ [review_row rid (SText sid) issue desc now])
  = entries_for (SText sid) issue rq + 1.
Proof.
  unfold entries_for. rewrite count_app. f_equal.
  unfold count. simpl. now rewrite !String.eqb_refl.
Qed.

Lemma pk_taken_fresh (row : ReviewEntry) (rq : list ReviewEntry) :
  ~ In (r_id row) (map r_id rq) -> pk_taken row rq = false.
Proof.
  intros H. unfold pk_taken. destruct (existsb _ rq) eqn:E; [|reflexivity].
  apply existsb_exists in E. destruct E as (r & Hr & He).
  apply holds_sql_eq in He. destruct He as [He _].
  exfalso. apply H. rewrite <- He. now apply in_map.
Qed.

(** C1.  Against a local store whose schema declares the uniqueness
    constraint, flagging the same session under the same issue kind twice
    (preview off) succeeds both times and leaves exactly one review_queue
    row for the pair: the second call adds nothing. *)
Theorem flagging_twice_is_idempotent
    (w : World) (d : Database) (rq : list ReviewEntry)
    (sid issue desc1 desc2 : string) :
  db w = Some d ->
  review_queue d = Some rq ->
  review_unique d = true ->
  entries_for (SText sid) issue rq <= 1 ->
  ~ In (SText (review_id_of (draws w))) (map r_id rq) ->
  exists (w1 w2 : World) (d2 : Database) (rq2 : list ReviewEntry),
    flag_session_for_review (PStr sid) issue desc1 false false w = (Ok true, w1)
    /\ flag_session_for_review (PStr sid) issue desc2 false false w1 = (Ok true, w2)
    /\ db w2 = Some d2
    /\ review_queue d2 = Some rq2
    /\ entries_for (SText sid) issue rq2 = 1
    /\ List.length rq2 = List.length rq + (1 - entries_for (SText sid) issue rq)
    /\ db w2 = db w1.
Proof.
  intros Hdb Hrq Huniq Hinv Hfresh.
  pose proof (flag_session_for_review_local (PStr sid) (SText sid) issue desc1 w d
                Hdb eq_refl) as H1.
  cbv zeta in H1. unfold insert_review_queue in H1.
  rewrite Hrq, Huniq, unique_taken_entries in H1. cbn [andb] in H1.
  rewrite pk_taken_fresh in H1 by exact Hfresh. cbn [orb] in H1.
  destruct (0 <? entries_for (SText sid) issue rq) eqn:E.
  - (* already flagged: both calls hit the constraint *)
    apply Nat.ltb_lt in E.
    eexists; eexists; exists d, rq.
    split; [exact H1|].
    split.
    + rewrite (flag_session_for_review_local (PStr sid) (SText sid) issue desc2 _ d)
        by reflexivity.
      cbv zeta. unfold insert_review_queue.
      rewrite Hrq, Huniq, unique_taken_entries.
      replace (0 <? entries_for (SText sid) issue rq) with true
        by (symmetry; now apply Nat.ltb_lt).
      rewrite orb_true_r. reflexivity.
    + cbn [db snd]. repeat split; try assumption; lia.
  - (* first call inserts, second hits the constraint *)
    apply Nat.ltb_ge in E.
    set (row := review_row (review_id_of (draws w)) (SText sid) issue desc1
                           (utcnow_isoformat (draws w))) in *.
    eexists; eexists; exists (set_review_queue (rq ++ [row]) d), (rq ++ [row]).
    split; [exact H1|].
    split.
    + rewrite (flag_session_for_review_local (PStr sid) (SText sid) issue desc2 _
                 (set_review_queue (rq ++ [row]) d)) by reflexivity.
      cbv zeta. unfold insert_review_queue. cbn [review_queue review_unique set_review_queue].
      rewrite Huniq, unique_taken_entries. unfold row. rewrite entries_for_insert.
      replace (0 <? entries_for (SText sid) issue rq + 1) with true
        by (symmetry; apply Nat.ltb_lt; lia).
      rewrite orb_true_r. reflexivity.
    + cbn [db snd review_queue set_review_queue]. repeat split; try reflexivity.
      * unfold row. rewrite entries_for_insert. lia.
      * rewrite length_app. cbn [List.length]. lia.
Qed.

(* ===================================================================== *)
(** * execute_query and the connection *)
(* ===================================================================== *)

(** When the statement succeeds the connection is closed again. *)
Lemma execute_query_closes_on_success
    (q : statement) (w : World) (d : Database) (rows : list pyval) :
  db w = Some d ->
  run_select q d = Ok rows ->
  leaves_open (trace w) (trace (snd (execute_query q false w))) 0.
Proof.
  intros Hdb Hq. rewrite (execute_query_local_ok q w d rows Hdb Hq).
  exists [Connect; Close]. split; reflexivity.
Qed.

(** C7 (the code departs from the claim).  In local mode, when executing
    the statement raises, execute_query lets the exception through without
    closing the connection it opened: one connection is left open. *)
Theorem execute_query_error_leaves_connection_open
    (q : statement) (w : World) (d : Database) (e : exn) :
  db w = Some d ->
  run_select q d = Raise e ->
  fst (execute_query q false w) = Raise e
  /\ leaves_open (trace w) (trace (snd (execute_query q false w))) 1.
Proof.
  intros Hdb Hq. rewrite (execute_query_local_raise q w d e Hdb Hq).
  split; [reflexivity|]. exists [Connect]. split; reflexivity.
Qed.

(* ===================================================================== *)
(** * parse_wrangler_output *)
(* ===================================================================== *)


(* ===================================================================== *)
(** * The loop over the candidates *)
(* ===================================================================== *)

Lemma quiet_unannounced (t : list event) :
  forallb quiet t = true -> forallb unannounced t = true.
Proof.
  rewrite !forallb_forall. intros H e He. specialize (H e He).
  unfold quiet in H. now apply andb_prop in H.
Qed.


Lemma has_id_dict (d : pydict) : has_id (PDict d) = truthy (py_get "id" PNone d).
Proof. reflexivity. Qed.

(** One turn of the loop. *)
Lemma flag_sessions_cons
    (criterion : string) (dry_run use_remote : bool) (s : pyval) (rest : list pyval)
    (n : nat) (w : World) :
  flag_sessions criterion (s :: rest) dry_run use_remote n w
  = match as_dict s with
    | Raise e => (Raise e, w)
    | Ok d =>
        if truthy (py_get "id" PNone d) then
          match flag_session_for_review (py_get "id" PNone d) criterion
                  (description_for criterion d) dry_run use_remote w with
          | (Ok ok, w1) =>
              flag_sessions criterion rest dry_run use_remote
                (if ok then n + 1 else n) w1
          | (Raise e, w1) => (Raise e, w1)
          end
        else flag_sessions criterion rest dry_run use_remote n w
    end.
Proof.
  cbn [flag_sessions]. unfold bind, lift.
  destruct (as_dict s) as [d|e]; [|reflexivity].
  cbv zeta. destruct (truthy (py_get "id" PNone d)); reflexivity.
Qed.

(** The entries into the writer made by the loop are, in order, those due
    for the candidates that carry an identifier: all of them when the loop
    completes, the first of them when it is cut short by an exception. *)
Lemma flag_sessions_calls
    (criterion : string) (dry_run use_remote : bool) (sessions : list pyval) :
  forall (n : nat) (w : World),
  exists during pending,
    trace (snd (flag_sessions criterion sessions dry_run use_remote n w))
    = trace w ++ during
    /\ forallb unannounced during = true
    /\ map (flag_call_for criterion) (filter has_id sessions)
       = flag_calls during ++ pending
    /\ (forall k,
         fst (flag_sessions criterion sessions dry_run use_remote n w) = Ok k ->
         pending = [] /\ n <= k <= n + count has_id sessions).
Proof.
  induction sessions as [|s rest IH]; intros n w.
  - exists [], []. cbn. rewrite app_nil_r. repeat split; try reflexivity.
    + now injection H as <-.
    + injection H as <-. unfold count. simpl. lia.
  - rewrite flag_sessions_cons.
    destruct (as_dict s) as [d|e] eqn:Ed.
    + assert (s = PDict d) by (destruct s; try discriminate; now injection Ed as ->).
      subst s. unfold count. cbn [filter]. rewrite has_id_dict.
      destruct (truthy (py_get "id" PNone d)) eqn:Hid.
      * destruct (flag_session_for_review_trace (py_get "id" PNone d) criterion
                    (description_for criterion d) dry_run use_remote w)
          as (q & Eq & Hq).
        destruct (flag_session_for_review _ _ _ _ _ w) as [[ok|e] w1]; cbn [snd] in Eq.
        -- destruct (IH (if ok then n + 1 else n) w1) as (during & pending & E & Hu & Hc & Hk).
           exists ((FlagCall (py_get "id" PNone d) criterion (description_for criterion d)
                    :: q) ++ during), pending.
           split; [rewrite E, Eq; now rewrite <- app_assoc|].
           split; [rewrite forallb_app; cbn; now rewrite (quiet_unannounced q Hq), Hu|].
           split.
           ++ rewrite flag_calls_app. cbn [map flag_call_for flag_calls filter is_flag_call].
              fold (flag_calls q). rewrite (proj1 (quiet_no_calls q Hq)).
              cbn [app]. f_equal. exact Hc.
           ++ intros k Hok. destruct (Hk k Hok) as [-> Hb]. split; [reflexivity|].
              unfold count in Hb. cbn [List.length]. destruct ok; lia.
        -- exists (FlagCall (py_get "id" PNone d) criterion (description_for criterion d) :: q),
             (map (flag_call_for criterion) (filter has_id rest)).
           split; [exact Eq|].
           split; [cbn; now rewrite (quiet_unannounced q Hq)|].
           split.
           ++ cbn [map flag_call_for flag_calls filter is_flag_call].
              fold (flag_calls q). now rewrite (proj1 (quiet_no_calls q Hq)).
           ++ intros k Hok. discriminate Hok.
      * exact (IH n w).
    + assert (Hno : has_id s = false) by (destruct s; try reflexivity; discriminate).
      exists [], (map (flag_call_for criterion) (filter has_id (s :: rest))).
      cbn [snd fst]. rewrite app_nil_r. repeat split; try reflexivity; discriminate.
Qed.

(** In preview mode the loop never touches the local store. *)
Lemma flag_sessions_dry_run_same_store
    (criterion : string) (use_remote : bool) (sessions : list pyval) :
  forall n, respects same_store (flag_sessions criterion sessions true use_remote n).
Proof.
  induction sessions as [|s rest IH]; intros n; cbn [flag_sessions].
  - apply (respects_ret _ same_store_refl).
  - apply (respects_bind _ same_store_trans); [apply (respects_lift _ same_store_refl)|].
    intros d. destruct (negb _); [apply IH|].
    apply (respects_bind _ same_store_trans); [|intros ok; apply IH].
    intros w. now rewrite flag_session_for_review_dry_run.
Qed.

(** In preview mode, over records that are all dicts, the loop completes
    and counts every candidate that carries an identifier. *)
Lemma flag_sessions_dry_run_ok
    (criterion : string) (use_remote : bool) (rows : list pydict) :
  forall (n : nat) (w : World),
  exists w',
    flag_sessions criterion (map PDict rows) true use_remote n w
    = (Ok (n + count has_id (map PDict rows)), w').
Proof.
  induction rows as [|d rows IH]; intros n w.
  - exists w. cbn. unfold count. simpl. now rewrite Nat.add_0_r.
  - cbn [map]. rewrite flag_sessions_cons. cbn [as_dict].
    unfold count. cbn [filter]. rewrite has_id_dict.
    destruct (truthy (py_get "id" PNone d)).
    + rewrite flag_session_for_review_dry_run.
      match goal with
      | |- context [flag_sessions _ _ _ _ _ ?w1] => destruct (IH (n + 1) w1) as (w' & E)
      end.
      exists w'. rewrite E. unfold count. cbn [List.length]. f_equal. f_equal. lia.
    + destruct (IH n w) as (w' & E). exists w'. exact E.
Qed.

(* ===================================================================== *)
(** * One check *)
(* ===================================================================== *)

Lemma select_incomplete_attendance_members
    (ss : list Session) (sa : list Absence) (ms : list Membership) (r : AttendanceRow) :
  In r (select_incomplete_attendance ss sa ms) -> 0 < term_member_count r.
Proof.
  unfold select_incomplete_attendance. cbv zeta.
  rewrite order_by_in, filter_In, Nat.ltb_lt. tauto.
Qed.

(** Against a local store that has its four tables every rule returns a
    list of rows, the same whatever else the world holds. *)
Lemma check_local (criterion : string) (check : bool -> M pyval) (d : Database) :
  check_functions criterion = Some check ->
  schema_loaded d = true ->
  exists rows : list pydict,
    forall w, db w = Some d ->
              check false w
              = (Ok (PList (map PDict rows)), with_trace (trace w ++ [Connect; Close]) w).
Proof.
  unfold check_functions, schema_loaded. intros Hc Hs.
  destruct (sessions d) as [ss|] eqn:Hss; [|discriminate].
  destruct (memberships d) as [ms|] eqn:Hms; [|discriminate].
  destruct (session_absences d) as [sa|] eqn:Hsa; [|discriminate].
  destruct (review_queue d) as [rq|] eqn:Hrq; [|discriminate].
  repeat match type of Hc with
         | (if ?c then _ else _) = _ => destruct c
         end; try discriminate; injection Hc as <-.
  - exists (map row5 (select_missing_data ss)). intros w Hdb.
    apply execute_query_local_ok with d; [assumption|].
    simpl. now rewrite Hss, map_map.
  - exists (map row5 (select_duplicate_dates ss)). intros w Hdb.
    apply execute_query_local_ok with d; [assumption|].
    simpl. now rewrite Hss, map_map.
  - exists (map row7 (select_incomplete_attendance ss sa ms)). intros w Hdb.
    unfold detect_incomplete_attendance, bind.
    rewrite (execute_query_local_ok IncompleteAttendance w d
               (map (fun r => PDict (row7 r)) (select_incomplete_attendance ss sa ms)))
      by (try assumption; simpl; now rewrite Hss, Hsa, Hms).
    unfold lift, py_iter, ret.
    rewrite keep_with_members_rows by apply select_incomplete_attendance_members.
    now rewrite map_map.
  - exists (map row6 (select_auto_imported ss rq)). intros w Hdb.
    apply execute_query_local_ok with d; [assumption|].
    simpl. now rewrite Hss, Hrq, map_map.
Qed.

Lemma run_check_dry_run_same_store
    (criterion : string) (check : bool -> M pyval) (use_remote : bool) :
  check_functions criterion = Some check ->
  respects same_store (run_check criterion check true use_remote).
Proof.
  intros Hc. unfold run_check, print.
  frame constr:(same_store_refl) constr:(same_store_trans)
        ltac:(idtac; first [ apply log_same_store
                           | apply (check_same_store criterion check use_remote Hc)
                           | apply flag_sessions_dry_run_same_store ]).
Qed.



(** What a completed check has counted and whom it has flagged. *)
Lemma run_check_ok
    (criterion : string) (check : bool -> M pyval) (dry_run use_remote : bool)
    (w w1 w' : World) (sessions : list pyval) (stats : CriterionStats) :
  check use_remote (with_trace (trace w ++ [Stdout (announcement criterion)]) w)
  = (Ok (PList sessions), w1) ->
  run_check criterion check dry_run use_remote w = (Ok stats, w') ->
  found stats = List.length sessions
  /\ flagged stats <= count has_id sessions
  /\ exists during,
       trace w' = trace w1 ++ during
       /\ flag_calls during = map (flag_call_for criterion) (filter has_id sessions).
Proof.
  intros Hcheck Hrun. unfold run_check, print, bind, log in Hrun.
  cbn [fst snd] in Hrun. rewrite Hcheck in Hrun. cbn [lift py_iter py_len] in Hrun.
  destruct (flag_sessions_calls criterion dry_run use_remote sessions 0 w1)
    as (during & pending & E & _ & Hc & Hk).
  destruct (flag_sessions criterion sessions dry_run use_remote 0 w1) as [[k|e] w2];
    [|discriminate].
  unfold ret in Hrun. injection Hrun as <- <-.
  destruct (Hk k eq_refl) as [-> Hb]. rewrite app_nil_r in Hc.
  cbn [found flagged]. repeat split; [lia|].
  exists during. split; [exact E | now symmetry].
Qed.

(* ===================================================================== *)
(** * The loop over the criteria *)
(* ===================================================================== *)

Lemma dict_get_set_same {V} (k : string) (v : V) (d : list (string * V)) :
  dict_get k (dict_set k v d) = Some v.
Proof.
  induction d as [|[k' v'] d IH]; simpl.
  - now rewrite String.eqb_refl.
  - destruct (k' =? k)%string eqn:E; simpl.
    + now rewrite String.eqb_refl.
    + now rewrite E.
Qed.

Lemma dict_get_set_other {V} (k k' : string) (v : V) (d : list (string * V)) :
  k' <> k -> dict_get k' (dict_set k v d) = dict_get k' d.
Proof.
  intros N. induction d as [|[k0 v0] d IH]; simpl.
  - apply String.eqb_neq in N. now rewrite String.eqb_sym, N.
  - destruct (k0 =? k)%string eqn:E; simpl.
    + apply String.eqb_eq in E. subst k0.
      assert (Hk : (k =? k')%string = false) by (apply String.eqb_neq; congruence).
      now rewrite Hk.
    + destruct (k0 =? k')%string; [reflexivity | exact IH].
Qed.



Lemma known_check (criterion : string) :
  known criterion = true <-> exists check, check_functions criterion = Some check.
Proof.
  unfold known, check_functions. simpl.
  destruct (criterion =? "missing_data")%string; [split; eauto|].
  destruct (criterion =? "duplicate_dates")%string; [split; eauto|].
  destruct (criterion =? "incomplete_attendance")%string; [split; eauto|].
  destruct (criterion =? "auto_imported")%string; [split; eauto|].
  simpl. split; [discriminate | intros [c H]; discriminate].
Qed.

Lemma unknown_check (criterion : string) :
  known criterion = false <-> check_functions criterion = None.
Proof.
  split.
  - intros Hk. destruct (check_functions criterion) as [c|] eqn:E; [|reflexivity].
    assert (known criterion = true) by (apply known_check; eauto). congruence.
  - intros Hc. destruct (known criterion) eqn:E; [|reflexivity].
    apply known_check in E. destruct E as [c E]. congruence.
Qed.

(** One turn of the loop over the criteria, for a recognised criterion. *)
Lemma run_checks_from_cons
    (criterion : string) (rest : list string) (check : bool -> M pyval)
    (dry_run use_remote : bool) (results : Results) (w : World) :
  check_functions criterion = Some check ->
  run_checks_from (criterion :: rest) dry_run use_remote results w
  = match run_check criterion check dry_run use_remote w with
    | (Ok stats, w1) =>
        run_checks_from rest dry_run use_remote (record_check criterion stats results)
          (with_trace (trace w1 ++ [found_line stats]) w1)
    | (Raise e, w1) => (Raise e, w1)
    end.
Proof.
  intros Hc. cbn [run_checks_from]. rewrite Hc. unfold bind at 1.
  destruct (run_check criterion check dry_run use_remote w) as [[stats|e] w1];
    reflexivity.
Qed.

Lemma run_checks_from_skip
    (criterion : string) (rest : list string)
    (dry_run use_remote : bool) (results : Results) (w : World) :
  check_functions criterion = None ->
  run_checks_from (criterion :: rest) dry_run use_remote results w
  = run_checks_from rest dry_run use_remote results
      (with_trace (trace w ++ [Stderr ("Warning: Unknown criterion '" +++ criterion
                                       +++ "', skipping.")]) w).
Proof. intros Hc. cbn [run_checks_from]. now rewrite Hc. Qed.

(** In preview mode a whole run leaves the local store as it was, in either
    mode and whether or not it completes. *)
Lemma run_checks_from_dry_run_same_store (use_remote : bool) (criteria : list string) :
  forall results, respects same_store (run_checks_from criteria true use_remote results).
Proof.
  induction criteria as [|c rest IH]; intros results w.
  - reflexivity.
  - destruct (check_functions c) as [check|] eqn:Hc.
    + rewrite (run_checks_from_cons c rest check) by assumption.
      pose proof (run_check_dry_run_same_store c check use_remote Hc w) as H1.
      destruct (run_check c check true use_remote w) as [[stats|e] w1]; [|exact H1].
      eapply same_store_trans; [exact H1|].
      eapply same_store_trans; [|apply IH]. reflexivity.
    + rewrite run_checks_from_skip by assumption.
      eapply same_store_trans; [|apply IH]. reflexivity.
Qed.

(** A check in preview mode against a local store with its tables. *)
Lemma run_check_local_dry_run
    (criterion : string) (check : bool -> M pyval) (d : Database) (rows : list pydict)
    (w : World) :
  check_functions criterion = Some check ->
  (forall w0, db w0 = Some d ->
              check false w0
              = (Ok (PList (map PDict rows)), with_trace (trace w0 ++ [Connect; Close]) w0)) ->
  db w = Some d ->
  exists w',
    run_check criterion check true false w
    = (Ok {| found := List.length rows; flagged := count has_id (map PDict rows) |}, w')
    /\ db w' = Some d.
Proof.
  intros Hc Hrows Hdb.
  pose proof (run_check_dry_run_same_store criterion check false Hc w) as Hsame.
  unfold run_check, print, bind, log in *. cbn [fst snd] in *.
  rewrite Hrows in * by exact Hdb. cbn [lift py_iter py_len] in *.
  match goal with
  | |- context [flag_sessions _ _ _ _ _ ?w1] =>
      destruct (flag_sessions_dry_run_ok criterion false rows 0 w1) as (w' & E)
  end.
  rewrite E in *. unfold ret in *. cbn [snd] in Hsame.
  exists w'. rewrite length_map. split; [reflexivity|].
  unfold same_store in Hsame. now rewrite Hsame.
Qed.

Lemma run_checks_from_local_dry_run (d : Database) (criteria : list string) :
  schema_loaded d = true ->
  forall results w,
    db w = Some d ->
    exists res w',
      run_checks_from criteria true false results w = (Ok res, w')
      /\ db w' = Some d
      /\ (forall c, In c criteria -> known c = true ->
                    exists rows k,
                      finds d c rows
                      /\ dict_get c (by_criteria res)
                         = Some {| found := List.length rows; flagged := k |})
      /\ (forall c, ~ (In c criteria /\ known c = true) ->
                    dict_get c (by_criteria res) = dict_get c (by_criteria results)).
Proof.
  intros Hs. induction criteria as [|c rest IH]; intros results w Hdb.
  - exists results, w. repeat split; try assumption; try reflexivity.
    intros c [].
  - destruct (check_functions c) as [check|] eqn:Hc.
    + rewrite (run_checks_from_cons c rest check) by assumption.
      destruct (check_local c check d Hc Hs) as (rows & Hrows).
      destruct (run_check_local_dry_run c check d rows w Hc Hrows Hdb) as (w1 & E1 & Hdb1).
      rewrite E1.
      match goal with
      | |- context [run_checks_from rest true false ?r ?w2] =>
          destruct (IH r w2 Hdb1) as (res & w' & E & Hdb' & Hin & Hout)
      end.
      exists res, w'. split; [exact E|]. split; [exact Hdb'|]. split.
      * intros c' Hc' Hk.
        destruct (in_dec string_dec c' rest) as [Hrest | Hrest]; [now apply Hin|].
        destruct Hc' as [<- | Hc']; [|contradiction].
        rewrite Hout by tauto. cbn [by_criteria record_check].
        rewrite dict_get_set_same.
        exists (map PDict rows), (count has_id (map PDict rows)).
        rewrite length_map. split; [|reflexivity].
        exists check. split; [assumption|].
        intros w0 Hw0. now rewrite Hrows.
      * intros c' Hc'. rewrite Hout by (intros [H1 H2]; apply Hc'; split; [now right | assumption]).
        cbn [by_criteria record_check]. apply dict_get_set_other.
        intros ->. apply Hc'. split; [now left|]. apply known_check. eauto.
    + rewrite run_checks_from_skip by assumption.
      match goal with
      | |- context [run_checks_from rest true false results ?w2] =>
          destruct (IH results w2 Hdb) as (res & w' & E & Hdb' & Hin & Hout)
      end.
      exists res, w'. split; [exact E|]. split; [exact Hdb'|]. split.
      * intros c' [<- | Hc'] Hk; [|now apply Hin].
        apply unknown_check in Hc. congruence.
      * intros c' Hc'. apply Hout. intros [H1 H2]. apply Hc'. split; [now right | assumption].
Qed.




Lemma count_le_length {A} (p : A -> bool) (l : list A) : count p l <= List.length l.
Proof. apply filter_length_le. Qed.

Lemma count_lt_length {A} (p : A -> bool) (l : list A) :
  (exists x, In x l /\ p x = false) -> count p l < List.length l.
Proof.
  unfold count. induction l as [|a l IH]; intros (x & Hin & Hx); [destruct Hin|].
  simpl. destruct Hin as [-> | Hin].
  - rewrite Hx. pose proof (filter_length_le p l). lia.
  - assert (H : List.length (filter p l) < List.length l) by (apply IH; eauto).
    destruct (p a); simpl; lia.
Qed.

(* ===================================================================== *)
(** * The properties of a run *)
(* ===================================================================== *)

(** C2.  In preview mode the writer returns success and changes neither the
    local store, nor the remote one, nor the working directory, whatever
    the candidate and the mode: all it does is print the notice of what it
    would write.  A whole run leaves the local store as it was.  A check
    that completes records as found the number of candidates its rule
    returned; and against a local store with its tables the run completes
    and records, for every recognised criterion requested, a found count
    equal to the number of candidates the rule finds in the store. *)
Theorem preview_mode_writes_nothing :
  (forall sid issue desc use_remote w,
      exists w',
        flag_session_for_review sid issue desc true use_remote w = (Ok true, w')
        /\ db w' = db w /\ remote w' = remote w /\ files w' = files w
        /\ trace w'
           = trace w ++ [FlagCall sid issue desc;
                         Stdout ("  [DRY RUN] Would flag session " +++ py_str sid
                                 +++ " for review: " +++ desc)])
  /\ (forall criteria use_remote w,
         db (snd (run_checks criteria true use_remote w)) = db w)
  /\ (forall c check use_remote w w1 w' sessions stats,
         check use_remote (with_trace (trace w ++ [Stdout (announcement c)]) w)
         = (Ok (PList sessions), w1) ->
         run_check c check true use_remote w = (Ok stats, w') ->
         found stats = List.length sessions)
  /\ (forall criteria w d,
         db w = Some d ->
         schema_loaded d = true ->
         exists res w',
           run_checks criteria true false w = (Ok res, w')
           /\ db w' = db w
           /\ forall c, In c criteria -> known c = true ->
                        exists rows k,
                          finds d c rows
                          /\ dict_get c (by_criteria res)
                             = Some {| found := List.length rows; flagged := k |}).
Proof.
  split; [|split; [|split]].
  - intros sid issue desc use_remote w. eexists.
    rewrite flag_session_for_review_dry_run. repeat split.
  - intros criteria use_remote w.
    apply (run_checks_from_dry_run_same_store use_remote criteria).
  - intros c check use_remote w w1 w' sessions stats Hcheck Hrun.
    exact (proj1 (run_check_ok c check true use_remote w w1 w' sessions stats Hcheck Hrun)).
  - intros criteria w d Hdb Hs. unfold run_checks.
    destruct (run_checks_from_local_dry_run d criteria Hs
                {| total_flagged := 0; by_criteria := [] |} w Hdb)
      as (res & w' & E & Hdb' & Hin & _).
    exists res, w'. repeat split; [exact E | congruence | exact Hin].
Qed.

Lemma chars_length (s : string) : List.length (chars s) = String.length s.
Proof. induction s as [|c t IH]; cbn; congruence. Qed.

Lemma py_iter_len (v : pyval) (items : list pyval) :
  py_iter v = Ok items -> py_len v = Ok (List.length items).
Proof.
  destruct v; cbn; try discriminate; intros H; injection H as <-;
    now rewrite ?length_map, ?chars_length.
Qed.











(** C10.  When the rule of a recognised criterion has returned its
    candidates and the check completes, the found count is the number of
    all candidates, while the writer has been entered exactly for those
    whose "id" is present and truthy, in order: a candidate whose "id" is
    absent, None or empty is counted as found and never handed to the
    writer, so that flagged stays below found whenever there is one. *)
Theorem candidates_without_id_are_found_not_flagged
    (criterion : string) (check : bool -> M pyval) (dry_run use_remote : bool)
    (results res : Results) (w w1 w' : World) (sessions : list pyval) :
  check_functions criterion = Some check ->
  check use_remote (with_trace (trace w ++ [Stdout (announcement criterion)]) w)
  = (Ok (PList sessions), w1) ->
  run_checks_from [criterion] dry_run use_remote results w = (Ok res, w') ->
  exists stats during,
    dict_get criterion (by_criteria res) = Some stats
    /\ found stats = List.length sessions
    /\ flagged stats <= count has_id sessions
    /\ trace w' = trace w1 ++ during
    /\ flag_calls during = map (flag_call_for criterion) (filter has_id sessions)
    /\ (forall sid issue desc, In (FlagCall sid issue desc) during -> truthy sid = true)
    /\ ((exists s, In s sessions /\ has_id s = false) -> flagged stats < found stats).
Proof.
  intros Hc Hcheck Hrun.
  rewrite (run_checks_from_cons criterion [] check) in Hrun by assumption.
  destruct (run_check criterion check dry_run use_remote w) as [[stats|e] w2] eqn:Erun;
    [|discriminate].
  cbn in Hrun. injection Hrun as <- <-.
  destruct (run_check_ok criterion check dry_run use_remote w w1 w2 sessions stats
              Hcheck Erun) as (Hfound & Hflagged & during & Etrace & Hcalls).
  exists stats, (during ++ [found_line stats]).
  assert (Hcalls' : flag_calls (during ++ [found_line stats])
                    = map (flag_call_for criterion) (filter has_id sessions)).
  { rewrite flag_calls_app. cbn. now rewrite app_nil_r. }
  split; [cbn; apply dict_get_set_same|].
  split; [exact Hfound|]. split; [exact Hflagged|].
  split; [cbn; rewrite Etrace; now rewrite <- app_assoc|].
  split; [exact Hcalls'|]. split.
  - intros sid issue desc Hin.
    assert (Hin' : In (FlagCall sid issue desc) (flag_calls (during ++ [found_line stats])))
      by (apply filter_In; split; [exact Hin | reflexivity]).
    rewrite Hcalls' in Hin'. apply in_map_iff in Hin'.
    destruct Hin' as (s & Es & Hs). apply filter_In in Hs. destruct Hs as [_ Hs].
    destruct s as [| | | | |d]; try discriminate Hs.
    cbn in Es. injection Es as <- _ _. exact Hs.
  - intros Hex. rewrite Hfound.
    pose proof (count_lt_length has_id sessions Hex). lia.
Qed.

End Behaviour.


(* ===================================================================== *)
(** * Further properties: the remote backend *)
(* ===================================================================== *)

Section Further.
Context {RT : Runtime}.

Lemma filter_dict_set_other {V} (k : string) (v : V) (d : list (string * V)) :
  filter (fun f => negb (fst f =? k)%string) (dict_set k v d)
  = filter (fun f => negb (fst f =? k)%string) d.
Proof.
  induction d as [|[k' v'] d IH]; cbn [dict_set filter fst].
  - now rewrite String.eqb_refl.
  - destruct (k' =? k)%string eqn:E; cbn [filter fst negb].
    + now rewrite String.eqb_refl.
    + rewrite E. cbn [negb]. now rewrite IH.
Qed.

Lemma filter_removes_key {V} (k : string) (d : list (string * V)) :
  dict_get k (filter (fun f => negb (fst f =? k)%string) d) = None.
Proof.
  induction d as [|[k' v'] d IH]; cbn [filter fst dict_get]; [reflexivity|].
  destruct (k' =? k)%string eqn:E; cbn [negb dict_get]; [exact IH|].
  now rewrite E.
Qed.

Lemma filter_keeps_other_keys {V} (k k' : string) (d : list (string * V)) :
  k' <> k ->
  dict_get k' (filter (fun f => negb (fst f =? k)%string) d) = dict_get k' d.
Proof.
  intros N. induction d as [|[k0 v0] d IH]; cbn [filter fst dict_get]; [reflexivity|].
  destruct (String.eqb_spec k0 k) as [->|N0]; cbn [negb dict_get].
  - rewrite IH. apply String.eqb_neq in N. now rewrite String.eqb_sym, N.
  - now rewrite IH.
Qed.

(** What parse_wrangler_output makes of an output, in any world. *)
Lemma parse_wrangler_output_pure (output : option string) :
  exists r, forall w, parse_wrangler_output output w = (r, w).
Proof.
  unfold parse_wrangler_output, try_except, bind, py_json_loads, lift, ret.
  destruct output as [s|]; [|eauto].
  destruct (s =? EmptyString)%string; [eauto|].
  destruct (json_loads s) as [data|e]; cbn.
  - destruct data as [| | | |[|first rest]|]; eauto.
    destruct first as [| | | | |d]; eauto.
    destruct (dict_get "results" d); eauto.
  - destruct (is_json_decode_error e); eauto.
Qed.


(** A remote query, step by step: the file is written, wrangler runs on
    it, the output is parsed, the file is removed. *)
Lemma execute_query_remote_run (q : statement) (w : World) :
  let fs := dict_set ".temp_query.sql" (sql_text q) (files w) in
  let exit := fst (npx_wrangler temp_query_args fs (remote w)) in
  let r := snd (npx_wrangler temp_query_args fs (remote w)) in
  exists v t,
    execute_query q true w
    = (v,
       {| db := db w; remote := r;
          files := filter (fun f => negb (fst f =? ".temp_query.sql")%string) (files w);
          trace := trace w ++ t; draws := draws w |})
    /\ match exit with
       | Completed out =>
           t = [] /\ forall w0, parse_wrangler_output (Some out) w0 = (v, w0)
       | CalledProcessError err =>
           v = Ok (PList []) /\ t = [Stderr ("Error running wrangler command: " +++ err)]
       | ExecutableNotFound =>
           v = Ok (PList [])
           /\ t = [Stderr "Error: wrangler not found. Make sure @cloudflare/wrangler is installed."]
       end.
Proof.
  cbv zeta. unfold execute_query, bind, write_file, try_finally, remove_file,
    run_wrangler_command, temp_query_args.
  cbn [fst snd files with_files remote].
  destruct (npx_wrangler _ _ _) as [[out|err|] r]; cbn [fst snd].
  - destruct (parse_wrangler_output_pure (Some out)) as (v & Ev).
    exists v, []. rewrite Ev. cbn. rewrite filter_dict_set_other, app_nil_r.
    split; [reflexivity|]. split; [reflexivity | exact Ev].
  - eexists. eexists. cbn. rewrite filter_dict_set_other.
    split; [reflexivity|]. split; reflexivity.
  - eexists. eexists. cbn. rewrite filter_dict_set_other.
    split; [reflexivity|]. split; reflexivity.
Qed.


(** X2.  In remote mode a wrangler run that fails (non-zero exit, or no
    executable) makes execute_query return the empty list, with one line
    on stderr: the caller cannot tell it from a query without rows. *)
Theorem execute_query_remote_failure_is_empty (q : statement) (w : World) :
  (forall out,
      fst (npx_wrangler temp_query_args
             (dict_set ".temp_query.sql" (sql_text q) (files w)) (remote w))
      <> Completed out) ->
  exists line,
    fst (execute_query q true w) = Ok (PList [])
    /\ trace (snd (execute_query q true w)) = trace w ++ [Stderr line].
Proof.
  intros Hfail. destruct (execute_query_remote_run q w) as (v & t & E & H).
  cbv zeta in H. rewrite E. cbn [fst snd trace].
  destruct (fst (npx_wrangler _ _ _)) as [out|err|].
  - now destruct (Hfail out).
  - destruct H as [-> ->]. eauto.
  - destruct H as [-> ->]. eauto.
Qed.

(* ===================================================================== *)
(** * Further properties: the writer *)
(* ===================================================================== *)

(** A local call whose session identifier sqlite3 cannot bind. *)
Lemma flag_session_for_review_unbound
    (sid : pyval) (e : exn) (issue desc : string) (w : World) (d : Database) :
  db w = Some d ->
  bind_param sid = Raise e ->
  flag_session_for_review sid issue desc false false w
  = (Ok false,
     {| db := Some d; remote := remote w; files := files w;
        trace := trace w ++ [FlagCall sid issue desc; Connect; Close;
                             Stderr ("  Error flagging session " +++ py_str sid +++ ": "
                                     +++ exn_str e)];
        draws := S (draws w) |}).
Proof.
  intros Hdb Hbind.
  assert (Hint : is_integrity_error e = false)
    by (destruct sid; try discriminate; cbn in Hbind; now injection Hbind as <-).
  unfold flag_session_for_review, bind, log, draw, get_db_connection, try_except,
    cursor_execute_insert, eprint, ret. cbn.
  rewrite Hdb. cbn. rewrite ?Hbind, ?Hdb, ?Hint. cbn. unfold with_trace. cbn.
  rewrite ?Hdb. repeat rewrite <- app_assoc. reflexivity.
Qed.

(** X3.  In local mode, with a database file in place, the writer never
    raises and closes the connection it opened on every path: the call
    adds to the trace its entry, one Connect, one Close and, only when it
    returns False, one error line on stderr; a call that returns False
    has left the store as it was. *)
Theorem flag_session_for_review_closes_connection
    (sid : pyval) (issue desc : string) (w : World) (d : Database) :
  db w = Some d ->
  exists ok w' tail,
    flag_session_for_review sid issue desc false false w = (Ok ok, w')
    /\ trace w' = trace w ++ FlagCall sid issue desc :: Connect :: Close :: tail
    /\ open_connections (FlagCall sid issue desc :: Connect :: Close :: tail) = 0
    /\ (ok = true -> tail = [])
    /\ (ok = false ->
        db w' = db w
        /\ exists msg, tail = [Stderr ("  Error flagging session " +++ py_str sid +++ ": "
                                       +++ msg)]).
Proof.
  intros Hdb. destruct (bind_param sid) as [item|e] eqn:Hbind.
  - rewrite (flag_session_for_review_local sid item issue desc w d Hdb Hbind).
    cbv zeta. destruct (insert_review_queue _ d) as [d'| |].
    + exists true. eexists. exists []. split; [reflexivity|]. cbn [trace db].
      repeat split; try reflexivity; discriminate.
    + exists false. eexists. eexists. split; [reflexivity|]. cbn [trace db].
      repeat split; try reflexivity; try discriminate; eauto.
    + exists true. eexists. exists []. split; [reflexivity|]. cbn [trace db].
      repeat split; try reflexivity; discriminate.
  - rewrite (flag_session_for_review_unbound sid e issue desc w d Hdb Hbind).
    exists false. eexists. eexists. split; [reflexivity|]. cbn [trace db].
    repeat split; try reflexivity; try discriminate; eauto.
Qed.

(** X4.  In local mode without a database file the writer raises
    FileNotFoundError before it opens anything: nothing is connected,
    nothing is written, no file is touched. *)
Theorem flag_session_for_review_without_store
    (sid : pyval) (issue desc : string) (w : World) :
  db w = None ->
  exists msg w',
    flag_session_for_review sid issue desc false false w
    = (Raise (FileNotFoundError msg), w')
    /\ trace w' = trace w ++ [FlagCall sid issue desc]
    /\ db w' = None /\ files w' = files w /\ remote w' = remote w.
Proof.
  intros Hdb. eexists. eexists.
  unfold flag_session_for_review, bind, log, draw, get_db_connection. cbn.
  rewrite Hdb. split; [reflexivity|]. cbn. repeat split; assumption.
Qed.

(** X5.  A local call changes the store by at most one row appended to
    review_queue: the row made of the generated identifier, item type
    'session', the bound session identifier, the issue kind, the
    description, status 'pending' and the current time.  The other tables
    and the schema are as before. *)
Theorem flag_session_for_review_appends_one_row
    (sid : pyval) (issue desc : string) (w : World) (d : Database)
    (rq : list ReviewEntry) :
  db w = Some d ->
  review_queue d = Some rq ->
  exists d',
    db (snd (flag_session_for_review sid issue desc false false w)) = Some d'
    /\ sessions d' = sessions d
    /\ memberships d' = memberships d
    /\ session_absences d' = session_absences d
    /\ review_unique d' = review_unique d
    /\ (review_queue d' = Some rq
        \/ exists item,
             bind_param sid = Ok item
             /\ review_queue d'
                = Some (rq ++ [review_row (review_id_of (draws w)) item issue desc
                                          (utcnow_isoformat (draws w))])).
Proof.
  intros Hdb Hrq. destruct (bind_param sid) as [item|e] eqn:Hbind.
  - rewrite (flag_session_for_review_local sid item issue desc w d Hdb Hbind).
    cbv zeta. unfold insert_review_queue. rewrite Hrq.
    destruct (pk_taken _ rq || _).
    + exists d. cbn. repeat split. now left.
    + eexists. cbn. repeat split. right. exists item. split; reflexivity.
  - rewrite (flag_session_for_review_unbound sid e issue desc w d Hdb Hbind).
    exists d. cbn. repeat split. now left.
Qed.

(** A remote call, step by step. *)
Lemma flag_session_for_review_remote_run
    (sid : pyval) (issue desc : string) (w : World) :
  let n := draws w in
  let file := temp_insert_file n in
  let text := insert_statement_text (review_id_of n) sid issue desc (utcnow_isoformat n) in
  let run := npx_wrangler (temp_insert_args n) (dict_set file text (files w)) (remote w) in
  exists t,
    flag_session_for_review sid issue desc false true w
    = (Ok (match fst run with Completed _ => true | _ => false end),
       {| db := db w; remote := snd run;
          files := filter (fun f => negb (fst f =? file)%string) (files w);
          trace := trace w ++ FlagCall sid issue desc :: t;
          draws := S n |})
    /\ forallb (fun e => match e with Stderr _ => true | _ => false end) t = true.
Proof.
  cbv zeta. unfold flag_session_for_review, bind, log, draw, write_file, try_except,
    run_wrangler_command, remove_file, temp_insert_args, temp_insert_file.
  cbn [fst snd files with_files with_trace remote draws db trace].
  destruct (npx_wrangler _ _ _) as [[out|err|] r]; cbn.
  - exists []. rewrite filter_dict_set_other. split; reflexivity.
  - eexists [_]. rewrite filter_dict_set_other, <- app_assoc. split; reflexivity.
  - eexists [_]. rewrite filter_dict_set_other, <- app_assoc. split; reflexivity.
Qed.

(** X6.  In remote mode the writer never raises and never touches the
    local store; it returns True exactly when wrangler, run on the
    temporary file that holds the INSERT statement, completed; and when
    it returns that file is gone and every other file is as it was. *)
Theorem flag_session_for_review_remote
    (sid : pyval) (issue desc : string) (w : World) :
  let n := draws w in
  let text := insert_statement_text (review_id_of n) sid issue desc (utcnow_isoformat n) in
  let exit := fst (npx_wrangler (temp_insert_args n)
                     (dict_set (temp_insert_file n) text (files w)) (remote w)) in
  exists ok w',
    flag_session_for_review sid issue desc false true w = (Ok ok, w')
    /\ (ok = true <-> exists out, exit = Completed out)
    /\ db w' = db w
    /\ dict_get (temp_insert_file n) (files w') = None
    /\ forall name, name <> temp_insert_file n ->
                    dict_get name (files w') = dict_get name (files w).
Proof.
  cbv zeta. destruct (flag_session_for_review_remote_run sid issue desc w) as (t & E & _).
  cbv zeta in E. eexists. eexists. split; [exact E|]. cbn [db files].
  split.
  - destruct (fst (npx_wrangler _ _ _)) as [out|err|]; split; try discriminate; eauto;
      intros [out' H]; discriminate.
  - split; [reflexivity|].
    split; [apply filter_removes_key | intros; now apply filter_keeps_other_keys].
Qed.

(** X7.  The description is escaped so that it reads back unchanged as
    the body of an SQL string literal: doubling its single quotes leaves
    no lone quote, and undoing the doubling gives the description again. *)
Theorem escaped_description_reads_back (description : string) :
  sql_unquote (replace_char "'"%char "''" description) = Some description.
Proof.
  induction description as [|c t IH]; [reflexivity|].
  cbn [replace_char]. destruct (Ascii.eqb c "'"%char) eqn:E.
  - apply Ascii.eqb_eq in E. subst c. cbn. now rewrite IH.
  - cbn [sql_unquote]. now rewrite E, IH.
Qed.

(* ===================================================================== *)
(** * Further properties: what a run does to the store *)
(* ===================================================================== *)

Lemma store_grows_refl (issues : list string) (d : Database) : store_grows issues d d.
Proof.
  unfold store_grows. repeat split.
  destruct (review_queue d) as [rq|]; [|trivial].
  exists []. now rewrite app_nil_r.
Qed.

Lemma store_grows_trans (issues : list string) (a b c : Database) :
  store_grows issues a b -> store_grows issues b c -> store_grows issues a c.
Proof.
  unfold store_grows. intros (A1 & A2 & A3 & A4 & A5) (B1 & B2 & B3 & B4 & B5).
  repeat split; try congruence.
  destruct (review_queue a) as [ra|], (review_queue b) as [rb|], (review_queue c) as [rc|];
    try contradiction; trivial.
  destruct A5 as (x & -> & Hx), B5 as (y & -> & Hy).
  exists (x ++ y). rewrite app_assoc. split; [reflexivity|]. now apply Forall_app.
Qed.

Lemma written_for_weaken (issues issues' : list string) (r : ReviewEntry) :
  incl issues issues' -> written_for issues r -> written_for issues' r.
Proof.
  intros Hincl (H1 & H2 & issue & Hin & H3). repeat split; try assumption.
  exists issue. split; [now apply Hincl | assumption].
Qed.

Lemma only_appends_refl (issues : list string) (w : World) : only_appends issues w w.
Proof. unfold only_appends. destruct (db w); [apply store_grows_refl | trivial]. Qed.

Lemma only_appends_trans (issues : list string) (a b c : World) :
  only_appends issues a b -> only_appends issues b c -> only_appends issues a c.
Proof.
  unfold only_appends.
  destruct (db a), (db b), (db c); try contradiction; trivial.
  apply store_grows_trans.
Qed.

Lemma only_appends_weaken (issues issues' : list string) (a b : World) :
  incl issues issues' -> only_appends issues a b -> only_appends issues' a b.
Proof.
  unfold only_appends, store_grows. intros Hincl.
  destruct (db a) as [da|], (db b) as [d'|]; try contradiction; trivial.
  intros (H1 & H2 & H3 & H4 & H5). repeat split; try assumption.
  destruct (review_queue da), (review_queue d'); try contradiction; trivial.
  destruct H5 as (added & -> & Hadded). exists added. split; [reflexivity|].
  eapply Forall_impl; [|exact Hadded]. intros r. now apply written_for_weaken.
Qed.

Lemma same_store_only_appends (issues : list string) (w w' : World) :
  same_store w w' -> only_appends issues w w'.
Proof.
  unfold same_store, only_appends. intros ->.
  destruct (db w); [apply store_grows_refl | trivial].
Qed.

Lemma respects_same_store_only_appends {A} (issues : list string) (m : M A) :
  respects same_store m -> respects (only_appends issues) m.
Proof. intros H w. apply same_store_only_appends, H. Qed.

(** What a call of the writer leaves in the local store, in any mode. *)
Lemma flag_session_for_review_store
    (sid : pyval) (issue desc : string) (dry_run use_remote : bool) (w : World) :
  db (snd (flag_session_for_review sid issue desc dry_run use_remote w)) = db w
  \/ exists d rq item,
       dry_run = false /\ use_remote = false
       /\ db w = Some d /\ review_queue d = Some rq
       /\ bind_param sid = Ok item
       /\ (review_unique d = true -> entries_for item issue rq = 0)
       /\ db (snd (flag_session_for_review sid issue desc dry_run use_remote w))
          = Some (set_review_queue
                    (rq ++ [review_row (review_id_of (draws w)) item issue desc
                                       (utcnow_isoformat (draws w))]) d).
Proof.
  destruct dry_run.
  - left. now rewrite flag_session_for_review_dry_run.
  - destruct use_remote.
    + left. destruct (flag_session_for_review_remote_run sid issue desc w) as (t & E & _).
      cbv zeta in E. now rewrite E.
    + destruct (db w) as [d|] eqn:Hdb.
      * destruct (bind_param sid) as [item|e] eqn:Hbind.
        -- rewrite (flag_session_for_review_local sid item issue desc w d Hdb Hbind).
           cbv zeta. unfold insert_review_queue.
           destruct (review_queue d) as [rq|] eqn:Hrq; [|left; reflexivity].
           destruct (pk_taken _ rq || _) eqn:Etaken; [left; reflexivity|].
           right. exists d, rq, item.
           do 5 (split; [first [reflexivity | assumption]|]). split; [|reflexivity].
           intros Hu. rewrite Hu, unique_taken_entries in Etaken.
           apply orb_false_elim in Etaken. destruct Etaken as [_ Et].
           cbn [andb] in Et. apply Nat.ltb_ge in Et. lia.
        -- left. rewrite (flag_session_for_review_unbound sid e issue desc w d Hdb Hbind).
           reflexivity.
      * left. unfold flag_session_for_review, bind, log, draw, get_db_connection. cbn.
        now rewrite Hdb.
Qed.

Lemma flag_session_for_review_only_appends
    (sid : pyval) (issue desc : string) (dry_run use_remote : bool) :
  respects (only_appends [issue])
           (flag_session_for_review sid issue desc dry_run use_remote).
Proof.
  intros w.
  destruct (flag_session_for_review_store sid issue desc dry_run use_remote w)
    as [E | (d & rq & item & _ & _ & Hdb & Hrq & _ & _ & E)].
  - now apply same_store_only_appends.
  - unfold only_appends. rewrite Hdb, E. unfold store_grows. cbn. rewrite Hrq.
    repeat split. eexists. split; [reflexivity|].
    constructor; [|constructor]. repeat split. exists issue. split; [now left | reflexivity].
Qed.

Lemma flag_sessions_only_appends
    (criterion : string) (dry_run use_remote : bool) (sessions : list pyval) :
  forall n, respects (only_appends [criterion])
                     (flag_sessions criterion sessions dry_run use_remote n).
Proof.
  induction sessions as [|s rest IH]; intros n w.
  - apply only_appends_refl.
  - rewrite flag_sessions_cons.
    destruct (as_dict s) as [d|e]; [|apply only_appends_refl].
    destruct (truthy _); [|apply IH].
    pose proof (flag_session_for_review_only_appends (py_get "id" PNone d) criterion
                  (description_for criterion d) dry_run use_remote w) as H1.
    destruct (flag_session_for_review _ _ _ _ _ w) as [[ok|e] w1]; [|exact H1].
    eapply only_appends_trans; [exact H1 | apply IH].
Qed.

Lemma run_check_only_appends
    (criterion : string) (check : bool -> M pyval) (dry_run use_remote : bool) :
  check_functions criterion = Some check ->
  respects (only_appends [criterion]) (run_check criterion check dry_run use_remote).
Proof.
  intros Hc. unfold run_check, print.
  apply (respects_bind _ (only_appends_trans [criterion]));
    [apply respects_same_store_only_appends, log_same_store | intros _].
  apply (respects_bind _ (only_appends_trans [criterion]));
    [apply respects_same_store_only_appends, (check_same_store criterion check _ Hc)
    | intros sessions].
  apply (respects_bind _ (only_appends_trans [criterion]));
    [apply (respects_lift _ (only_appends_refl [criterion])) | intros items].
  apply (respects_bind _ (only_appends_trans [criterion]));
    [apply flag_sessions_only_appends | intros k].
  apply (respects_bind _ (only_appends_trans [criterion]));
    [apply (respects_lift _ (only_appends_refl [criterion])) | intros m].
  apply (respects_ret _ (only_appends_refl [criterion])).
Qed.

Lemma run_checks_from_only_appends (dry_run use_remote : bool) (criteria : list string) :
  forall results,
    respects (only_appends (filter known criteria))
             (run_checks_from criteria dry_run use_remote results).
Proof.
  induction criteria as [|c rest IH]; intros results w.
  - apply only_appends_refl.
  - cbn [filter]. destruct (check_functions c) as [check|] eqn:Hc.
    + assert (Hk : known c = true) by (apply known_check; eauto). rewrite Hk.
      rewrite (run_checks_from_cons c rest check) by assumption.
      pose proof (run_check_only_appends c check dry_run use_remote Hc w) as H1.
      apply (only_appends_weaken [c] (c :: filter known rest)) in H1;
        [|intros x [<- | []]; now left].
      destruct (run_check c check dry_run use_remote w) as [[stats|e] w1]; [|exact H1].
      eapply only_appends_trans; [exact H1|].
      eapply only_appends_trans;
        [|apply (only_appends_weaken (filter known rest)); [|apply IH];
          intros x Hx; now right].
      apply same_store_only_appends. reflexivity.
    + assert (Hk : known c = false) by now apply unknown_check. rewrite Hk.
      rewrite run_checks_from_skip by assumption.
      eapply only_appends_trans; [|apply IH].
      apply same_store_only_appends. reflexivity.
Qed.

(** X8.  Whatever the criteria, the mode and the outcome, run_checks only
    ever appends to review_queue: the sessions, memberships and absences
    and the schema are as before, no row of the queue is changed or
    removed, and every row added has item type 'session', status 'pending'
    and one of the recognised criteria requested as its issue kind.  A
    missing database file or table stays missing. *)
Theorem run_checks_only_appends
    (criteria : list string) (dry_run use_remote : bool) (w : World) :
  match db w, db (snd (run_checks criteria dry_run use_remote w)) with
  | Some d, Some d' =>
      sessions d' = sessions d
      /\ memberships d' = memberships d
      /\ session_absences d' = session_absences d
      /\ review_unique d' = review_unique d
      /\ match review_queue d, review_queue d' with
         | Some rq, Some rq' =>
             exists added,
               rq' = rq ++ added
               /\ Forall (written_for (filter known criteria)) added
         | None, None => True
         | _, _ => False
         end
  | None, None => True
  | _, _ => False
  end.
Proof.
  exact (run_checks_from_only_appends dry_run use_remote criteria
           {| total_flagged := 0; by_criteria := [] |} w).
Qed.

(** A relation between worlds that holds across every step that leaves the
    local store alone and across every call of the writer holds across a
    whole run. *)
Section RunInvariant.
Variable R : World -> World -> Prop.
Hypothesis R_refl : forall w, R w w.
Hypothesis R_trans : forall a b c, R a b -> R b c -> R a c.
Hypothesis R_same : forall w w', same_store w w' -> R w w'.
Hypothesis R_flag :
  forall sid issue desc dry_run use_remote,
    respects R (flag_session_for_review sid issue desc dry_run use_remote).

Lemma flag_sessions_respects
    (criterion : string) (dry_run use_remote : bool) (sessions : list pyval) :
  forall n, respects R (flag_sessions criterion sessions dry_run use_remote n).
Proof.
  induction sessions as [|s rest IH]; intros n w; [apply R_refl|].
  rewrite flag_sessions_cons.
  destruct (as_dict s) as [d|e]; [|apply R_refl].
  destruct (truthy _); [|apply IH].
  pose proof (R_flag (py_get "id" PNone d) criterion (description_for criterion d)
                dry_run use_remote w) as H1.
  destruct (flag_session_for_review _ _ _ _ _ w) as [[ok|e] w1]; [|exact H1].
  eapply R_trans; [exact H1 | apply IH].
Qed.

Lemma run_check_respects
    (criterion : string) (check : bool -> M pyval) (dry_run use_remote : bool) :
  check_functions criterion = Some check ->
  respects R (run_check criterion check dry_run use_remote).
Proof.
  intros Hc. unfold run_check, print.
  apply (respects_bind _ R_trans);
    [intros w; apply R_same, log_same_store | intros _].
  apply (respects_bind _ R_trans);
    [intros w; apply R_same, (check_same_store criterion check _ Hc) | intros sessions].
  apply (respects_bind _ R_trans); [apply (respects_lift _ R_refl) | intros items].
  apply (respects_bind _ R_trans); [apply flag_sessions_respects | intros k].
  apply (respects_bind _ R_trans); [apply (respects_lift _ R_refl) | intros m].
  apply (respects_ret _ R_refl).
Qed.

Lemma run_checks_from_respects (dry_run use_remote : bool) (criteria : list string) :
  forall results, respects R (run_checks_from criteria dry_run use_remote results).
Proof.
  induction criteria as [|c rest IH]; intros results w; [apply R_refl|].
  destruct (check_functions c) as [check|] eqn:Hc.
  - rewrite (run_checks_from_cons c rest check) by assumption.
    pose proof (run_check_respects c check dry_run use_remote Hc w) as H1.
    destruct (run_check c check dry_run use_remote w) as [[stats|e] w1]; [|exact H1].
    eapply R_trans; [exact H1|]. eapply R_trans; [|apply IH].
    apply R_same. reflexivity.
  - rewrite run_checks_from_skip by assumption.
    eapply R_trans; [|apply IH]. apply R_same. reflexivity.
Qed.
End RunInvariant.

Lemma entries_for_append
    (item' : sqlval) (issue' : string) (rq : list ReviewEntry)
    (rid : string) (item : sqlval) (issue desc now : string) :
  entries_for item' issue' (rq ++ [review_row rid item issue desc now])
  <= Nat.max (entries_for item' issue' rq) (entries_for item issue rq + 1).
Proof.
  unfold entries_for at 1. rewrite count_app. fold (entries_for item' issue' rq).
  unfold count. cbn [filter review_row r_item_type r_item_id r_issue_type].
  destruct (holds (sql_eq (SText "session") (SText "session"))
            && holds (sql_eq item item') && holds (sql_eq (SText issue) (SText issue')))
    eqn:E; cbn [List.length]; [|lia].
  apply andb_prop in E. destruct E as [E Hissue].
  apply andb_prop in E. destruct E as [_ Hitem].
  apply holds_sql_eq in Hitem, Hissue. destruct Hitem as [-> _].
  destruct Hissue as [Hissue _]. injection Hissue as ->. lia.
Qed.

Lemma flag_session_for_review_keeps_constraint
    (sid : pyval) (issue desc : string) (dry_run use_remote : bool) :
  respects keeps_constraint (flag_session_for_review sid issue desc dry_run use_remote).
Proof.
  intros w Hbefore.
  destruct (flag_session_for_review_store sid issue desc dry_run use_remote w)
    as [E | (d & rq & item & _ & _ & Hdb & Hrq & _ & Hfree & E)].
  - rewrite E. exact Hbefore.
  - rewrite E. intros d' Hd'. injection Hd' as <-.
    destruct (Hbefore d Hdb) as [Hu Hkeys]. rewrite Hrq in Hkeys.
    split; [exact Hu|]. cbn [review_queue set_review_queue].
    intros item' issue'.
    pose proof (entries_for_append item' issue' rq (review_id_of (draws w)) item issue desc
                  (utcnow_isoformat (draws w))) as Hle.
    rewrite (Hfree Hu) in Hle. specialize (Hkeys item' issue'). lia.
Qed.

(** X9.  When the store enforces the uniqueness constraint and satisfies
    it (at most one row per session and issue kind), it still does after
    a run of run_checks, whatever the criteria, the mode and the outcome. *)
Theorem run_checks_keeps_keys_unique
    (criteria : list string) (dry_run use_remote : bool) (w : World) (d : Database) :
  db w = Some d ->
  constraint_holds d ->
  exists d',
    db (snd (run_checks criteria dry_run use_remote w)) = Some d'
    /\ constraint_holds d'.
Proof.
  intros Hdb Hc.
  pose proof (run_checks_from_only_appends dry_run use_remote criteria
                {| total_flagged := 0; by_criteria := [] |} w) as Hgrow.
  pose proof (run_checks_from_respects keeps_constraint
                ltac:(intros ? H; exact H)
                ltac:(intros a b c H1 H2 H; exact (H2 (H1 H)))
                ltac:(intros a b E H; unfold same_store in E; rewrite E; exact H)
                flag_session_for_review_keeps_constraint
                dry_run use_remote criteria
                {| total_flagged := 0; by_criteria := [] |} w) as Hkeep.
  unfold run_checks. unfold only_appends in Hgrow. rewrite Hdb in Hgrow.
  destruct (db (snd (run_checks_from criteria dry_run use_remote _ w))) as [d'|] eqn:E;
    [|contradiction].
  exists d'. split; [reflexivity|].
  apply Hkeep; [|exact E]. intros d0 Hd0. rewrite Hdb in Hd0. now injection Hd0 as <-.
Qed.

(* ===================================================================== *)
(** * Further properties: the counts *)
(* ===================================================================== *)

Lemma run_check_counts
    (criterion : string) (check : bool -> M pyval) (dry_run use_remote : bool)
    (w w' : World) (stats : CriterionStats) :
  run_check criterion check dry_run use_remote w = (Ok stats, w') ->
  flagged stats <= found stats.
Proof.
  unfold run_check, print, bind, log, lift. cbn [fst snd].
  destruct (check use_remote _) as [[sessions|e] w1]; [|discriminate].
  destruct (py_iter sessions) as [items|e] eqn:Eiter; [|discriminate].
  rewrite (py_iter_len sessions items Eiter).
  destruct (flag_sessions_calls criterion dry_run use_remote items 0 w1)
    as (during & pending & _ & _ & _ & Hk).
  destruct (flag_sessions criterion items dry_run use_remote 0 w1) as [[k|e] w2];
    [|discriminate].
  unfold ret. intros H. injection H as <- _. cbn [found flagged].
  destruct (Hk k eq_refl) as [_ Hb].
  pose proof (count_le_length has_id items). lia.
Qed.

Lemma flagged_sum_dict_set (c : string) (stats : CriterionStats)
    (d : list (string * CriterionStats)) :
  flagged_sum (dict_set c stats d) <= flagged_sum d + flagged stats.
Proof.
  assert (Hcons : forall a l, list_sum (a :: l) = a + list_sum l) by reflexivity.
  unfold flagged_sum. induction d as [|[k v] d IH]; cbn [dict_set].
  - cbn. lia.
  - destruct (k =? c)%string; cbn [map snd]; rewrite !Hcons; lia.
Qed.

Lemma run_checks_from_counts (dry_run use_remote : bool) (criteria : list string) :
  forall results w res w',
    run_checks_from criteria dry_run use_remote results w = (Ok res, w') ->
    (forall c stats, dict_get c (by_criteria results) = Some stats ->
                     flagged stats <= found stats) ->
    flagged_sum (by_criteria results) <= total_flagged results ->
    (forall c stats, dict_get c (by_criteria res) = Some stats ->
                     flagged stats <= found stats)
    /\ flagged_sum (by_criteria res) <= total_flagged res.
Proof.
  induction criteria as [|c rest IH]; intros results w res w' Hrun Hle Hsum.
  - cbn in Hrun. injection Hrun as <- _. auto.
  - destruct (check_functions c) as [check|] eqn:Hc.
    + rewrite (run_checks_from_cons c rest check) in Hrun by assumption.
      destruct (run_check c check dry_run use_remote w) as [[stats|e] w1] eqn:Erun;
        [|discriminate].
      apply (IH _ _ _ _ Hrun); cbn [by_criteria total_flagged record_check].
      * intros c' stats'. destruct (String.eqb_spec c' c) as [->|N].
        -- rewrite dict_get_set_same. intros H. injection H as <-.
           exact (run_check_counts c check dry_run use_remote w w1 stats Erun).
        -- rewrite dict_get_set_other by assumption. apply Hle.
      * pose proof (flagged_sum_dict_set c stats (by_criteria results)). lia.
    + rewrite run_checks_from_skip in Hrun by assumption.
      exact (IH _ _ _ _ Hrun Hle Hsum).
Qed.

(** X10.  In the summary of a completed run, in either mode, no criterion
    has more sessions flagged than found, and the flagged counts of the
    criteria add up to at most total_flagged (they add up to less when a
    criterion was requested more than once: its entry is overwritten, the
    total keeps both runs). *)
Theorem run_checks_counts_are_consistent
    (criteria : list string) (dry_run use_remote : bool) (w w' : World) (res : Results) :
  run_checks criteria dry_run use_remote w = (Ok res, w') ->
  (forall c stats, dict_get c (by_criteria res) = Some stats ->
                   flagged stats <= found stats)
  /\ flagged_sum (by_criteria res) <= total_flagged res.
Proof.
  intros Hrun. unfold run_checks in Hrun.
  apply (run_checks_from_counts _ _ _ _ _ _ _ Hrun).
  - intros c stats H. discriminate H.
  - cbn. lia.
Qed.

(** In preview mode a loop that completes has counted every candidate that
    carries an identifier. *)
Lemma flag_sessions_dry_run_count
    (criterion : string) (use_remote : bool) (sessions : list pyval) :
  forall n w k,
    fst (flag_sessions criterion sessions true use_remote n w) = Ok k ->
    k = n + count has_id sessions.
Proof.
  induction sessions as [|s rest IH]; intros n w k.
  - cbn. intros H. injection H as <-. unfold count. cbn. lia.
  - rewrite flag_sessions_cons. unfold count. cbn [filter].
    destruct s as [| | | | |d]; cbn [as_dict fst]; try discriminate.
    rewrite has_id_dict.
    destruct (truthy (py_get "id" PNone d)).
    + rewrite flag_session_for_review_dry_run. intros H. apply IH in H.
      unfold count in H. cbn [List.length]. lia.
    + apply IH.
Qed.

(** X11.  In preview mode every candidate that carries an identifier
    counts as flagged: when the rule has returned a list and the check
    completes, flagged is the number of candidates whose "id" is present
    and truthy, found the number of all candidates. *)
Theorem preview_counts_every_identified_candidate
    (criterion : string) (check : bool -> M pyval) (use_remote : bool)
    (w w1 w' : World) (sessions : list pyval) (stats : CriterionStats) :
  check use_remote (with_trace (trace w ++ [Stdout (announcement criterion)]) w)
  = (Ok (PList sessions), w1) ->
  run_check criterion check true use_remote w = (Ok stats, w') ->
  flagged stats = count has_id sessions /\ found stats = List.length sessions.
Proof.
  intros Hcheck Hrun. unfold run_check, print, bind, log in Hrun.
  cbn [fst snd] in Hrun. rewrite Hcheck in Hrun. cbn [lift py_iter py_len] in Hrun.
  pose proof (flag_sessions_dry_run_count criterion use_remote sessions 0 w1) as Hk.
  destruct (flag_sessions criterion sessions true use_remote 0 w1) as [[k|e] w2];
    [|discriminate].
  unfold ret in Hrun. injection Hrun as <- _. cbn [found flagged].
  split; [exact (Hk k eq_refl) | reflexivity].
Qed.

(* ===================================================================== *)
(** * Further properties: runs that write nothing *)
(* ===================================================================== *)

(** X12.  Flagging again what is already flagged: against a local store
    that enforces the uniqueness constraint, when every candidate that
    carries an identifier already has a review_queue row under the
    criterion, the loop reports each of them as flagged and leaves the
    store exactly as it was. *)
Theorem flag_sessions_already_flagged
    (criterion : string) (d : Database) (rq : list ReviewEntry) (rows : list pydict) :
  review_queue d = Some rq ->
  review_unique d = true ->
  (forall row, In row rows -> has_id (PDict row) = true ->
               already_flagged criterion rq row) ->
  forall n w,
    db w = Some d ->
    exists w',
      flag_sessions criterion (map PDict rows) false false n w
      = (Ok (n + count has_id (map PDict rows)), w')
      /\ db w' = Some d.
Proof.
  intros Hrq Hu. induction rows as [|row rows IH]; intros Hall n w Hdb.
  - exists w. cbn. unfold count. cbn. now rewrite Nat.add_0_r.
  - cbn [map]. rewrite flag_sessions_cons. cbn [as_dict].
    unfold count. cbn [filter]. rewrite has_id_dict.
    destruct (truthy (py_get "id" PNone row)) eqn:Hid.
    + destruct (Hall row (or_introl eq_refl) Hid) as (item & Hbind & Hentries).
      rewrite (flag_session_for_review_local _ item criterion _ w d Hdb Hbind).
      cbv zeta. unfold insert_review_queue. rewrite Hrq, Hu, unique_taken_entries.
      replace (0 <? entries_for item criterion rq) with true
        by (symmetry; apply Nat.ltb_lt; lia).
      rewrite orb_true_r.
      match goal with
      | |- context [flag_sessions _ _ _ _ _ ?w1] =>
          destruct (IH (fun r Hr => Hall r (or_intror Hr)) (n + 1) w1 eq_refl) as (w' & E & Hdb')
      end.
      exists w'. rewrite E. split; [|exact Hdb'].
      unfold count. cbn [List.length]. f_equal. f_equal. lia.
    + destruct (IH (fun r Hr => Hall r (or_intror Hr)) n w Hdb) as (w' & E & Hdb').
      exists w'. split; assumption.
Qed.

(** X13.  A write that fails does not stop the loop: against a local
    database without a review_queue table every call of the writer
    returns False, so that the loop over the candidates completes with
    nothing flagged, one error line per candidate that carries an
    identifier, and the store as it was. *)
Theorem flag_sessions_without_queue_table
    (criterion : string) (d : Database) (rows : list pydict) :
  review_queue d = None ->
  forall n w,
    db w = Some d ->
    exists w' during,
      flag_sessions criterion (map PDict rows) false false n w = (Ok n, w')
      /\ db w' = Some d
      /\ trace w' = trace w ++ during
      /\ count (fun e => match e with Stderr _ => true | _ => false end) during
         = count has_id (map PDict rows).
Proof.
  intros Hrq. induction rows as [|row rows IH]; intros n w Hdb.
  - exists w, []. cbn. now rewrite app_nil_r.
  - cbn [map]. rewrite flag_sessions_cons. cbn [as_dict].
    unfold count at 2. cbn [filter]. rewrite has_id_dict.
    destruct (truthy (py_get "id" PNone row)) eqn:Hid.
    + assert (Hflag : exists line,
                 flag_session_for_review (py_get "id" PNone row) criterion
                   (description_for criterion row) false false w
                 = (Ok false,
                    {| db := Some d; remote := remote w; files := files w;
                       trace := trace w ++ [FlagCall (py_get "id" PNone row) criterion
                                              (description_for criterion row);
                                            Connect; Close; Stderr line];
                       draws := S (draws w) |})).
      { destruct (bind_param (py_get "id" PNone row)) as [item|e] eqn:Hbind.
        - rewrite (flag_session_for_review_local _ item criterion _ w d Hdb Hbind).
          cbv zeta. unfold insert_review_queue. rewrite Hrq. eauto.
        - rewrite (flag_session_for_review_unbound _ e criterion _ w d Hdb Hbind). eauto. }
      destruct Hflag as (line & ->).
      match goal with
      | |- context [flag_sessions _ _ _ _ _ ?w1] =>
          destruct (IH n w1 eq_refl) as (w' & during & E & Hdb' & Et & Hc)
      end.
      exists w'. eexists. split; [exact E|]. split; [exact Hdb'|].
      split; [rewrite Et; cbn [trace]; rewrite <- app_assoc; reflexivity|].
      rewrite count_app. unfold count at 1. cbn [filter List.length].
      rewrite Hc. unfold count. cbn [List.length]. lia.
    + destruct (IH n w Hdb) as (w' & during & E & Hdb' & Et & Hc).
      exists w', during. repeat split; assumption.
Qed.

(** X14.  A run in which no requested criterion is recognised needs no
    database at all: it returns an empty summary, prints one warning per
    criterion, in order, and does nothing else. *)
Theorem run_checks_with_unknown_criteria_only
    (criteria : list string) (dry_run use_remote : bool) (w : World) :
  (forall c, In c criteria -> known c = false) ->
  run_checks criteria dry_run use_remote w
  = (Ok {| total_flagged := 0; by_criteria := [] |},
     with_trace (trace w ++ map warning criteria) w).
Proof.
  unfold run_checks. generalize {| total_flagged := 0; by_criteria := [] |} as results.
  revert w. induction criteria as [|c rest IH]; intros w results Hall.
  - cbn. unfold ret, with_trace. rewrite app_nil_r. now destruct w.
  - rewrite run_checks_from_skip
      by (apply unknown_check, Hall; now left).
    rewrite IH by (intros; apply Hall; now right).
    unfold with_trace, warning. cbn. now rewrite <- app_assoc.
Qed.

Lemma check_without_store (criterion : string) (check : bool -> M pyval) (w : World) :
  check_functions criterion = Some check ->
  db w = None ->
  exists msg, check false w = (Raise (FileNotFoundError msg), w).
Proof.
  unfold check_functions. intros Hc Hdb.
  repeat match type of Hc with
         | (if ?c then _ else _) = _ => destruct c
         end; try discriminate; injection Hc as <-;
    unfold detect_missing_data_sessions, detect_duplicate_dates,
      detect_incomplete_attendance, detect_auto_imported_unreviewed, bind.
  - apply execute_query_no_store, Hdb.
  - apply execute_query_no_store, Hdb.
  - destruct (execute_query_no_store IncompleteAttendance w Hdb) as (msg & ->). eauto.
  - apply execute_query_no_store, Hdb.
Qed.

(** X15.  In local mode, without a database file, a run stops at the first
    recognised criterion: run_checks raises FileNotFoundError right after
    announcing that check, having warned about the unrecognised criteria
    before it; no connection is opened and the writer is never entered. *)
Theorem run_checks_without_store
    (skipped : list string) (c : string) (rest : list string)
    (dry_run : bool) (w : World) :
  db w = None ->
  (forall x, In x skipped -> known x = false) ->
  known c = true ->
  exists msg,
    run_checks (skipped ++ c :: rest) dry_run false w
    = (Raise (FileNotFoundError msg),
       with_trace (trace w ++ map warning skipped ++ [Stdout (announcement c)]) w).
Proof.
  intros Hdb Hskipped Hc. unfold run_checks.
  generalize {| total_flagged := 0; by_criteria := [] |} as results.
  revert w Hdb. induction skipped as [|x skipped IH]; intros w Hdb results.
  - apply known_check in Hc. destruct Hc as (check & Hc).
    cbn [app map]. rewrite (run_checks_from_cons c rest check) by assumption.
    unfold run_check, print, bind, log. cbn [fst snd].
    destruct (check_without_store c check
                (with_trace (trace w ++ [Stdout (announcement c)]) w) Hc Hdb)
      as (msg & ->).
    exists msg. reflexivity.
  - cbn [app map]. rewrite run_checks_from_skip
      by (apply unknown_check, Hskipped; now left).
    destruct (IH (fun y Hy => Hskipped y (or_intror Hy))
                (with_trace (trace w ++ [Stderr ("Warning: Unknown criterion '" +++ x
                                                 +++ "', skipping.")]) w) Hdb results)
      as (msg & ->).
    exists msg. unfold with_trace, warning. cbn. now rewrite <- app_assoc.
Qed.

(* ===================================================================== *)
(** * Further properties: the loop of detect_incomplete_attendance *)
(* ===================================================================== *)

Lemma keep_with_members_dicts (rows : list pydict) :
  keep_with_members (map PDict rows) = Ok (map PDict (filter has_members rows)).
Proof.
  induction rows as [|d rows IH]; [reflexivity|].
  cbn [map keep_with_members as_dict rbind filter]. rewrite IH. unfold has_members.
  now destruct (py_eq_zero _).
Qed.

(** X16.  The loop of detect_incomplete_attendance keeps, in order, the
    records whose term_member_count is not 0: a record whose count is 0
    or False, or that has no such key, is dropped; and a record that is
    not a dict makes the loop raise AttributeError. *)
Theorem keep_with_members_filters (sessions : list pyval) :
  (forall rows, sessions = map PDict rows ->
                keep_with_members sessions = Ok (map PDict (filter has_members rows)))
  /\ (forall d, dict_get "term_member_count" d = None -> has_members d = false)
  /\ ((exists s, In s sessions /\ forall d, s <> PDict d) ->
      exists msg, keep_with_members sessions = Raise (AttributeError msg)).
Proof.
  split; [|split].
  - intros rows ->. apply keep_with_members_dicts.
  - intros d H. unfold has_members, py_get. now rewrite H.
  - induction sessions as [|s rest IH]; intros (x & Hin & Hx); [destruct Hin|].
    cbn [keep_with_members].
    destruct s as [| | | | |d]; cbn [as_dict rbind]; eauto.
    assert (Hrest : exists s, In s rest /\ forall d, s <> PDict d).
    { destruct Hin as [<- | Hin]; [now destruct (Hx d) | eauto]. }
    destruct (IH Hrest) as (msg & ->).
    destruct (py_eq_zero _); cbn [rbind]; eauto.
Qed.

(* ===================================================================== *)
(** * Further properties: main *)
(* ===================================================================== *)

Lemma print_run (line : string) (w : World) :
  print line w = (Ok tt, with_trace (trace w ++ [Stdout line]) w).
Proof. reflexivity. Qed.

Lemma only_prints_print (line : string) : only_prints (print line).
Proof. intros w. now exists [Stdout line]. Qed.

Lemma only_prints_ret : only_prints (ret tt).
Proof. intros w. exists []. unfold ret, with_trace. rewrite app_nil_r. now destruct w. Qed.

Lemma only_prints_bind (m k : M unit) :
  only_prints m -> only_prints k -> only_prints (bind m (fun _ => k)).
Proof.
  intros Hm Hk w. unfold bind. destruct (Hm w) as (t1 & ->).
  destruct (Hk (with_trace (trace w ++ t1) w)) as (t2 & ->).
  exists (t1 ++ t2). unfold with_trace. cbn. now rewrite app_assoc.
Qed.

Lemma only_prints_banner (args : Args) (criteria : list string) :
  only_prints (print_banner args criteria).
Proof.
  unfold print_banner.
  repeat first [ apply only_prints_bind | apply only_prints_print | apply only_prints_ret
               | match goal with |- only_prints (if ?b then _ else _) => destruct b end ].
Qed.

Lemma only_prints_stats (by_criteria : list (string * CriterionStats)) :
  only_prints (print_stats by_criteria).
Proof.
  induction by_criteria as [|[c stats] rest IH]; cbn [print_stats].
  - apply only_prints_ret.
  - apply only_prints_bind; [apply only_prints_print | exact IH].
Qed.

Lemma only_prints_summary (args : Args) (results : Results) :
  only_prints (print_summary args results).
Proof.
  unfold print_summary.
  repeat first [ apply only_prints_bind | apply only_prints_print | apply only_prints_ret
               | apply only_prints_stats
               | match goal with |- only_prints (if ?b then _ else _) => destruct b end ].
Qed.

(** main, step by step. *)
Lemma main_run (args : Args) (w : World) :
  let criteria := parse_criteria (arg_criteria args) in
  exists banner,
    match run_checks criteria (arg_dry_run args) (arg_remote args)
            (with_trace (trace w ++ banner) w) with
    | (Ok results, w1) =>
        exists summary,
          main args w = (Ok Returned, with_trace (trace w1 ++ summary) w1)
    | (Raise e, w1) =>
        main args w
        = (Ok (SystemExit 1),
           with_trace (trace w1 ++ [Stderr (nl +++ "Error: " +++ exn_str e)]) w1)
    end.
Proof.
  cbv zeta. unfold main.
  destruct (only_prints_banner args (parse_criteria (arg_criteria args)) w) as (banner & Eb).
  exists banner. unfold bind, try_except. rewrite Eb.
  destruct (run_checks _ _ _ _) as [[results|e] w1].
  - destruct (only_prints_summary args results w1) as (summary & ->).
    exists summary. reflexivity.
  - reflexivity.
Qed.

(** X17.  main lets no exception of a run escape: it ends either by
    returning or by exit status 1, and by exit status 1 exactly when
    run_checks raised, in which case the last thing it wrote is the line
    "Error: ..." with the text of the exception, on stderr. *)
Theorem main_exit_status (args : Args) (w : World) :
  exists status w' banner,
    main args w = (Ok status, w')
    /\ match fst (run_checks (parse_criteria (arg_criteria args))
                    (arg_dry_run args) (arg_remote args)
                    (with_trace (trace w ++ banner) w)) with
       | Ok _ => status = Returned
       | Raise e =>
           status = SystemExit 1
           /\ exists before,
                trace w' = before ++ [Stderr (nl +++ "Error: " +++ exn_str e)]
       end.
Proof.
  destruct (main_run args w) as (banner & H). cbv zeta in H.
  destruct (run_checks _ _ _ _) as [[results|e] w1] eqn:E.
  - destruct H as (summary & H). exists Returned. eexists. exists banner.
    split; [exact H|]. now rewrite E.
  - exists (SystemExit 1). eexists. exists banner. split; [exact H|].
    rewrite E. cbn [fst]. split; [reflexivity|]. cbn [trace with_trace]. eauto.
Qed.

(** X18.  With --dry-run, main leaves the local store as it found it,
    whatever the criteria, the backend and the way it ends. *)
Theorem main_dry_run_leaves_store (args : Args) (w : World) :
  arg_dry_run args = true ->
  db (snd (main args w)) = db w.
Proof.
  intros Hdry. destruct (main_run args w) as (banner & H). cbv zeta in H.
  rewrite Hdry in H.
  pose proof (run_checks_from_dry_run_same_store (arg_remote args)
                (parse_criteria (arg_criteria args))
                {| total_flagged := 0; by_criteria := [] |}
                (with_trace (trace w ++ banner) w)) as Hsame.
  unfold same_store in Hsame. fold (run_checks (parse_criteria (arg_criteria args)) true
                                      (arg_remote args)) in Hsame.
  destruct (run_checks _ _ _ _) as [[results|e] w1]; cbn [snd] in Hsame.
  - destruct H as (summary & ->). cbn. exact Hsame.
  - rewrite H. cbn. exact Hsame.
Qed.

End Further.

(* ===================================================================== *)
(** * Further properties: the criteria on the command line *)
(* ===================================================================== *)

Lemma split_on_length (sep : ascii) (s : string) :
  List.length (split_on sep s)
  = S (List.length (filter (Ascii.eqb sep) (list_ascii_of_string s))).
Proof.
  induction s as [|c t IH]; [reflexivity|].
  cbn [split_on list_ascii_of_string filter]. rewrite (Ascii.eqb_sym sep c).
  destruct (Ascii.eqb c sep); cbn [List.length]; [now rewrite IH|].
  destruct (split_on sep t); cbn [List.length] in *; [discriminate | exact IH].
Qed.

Lemma commas_count (s : string) :
  commas s = List.length (filter (Ascii.eqb ","%char) (list_ascii_of_string s)).
Proof.
  induction s as [|c t IH]; [reflexivity|].
  cbn [commas list_ascii_of_string filter]. rewrite (Ascii.eqb_sym ","%char c).
  destruct (Ascii.eqb c ","%char); cbn [List.length]; lia.
Qed.

Lemma split_on_no_comma (s piece : string) :
  In piece (split_on ","%char s) -> commas piece = 0.
Proof.
  revert piece. induction s as [|c t IH]; intros piece.
  - intros [<- | []]. reflexivity.
  - cbn [split_on]. destruct (Ascii.eqb c ","%char) eqn:E.
    + intros [<- | H]; [reflexivity | now apply IH].
    + destruct (split_on ","%char t) as [|p rest].
      * intros [<- | []]. cbn. now rewrite E.
      * intros [<- | H].
        -- cbn [commas]. rewrite E. cbn. apply IH. now left.
        -- apply IH. now right.
Qed.

Lemma commas_lstrip (s : string) : commas (lstrip s) <= commas s.
Proof.
  induction s as [|c t IH]; [reflexivity|].
  cbn [lstrip]. destruct (py_isspace c); [cbn [commas]; lia | lia].
Qed.

Lemma commas_rstrip (s : string) : commas (rstrip s) <= commas s.
Proof.
  induction s as [|c t IH]; [reflexivity|].
  cbn [rstrip]. destruct (rstrip t) as [|c' t'].
  - destruct (py_isspace c); cbn [commas] in *; lia.
  - cbn [commas] in *. lia.
Qed.

Lemma lstrip_first (s : string) : first_char_is_space (lstrip s) = false.
Proof.
  induction s as [|c t IH]; [reflexivity|].
  cbn [lstrip]. destruct (py_isspace c) eqn:E; [exact IH | cbn; exact E].
Qed.

Lemma rstrip_first (s : string) :
  first_char_is_space s = false -> first_char_is_space (rstrip s) = false.
Proof.
  destruct s as [|c t]; [reflexivity|]. cbn [first_char_is_space rstrip]. intros E.
  destruct (rstrip t); [rewrite E|]; cbn; exact E.
Qed.

Lemma rstrip_last (s : string) : last_char_is_space (rstrip s) = false.
Proof.
  induction s as [|c t IH]; [reflexivity|].
  cbn [rstrip]. destruct (rstrip t) as [|c' t'] eqn:E.
  - destruct (py_isspace c) eqn:Ec; [reflexivity | cbn; exact Ec].
  - exact IH.
Qed.

(** X19.  The criteria main hands to run_checks: "all", in any letter
    case, stands for the four rules, each recognised; any other text is
    cut at its commas into one criterion more than it has commas, and each
    criterion comes without a comma and without a space at either end. *)
Theorem parse_criteria_pieces (text : string) :
  (py_lower text = "all" ->
   parse_criteria text = all_criteria
   /\ forall c, In c (parse_criteria text) -> known c = true)
  /\ (py_lower text <> "all" ->
      List.length (parse_criteria text) = commas text + 1
      /\ forall c, In c (parse_criteria text) ->
                   commas c = 0
                   /\ first_char_is_space c = false
                   /\ last_char_is_space c = false).
Proof.
  unfold parse_criteria. split.
  - intros ->. cbn [String.eqb]. split; [reflexivity|].
    intros c Hc. cbn in Hc.
    repeat (destruct Hc as [<- | Hc]; [reflexivity|]). destruct Hc.
  - intros N. apply String.eqb_neq in N. rewrite N. split.
    + rewrite length_map, split_on_length, commas_count. lia.
    + intros c Hc. apply in_map_iff in Hc. destruct Hc as (piece & <- & Hpiece).
      apply split_on_no_comma in Hpiece. unfold py_strip.
      pose proof (commas_rstrip (lstrip piece)). pose proof (commas_lstrip piece).
      repeat split; [lia | apply rstrip_first, lstrip_first | apply rstrip_last].
Qed.

(* ===================================================================== *)
(** * Further properties: get_local_db_path *)
(* ===================================================================== *)

Lemma fs_find_app (p q : list string) (n : fsnode) :
  fs_find (p ++ q) n
  = match fs_find p n with
    | Some m => fs_find q m
    | None => None
    end.
Proof.
  revert n. induction p as [|name p IH]; intros n; [reflexivity|].
  cbn [app fs_find]. destruct n as [|es]; [reflexivity|].
  destruct (dict_get name es); [apply IH | reflexivity].
Qed.

Lemma dict_get_in {V} (k : string) (v : V) (d : list (string * V)) :
  dict_get k d = Some v -> In (k, v) d.
Proof.
  induction d as [|[k' v'] d IH]; cbn [dict_get]; [discriminate|].
  destruct (String.eqb_spec k' k) as [->|N].
  - intros H. injection H as ->. now left.
  - intros H. right. now apply IH.
Qed.

Lemma first_sqlite_some (names : list string) (file : string) :
  first_sqlite names = Some file ->
  In file names /\ ends_with ".sqlite" file = true.
Proof. apply find_some. Qed.

Lemma first_sqlite_finds (names : list string) (file : string) :
  In file names -> ends_with ".sqlite" file = true -> first_sqlite names <> None.
Proof.
  intros Hin He Hnone. unfold first_sqlite in Hnone.
  pose proof (find_none _ _ Hnone file Hin). congruence.
Qed.

Lemma try_path_some (cwd : fsnode) (p found : list string) :
  try_path cwd p = Some found ->
  (found = p /\ fs_find p cwd = Some RegularFile)
  \/ exists es file,
       fs_find p cwd = Some (Directory es)
       /\ first_sqlite (map fst es) = Some file
       /\ found = p ++ [file].
Proof.
  unfold try_path. destruct (fs_find p cwd) as [[|es]|]; try discriminate.
  - intros H. injection H as <-. now left.
  - destruct (first_sqlite (map fst es)) as [file|] eqn:E; [|discriminate].
    intros H. injection H as <-. right. now exists es, file.
Qed.

(** Induction on a directory tree. *)
Lemma fsnode_induction (P : fsnode -> Prop) :
  P RegularFile ->
  (forall es, (forall name child, In (name, child) es -> P child) -> P (Directory es)) ->
  forall n, P n.
Proof.
  intros Hfile Hdir. fix IH 1. intros [|es]; [exact Hfile|].
  apply Hdir. induction es as [|[name0 child0] es IHes]; intros name child Hin.
  - destruct Hin.
  - destruct Hin as [E | Hin].
    + injection E as _ <-. apply IH.
    + exact (IHes name child Hin).
Qed.

Lemma walk_roots (n : fsnode) :
  forall root step, In step (walk root n) -> exists q, fst (fst step) = root ++ q.
Proof.
  induction n as [|es IH] using fsnode_induction; intros root step; cbn [walk].
  - intros [].
  - intros [<- | Hin].
    + exists []. cbn. now rewrite app_nil_r.
    + apply in_flat_map in Hin. destruct Hin as ([name child] & He & Hstep).
      cbn [fst snd] in Hstep. destruct (IH name child He _ _ Hstep) as (q & ->).
      exists (name :: q). now rewrite <- app_assoc.
Qed.

Lemma walk_files (n : fsnode) :
  forall root step file,
    In step (walk root n) -> In file (snd step) ->
    exists q es, fst (fst step) = root ++ q /\ In (file, RegularFile) es.
Proof.
  induction n as [|es IH] using fsnode_induction; intros root step file; cbn [walk].
  - intros [].
  - intros [<- | Hin] Hfile.
    + exists [], es. cbn [fst snd] in *. rewrite app_nil_r. split; [reflexivity|].
      unfold filenames in Hfile. apply in_map_iff in Hfile.
      destruct Hfile as ([name child] & <- & Hf). apply filter_In in Hf.
      destruct Hf as [Hf Hreg]. cbn in Hreg. now destruct child.
    + apply in_flat_map in Hin. destruct Hin as ([name child] & He & Hstep).
      cbn [fst snd] in Hstep.
      destruct (IH name child He _ _ _ Hstep Hfile) as (q & es' & -> & Hes').
      exists (name :: q), es'. now rewrite <- app_assoc.
Qed.

Lemma first_in_walk_some (steps : list (list string * list string * list string))
    (found : list string) :
  first_in_walk steps = Some found ->
  exists step file,
    In step steps /\ In file (snd step)
    /\ ends_with ".sqlite" file = true /\ found = fst (fst step) ++ [file].
Proof.
  induction steps as [|[[root dirs] files] steps IH]; cbn [first_in_walk]; [discriminate|].
  destruct (first_sqlite files) as [file|] eqn:E.
  - intros H. injection H as <-. apply first_sqlite_some in E. destruct E as [Hin He].
    exists (root, dirs, files), file. cbn. auto.
  - intros H. destruct (IH H) as (step & file & Hin & Hf & He & ->).
    exists step, file. cbn [In]. auto.
Qed.

Lemma first_in_walk_app (a b : list (list string * list string * list string)) :
  first_in_walk (a ++ b)
  = match first_in_walk a with
    | Some found => Some found
    | None => first_in_walk b
    end.
Proof.
  induction a as [|[[root dirs] files] a IH]; [reflexivity|].
  cbn [app first_in_walk]. destruct (first_sqlite files); [reflexivity | exact IH].
Qed.

Lemma first_in_walk_flat_map {A}
    (g : A -> list (list string * list string * list string)) (l : list A) (x : A) :
  In x l -> first_in_walk (g x) <> None -> first_in_walk (flat_map g l) <> None.
Proof.
  induction l as [|a l IH]; [intros []|].
  cbn [flat_map]. rewrite first_in_walk_app. intros [-> | Hin] Hx.
  - destruct (first_in_walk (g x)); [discriminate | contradiction].
  - destruct (first_in_walk (g a)); [discriminate | now apply IH].
Qed.

(** The walk comes across every regular ".sqlite" file of the tree. *)
Lemma walk_finds (q : list string) :
  forall (n : fsnode) (root : list string) (file : string),
    fs_find (q ++ [file]) n = Some RegularFile ->
    ends_with ".sqlite" file = true ->
    first_in_walk (walk root n) <> None.
Proof.
  induction q as [|name q IH]; intros n root file Hfind He.
  - cbn [app fs_find] in Hfind. destruct n as [|es]; [discriminate|].
    destruct (dict_get file es) as [child|] eqn:Eget; [|discriminate].
    injection Hfind as ->. apply dict_get_in in Eget.
    cbn [walk first_in_walk].
    assert (Hin : In file (filenames es)).
    { unfold filenames. apply in_map_iff. exists (file, RegularFile).
      split; [reflexivity|]. apply filter_In. split; [assumption | reflexivity]. }
    pose proof (first_sqlite_finds _ _ Hin He) as Hsome.
    destruct (first_sqlite (filenames es)); [discriminate | contradiction].
  - cbn [app fs_find] in Hfind. destruct n as [|es]; [discriminate|].
    destruct (dict_get name es) as [child|] eqn:Eget; [|discriminate].
    apply dict_get_in in Eget. cbn [walk first_in_walk].
    destruct (first_sqlite (filenames es)); [discriminate|].
    apply (first_in_walk_flat_map _ es (name, child) Eget).
    cbn [fst snd]. exact (IH child (root ++ [name]) file Hfind He).
Qed.

Lemma last_snoc (p : list string) (x d : string) : last (p ++ [x]) d = x.
Proof. apply last_last. Qed.

(** X20.  Whatever get_local_db_path returns lies below the miniflare
    directory, and its name ends with ".sqlite" unless it is the
    miniflare path itself, found to be a regular file. *)
Theorem get_local_db_path_names_a_sqlite_entry (cwd : fsnode) (found : list string) :
  get_local_db_path cwd = Some found ->
  (exists below, found = wrangler_dir ++ below)
  /\ (ends_with ".sqlite" (last found EmptyString) = true
      \/ (found = wrangler_dir /\ fs_find wrangler_dir cwd = Some RegularFile)).
Proof.
  unfold get_local_db_path, possible_paths. cbn [first_path].
  destruct (try_path cwd hashed_file) as [r|] eqn:E1.
  { intros H. injection H as <-. apply try_path_some in E1.
    destruct E1 as [[-> _] | (es & file & _ & Hf & ->)].
    - split; [now eexists | left; reflexivity].
    - apply first_sqlite_some in Hf. destruct Hf as [_ He].
      split; [unfold hashed_file; rewrite <- app_assoc; now eexists|].
      left. now rewrite last_snoc. }
  destruct (try_path cwd wrangler_dir) as [r|] eqn:E2.
  { intros H. injection H as <-. apply try_path_some in E2.
    destruct E2 as [[-> Hreg] | (es & file & _ & Hf & ->)].
    - split; [exists []; now rewrite app_nil_r | right; auto].
    - apply first_sqlite_some in Hf. destruct Hf as [_ He].
      split; [now eexists | left; now rewrite last_snoc]. }
  destruct (fs_find wrangler_dir cwd) as [top|]; [|discriminate].
  intros H. apply first_in_walk_some in H.
  destruct H as (step & file & Hstep & _ & He & ->).
  destruct (walk_roots top _ _ Hstep) as (q & ->).
  split; [rewrite <- app_assoc; now eexists | left; now rewrite last_snoc].
Qed.

(** X21.  The order of the search: the database file of the known hash,
    when it is there, is the answer; failing that (no entry of that name),
    the first entry of the miniflare directory whose name ends with
    ".sqlite", in listing order, directory or not. *)
Theorem get_local_db_path_order (cwd : fsnode) :
  (fs_find hashed_file cwd = Some RegularFile ->
   get_local_db_path cwd = Some hashed_file)
  /\ (forall es file,
         fs_find hashed_file cwd = None ->
         fs_find wrangler_dir cwd = Some (Directory es) ->
         first_sqlite (map fst es) = Some file ->
         get_local_db_path cwd = Some (wrangler_dir ++ [file])).
Proof.
  unfold get_local_db_path, possible_paths. cbn [first_path]. unfold try_path. split.
  - intros ->. reflexivity.
  - intros es file -> -> ->. reflexivity.
Qed.

(** X22.  get_local_db_path finds a database whenever there is one: if a
    regular file whose name ends with ".sqlite" lies anywhere below the
    miniflare directory, the result is not None; and if the miniflare
    directory does not exist, the result is None. *)
Theorem get_local_db_path_finds_any_database (cwd : fsnode) :
  (forall below file,
      fs_find (wrangler_dir ++ below ++ [file]) cwd = Some RegularFile ->
      ends_with ".sqlite" file = true ->
      get_local_db_path cwd <> None)
  /\ (fs_find wrangler_dir cwd = None -> get_local_db_path cwd = None).
Proof.
  split.
  - intros below file Hfind He. rewrite fs_find_app in Hfind.
    unfold get_local_db_path.
    destruct (first_path cwd possible_paths); [discriminate|].
    destruct (fs_find wrangler_dir cwd) as [top|]; [|discriminate].
    exact (walk_finds below top wrangler_dir file Hfind He).
  - intros Hnone. unfold get_local_db_path, possible_paths. cbn [first_path].
    unfold try_path, hashed_file. now rewrite fs_find_app, Hnone.
Qed.

(* ===================================================================== *)
(** * Further properties: merge_services *)
(* ===================================================================== *)

From Stdlib Require Import Permutation.

Section MergeFacts.
Import Merge.
Context {T : Tools}.

(** ** The order of strings *)

Lemma ascii_compare_refl (a : ascii) : Ascii.compare a a = Eq.
Proof. unfold Ascii.compare. apply N.compare_refl. Qed.

Lemma ascii_compare_lt_trans (a b c : ascii) :
  Ascii.compare a b = Lt -> Ascii.compare b c = Lt -> Ascii.compare a c = Lt.
Proof. unfold Ascii.compare. rewrite !N.compare_lt_iff. lia. Qed.

Lemma string_compare_lt_trans (a : string) :
  forall b c, String.compare a b = Lt -> String.compare b c = Lt ->
              String.compare a c = Lt.
Proof.
  induction a as [|x a IH]; intros [|y b] [|z c]; cbn [String.compare];
    try discriminate; try reflexivity.
  destruct (Ascii.compare x y) eqn:Exy; try discriminate;
    destruct (Ascii.compare y z) eqn:Eyz; try discriminate.
  - apply Ascii.compare_eq_iff in Exy, Eyz. subst. rewrite ascii_compare_refl. apply IH.
  - apply Ascii.compare_eq_iff in Exy. subst. now rewrite Eyz.
  - apply Ascii.compare_eq_iff in Eyz. subst. now rewrite Exy.
  - now rewrite (ascii_compare_lt_trans _ _ _ Exy Eyz).
Qed.

Lemma ltb_lt (s t : string) : String.ltb s t = true <-> String.compare s t = Lt.
Proof. unfold String.ltb. destruct (String.compare s t); split; congruence. Qed.

Lemma ltb_asym (s t : string) : String.ltb s t = true -> String.ltb t s = false.
Proof.
  rewrite ltb_lt. intros H. unfold String.ltb.
  rewrite String.compare_antisym, H. reflexivity.
Qed.

Lemma ltb_irrefl (s : string) : String.ltb s s = false.
Proof.
  destruct (String.ltb s s) eqn:E; [|reflexivity].
  now rewrite (ltb_asym _ _ E) in E.
Qed.

Lemma not_ltb_trans (a b c : string) :
  String.ltb b a = false -> String.ltb c b = false -> String.ltb c a = false.
Proof.
  intros Hba Hcb. destruct (String.ltb c a) eqn:Hca; [|reflexivity].
  apply ltb_lt in Hca. unfold String.ltb in Hba, Hcb.
  destruct (String.compare b a) eqn:Eba; try discriminate.
  - apply String.compare_eq_iff in Eba. subst. now rewrite Hca in Hcb.
  - assert (Hab : String.compare a b = Lt)
      by (rewrite String.compare_antisym, Eba; reflexivity).
    now rewrite (string_compare_lt_trans _ _ _ Hca Hab) in Hcb.
Qed.

Lemma not_ltb_antisym (s t : string) :
  String.ltb t s = false -> String.ltb s t = false -> s = t.
Proof.
  intros H1 H2. unfold String.ltb in H1, H2.
  rewrite (String.compare_antisym s t) in H2.
  destruct (String.compare t s) eqn:E; cbn in H1, H2; try discriminate.
  symmetry. now apply String.compare_eq_iff.
Qed.

(** ** sorted *)

Lemma insert_name_perm (x : string) (l : list string) :
  Permutation (x :: l) (insert_name x l).
Proof.
  induction l as [|y l IH]; cbn [insert_name]; [reflexivity|].
  destruct (String.ltb y x); [|reflexivity].
  rewrite perm_swap. now apply perm_skip.
Qed.

Lemma sorted_perm (l : list string) : Permutation l (sorted l).
Proof.
  induction l as [|x l IH]; [reflexivity|].
  cbn [sorted fold_right]. rewrite <- insert_name_perm. now apply perm_skip.
Qed.

Lemma insert_name_sorted (x : string) (l : list string) :
  StronglySorted (fun s t => String.ltb t s = false) l ->
  StronglySorted (fun s t => String.ltb t s = false) (insert_name x l).
Proof.
  induction 1 as [|y l Hl IH Hy]; cbn [insert_name].
  - constructor; constructor.
  - destruct (String.ltb y x) eqn:E.
    + constructor; [exact IH|].
      apply (Permutation_Forall (insert_name_perm x l)).
      constructor; [now apply ltb_asym | exact Hy].
    + constructor; [now constructor|].
      constructor; [exact E|].
      eapply Forall_impl; [|exact Hy]. intros z Hz. cbv beta in *.
      exact (not_ltb_trans _ _ _ E Hz).
Qed.

Lemma sorted_sorted (l : list string) :
  StronglySorted (fun s t => String.ltb t s = false) (sorted l).
Proof.
  induction l as [|x l IH]; [constructor|]. now apply insert_name_sorted.
Qed.

Lemma strongly_sorted_unique (l1 : list string) :
  forall l2,
    StronglySorted (fun s t => String.ltb t s = false) l1 ->
    StronglySorted (fun s t => String.ltb t s = false) l2 ->
    Permutation l1 l2 -> l1 = l2.
Proof.
  induction l1 as [|a l1 IH]; intros l2 H1 H2 HP.
  - apply Permutation_nil in HP. now subst.
  - destruct l2 as [|b l2]; [symmetry in HP; now apply Permutation_nil in HP|].
    apply StronglySorted_inv in H1, H2. destruct H1 as [H1 Ha], H2 as [H2 Hb].
    assert (Hab : a = b).
    { assert (Hin1 : In a (b :: l2))
        by (apply (Permutation_in _ HP); now left).
      assert (Hin2 : In b (a :: l1))
        by (apply (Permutation_in _ (Permutation_sym HP)); now left).
      destruct Hin1 as [-> | Hin1]; [reflexivity|].
      destruct Hin2 as [-> | Hin2]; [reflexivity|].
      rewrite Forall_forall in Ha, Hb.
      exact (not_ltb_antisym _ _ (Ha _ Hin2) (Hb _ Hin1)). }
    subst b. f_equal. apply IH; try assumption.
    now apply Permutation_cons_inv in HP.
Qed.

Lemma sorted_of_permutation (l1 l2 : list string) :
  Permutation l1 l2 -> sorted l1 = sorted l2.
Proof.
  intros HP. apply strongly_sorted_unique; try apply sorted_sorted.
  now rewrite <- !sorted_perm.
Qed.

(** ** Looking a name up in a listing *)

Lemma dict_get_not_in {V} (k : string) (d : list (string * V)) :
  ~ In k (map fst d) -> dict_get k d = None.
Proof.
  induction d as [|[k' v] d IH]; [reflexivity|].
  cbn [map fst In dict_get]. intros N.
  destruct (String.eqb_spec k' k) as [->|_]; [exfalso; auto | apply IH; auto].
Qed.

Lemma dict_get_listed {V} (k : string) (d : list (string * V)) :
  In k (map fst d) -> dict_get k d <> None.
Proof.
  induction d as [|[k' v] d IH]; [intros []|].
  cbn [map fst In dict_get]. intros [-> | Hin].
  - now rewrite String.eqb_refl.
  - destruct (k' =? k)%string; [discriminate | now apply IH].
Qed.

Lemma dict_get_unique {V} (k : string) (v : V) (d : list (string * V)) :
  NoDup (map fst d) -> In (k, v) d -> dict_get k d = Some v.
Proof.
  induction d as [|[k' v'] d IH]; [intros _ []|].
  cbn [map fst In dict_get]. intros ND [E | Hin].
  - injection E as -> ->. now rewrite String.eqb_refl.
  - inversion ND as [|? ? Hk ND']; subst.
    destruct (String.eqb_spec k' k) as [->|_]; [|now apply IH].
    exfalso. apply Hk. apply in_map_iff. now exists (k, v).
Qed.

Lemma dict_get_permutation {V} (k : string) (d1 d2 : list (string * V)) :
  NoDup (map fst d1) -> Permutation d1 d2 -> dict_get k d1 = dict_get k d2.
Proof.
  intros ND HP.
  assert (ND2 : NoDup (map fst d2))
    by (eapply Permutation_NoDup; [apply Permutation_map; exact HP | exact ND]).
  destruct (dict_get k d1) as [v|] eqn:E1.
  - apply dict_get_in in E1. symmetry. apply dict_get_unique; [exact ND2|].
    exact (Permutation_in _ HP E1).
  - destruct (dict_get k d2) as [v|] eqn:E2; [|reflexivity].
    apply dict_get_in in E2. apply (Permutation_in _ (Permutation_sym HP)) in E2.
    now rewrite (dict_get_unique _ _ _ ND E2) in E1.
Qed.

(** ** The loop over the files *)

Lemma load_same_files (d1 d2 : Disk) (names : list string) :
  (forall name, open_read d1 name = open_read d2 name) ->
  forall acc, load d1 names acc = load d2 names acc.
Proof.
  intros Hread. induction names as [|name names IH]; intros acc; [reflexivity|].
  cbn [load]. rewrite Hread. destruct (ends_with ".json" name); [|apply IH].
  unfold bind. destruct (open_read d2 name) as [text|]; [|reflexivity].
  destruct (json_load text) as [data|]; [|reflexivity].
  destruct (iterate data); [apply IH | reflexivity].
Qed.

(** What the loop has collected when it ends. *)
Lemma load_collects (d : Disk) (es : list (string * node)) (names : list string) :
  categories d = Entries es ->
  (forall name, In name names -> In name (map fst es)) ->
  forall acc items,
    load d names acc = Ok items ->
    items = acc ++ flat_map (fun name =>
                               match dict_get name es with
                               | Some n => file_items (name, n)
                               | None => []
                               end) names.
Proof.
  intros Hes. induction names as [|name names IH]; intros Hin acc items.
  - cbn. intros H. injection H as <-. now rewrite app_nil_r.
  - cbn [load flat_map]. unfold file_items at 1. cbn [fst snd].
    assert (Hrest : forall n, In n names -> In n (map fst es))
      by (intros n Hn; apply Hin; now right).
    destruct (dict_get name es) as [n|] eqn:Eget.
    + destruct (ends_with ".json" name).
      * unfold open_read. rewrite Hes, Eget. destruct n as [text|]; [|discriminate].
        cbn [bind]. destruct (json_load text) as [data|]; [|discriminate].
        cbn [bind]. destruct (iterate data) as [more|]; [|discriminate].
        cbn [bind]. intros H. rewrite (IH Hrest _ _ H). now rewrite app_assoc.
      * intros H. exact (IH Hrest _ _ H).
    + exfalso. apply (dict_get_listed name es); [apply Hin; now left | exact Eget].
Qed.

Lemma load_raises (d : Disk) (names : list string) (name : string) :
  In name names -> ends_with ".json" name = true ->
  (forall items, bind (open_read d name)
                   (fun text => bind (json_load text) iterate) <> Ok items) ->
  forall acc, exists e, load d names acc = Raise e.
Proof.
  intros Hin Hjson Hbad. induction names as [|n names IH]; [destruct Hin|].
  intros acc. cbn [load]. destruct Hin as [-> | Hin].
  - rewrite Hjson. unfold bind in *.
    destruct (open_read d name) as [text|e]; [|now exists e].
    destruct (json_load text) as [data|e]; [|now exists e].
    destruct (iterate data) as [items|e]; [|now exists e].
    now destruct (Hbad items).
  - destruct (ends_with ".json" n); [|now apply IH].
    unfold bind. destruct (open_read d n) as [text|e]; [|now exists e].
    destruct (json_load text) as [data|e]; [|now exists e].
    destruct (iterate data) as [items|e]; [|now exists e].
    now apply IH.
Qed.

Lemma flat_map_entries (es : list (string * node)) :
  NoDup (map fst es) ->
  flat_map (fun name =>
              match dict_get name es with
              | Some n => file_items (name, n)
              | None => []
              end) (map fst es)
  = flat_map file_items es.
Proof.
  intros ND.
  assert (H : forall l, (forall e, In e l -> In e es) ->
    flat_map (fun name =>
                match dict_get name es with
                | Some n => file_items (name, n)
                | None => []
                end) (map fst l)
    = flat_map file_items l).
  { induction l as [|[k v] l IH]; intros Hl; [reflexivity|].
    cbn [map flat_map fst].
    rewrite (dict_get_unique k v es ND) by (apply Hl; now left).
    f_equal. apply IH. intros e He. apply Hl. now right. }
  apply H. auto.
Qed.

(** ** The sort *)

Lemma with_keys_items (items : list pyval) :
  forall keyed, with_keys items = Ok keyed -> map snd keyed = items.
Proof.
  induction items as [|x items IH]; intros keyed; cbn [with_keys].
  - intros H. now injection H as <-.
  - unfold bind. destruct (service_key x) as [k|]; [|discriminate].
    destruct (with_keys items) as [rest|]; [|discriminate].
    intros H. injection H as <-. cbn. f_equal. now apply IH.
Qed.

Lemma with_keys_raises (items : list pyval) (x : pyval) (e : exn) :
  In x items -> service_key x = Raise e ->
  exists e', with_keys items = Raise e'.
Proof.
  intros Hin Hx. induction items as [|y items IH]; [destruct Hin|].
  cbn [with_keys]. unfold bind. destruct Hin as [-> | Hin].
  - rewrite Hx. now exists e.
  - destruct (service_key y) as [k|e0]; [|now exists e0].
    destruct (IH Hin) as (e' & ->). now exists e'.
Qed.

Lemma insert_permutation (x : pyval * pyval) (l : list (pyval * pyval)) :
  forall placed, insert x l = Ok placed -> Permutation (x :: l) placed.
Proof.
  induction l as [|y l IH]; intros placed; cbn [insert].
  - intros H. now injection H as <-.
  - unfold bind. destruct (py_lt (fst y) (fst x)) as [[|]|]; [| |discriminate].
    + destruct (insert x l) as [r|] eqn:E; [|discriminate].
      intros H. injection H as <-. rewrite perm_swap. apply perm_skip. now apply IH.
    + intros H. now injection H as <-.
Qed.

Lemma sort_keyed_permutation (l : list (pyval * pyval)) :
  forall done, sort_keyed l = Ok done -> Permutation l done.
Proof.
  induction l as [|x l IH]; intros done; cbn [sort_keyed].
  - intros H. now injection H as <-.
  - unfold bind. destruct (sort_keyed l) as [r|]; [|discriminate].
    intros H. apply insert_permutation in H. rewrite <- H. apply perm_skip. now apply IH.
Qed.

Lemma sort_by_service_permutation (items combined : list pyval) :
  sort_by_service items = Ok combined -> Permutation items combined.
Proof.
  unfold sort_by_service, bind.
  destruct (with_keys items) as [keyed|] eqn:Ek; [|discriminate].
  destruct (sort_keyed keyed) as [done|] eqn:Es; [|discriminate].
  intros H. injection H as <-. rewrite <- (with_keys_items _ _ Ek).
  apply Permutation_map. now apply sort_keyed_permutation.
Qed.

(** ** Sorting items that all have a name *)

Lemma name_le_trans (a b c : pyval) : name_le a b -> name_le b c -> name_le a c.
Proof.
  unfold name_le.
  destruct (service_name a), (service_name b), (service_name c); try tauto.
  intros H1 H2. exact (not_ltb_trans _ _ _ H1 H2).
Qed.

Lemma with_keys_named (items : list pyval) :
  Forall (fun x => is_named x = true) items ->
  exists keyed,
    with_keys items = Ok keyed
    /\ Forall (fun kx => exists s, fst kx = PStr s /\ service_name (snd kx) = Some s) keyed.
Proof.
  induction 1 as [|x items Hx _ IH].
  - exists []. split; [reflexivity | constructor].
  - destruct IH as (keyed & Ek & Hk). cbn [with_keys].
    unfold is_named, service_name in Hx. unfold service_key.
    destruct x as [| | | |l|d]; try discriminate.
    destruct (dict_get "service" d) as [[| | |s| |]|] eqn:Eget; try discriminate.
    unfold bind. rewrite Ek. eexists. split; [reflexivity|].
    constructor; [|exact Hk]. exists s. cbn [fst snd]. unfold service_name.
    now rewrite Eget.
Qed.

Lemma insert_named (x : pyval * pyval) (l : list (pyval * pyval)) :
  (exists s, fst x = PStr s /\ service_name (snd x) = Some s) ->
  Forall (fun kx => exists s, fst kx = PStr s /\ service_name (snd kx) = Some s) l ->
  exists placed,
    insert x l = Ok placed
    /\ Forall (fun kx => exists s, fst kx = PStr s /\ service_name (snd kx) = Some s) placed
    /\ (StronglySorted (fun a b => name_le (snd a) (snd b)) l ->
        StronglySorted (fun a b => name_le (snd a) (snd b)) placed)
    /\ forall s, filter (fun kx => has_name s (snd kx)) placed
                 = filter (fun kx => has_name s (snd kx)) (x :: l).
Proof.
  intros (sx & Kx & Nx). induction 1 as [|y l (sy & Ky & Ny) Hl IH].
  - exists [x]. split; [reflexivity|]. split; [|split].
    + constructor; [now exists sx | constructor].
    + intros _. constructor; constructor.
    + reflexivity.
  - destruct IH as (placed & Ei & Hp & Hs & Hf).
    cbn [insert]. rewrite Ky, Kx. cbn [py_lt bind].
    destruct (String.ltb sy sx) eqn:E.
    + rewrite Ei. cbn [bind]. exists (y :: placed). split; [reflexivity|].
      split; [|split].
      * constructor; [now exists sy | exact Hp].
      * intros Hsorted. apply StronglySorted_inv in Hsorted.
        destruct Hsorted as [Hsl Hy]. constructor; [now apply Hs|].
        apply (Permutation_Forall (insert_permutation _ _ _ Ei)).
        constructor; [|exact Hy].
        unfold name_le. rewrite Ny, Nx. now apply ltb_asym.
      * intros s. cbn [filter]. rewrite Hf. cbn [filter].
        unfold has_name. rewrite Ny, Nx.
        destruct (String.eqb_spec sx s) as [->|_];
          destruct (String.eqb_spec sy s) as [->|_]; try reflexivity.
        now rewrite ltb_irrefl in E.
    + exists (x :: y :: l). split; [reflexivity|]. split; [|split].
      * constructor; [now exists sx|]. constructor; [now exists sy | exact Hl].
      * intros Hsorted. constructor; [exact Hsorted|].
        assert (Hxy : name_le (snd x) (snd y))
          by (unfold name_le; now rewrite Nx, Ny).
        constructor; [exact Hxy|].
        apply StronglySorted_inv in Hsorted. destruct Hsorted as [_ Hy].
        eapply Forall_impl; [|exact Hy]. intros z Hz. cbv beta in *.
        exact (name_le_trans _ _ _ Hxy Hz).
      * reflexivity.
Qed.

Lemma sort_keyed_named (l : list (pyval * pyval)) :
  Forall (fun kx => exists s, fst kx = PStr s /\ service_name (snd kx) = Some s) l ->
  exists done,
    sort_keyed l = Ok done
    /\ Forall (fun kx => exists s, fst kx = PStr s /\ service_name (snd kx) = Some s) done
    /\ StronglySorted (fun a b => name_le (snd a) (snd b)) done
    /\ forall s, filter (fun kx => has_name s (snd kx)) done
                 = filter (fun kx => has_name s (snd kx)) l.
Proof.
  induction 1 as [|x l Hx Hl IH].
  - exists []. repeat split; constructor.
  - destruct IH as (done & Es & Hd & Hs & Hf).
    destruct (insert_named x done Hx Hd) as (placed & Ei & Hp & Hsp & Hfp).
    exists placed. cbn [sort_keyed]. rewrite Es. cbn [bind].
    split; [exact Ei|]. split; [exact Hp|]. split; [now apply Hsp|].
    intros s. rewrite Hfp. cbn [filter]. now rewrite Hf.
Qed.

Lemma strongly_sorted_map_snd (l : list (pyval * pyval)) :
  StronglySorted (fun a b => name_le (snd a) (snd b)) l ->
  StronglySorted name_le (map snd l).
Proof.
  induction 1 as [|a l _ IH Ha]; [constructor|].
  cbn [map]. constructor; [exact IH|].
  apply Forall_forall. intros b Hb. apply in_map_iff in Hb.
  destruct Hb as (kx & <- & Hin). rewrite Forall_forall in Ha. now apply Ha.
Qed.

Lemma filter_map_snd (p : pyval -> bool) (l : list (pyval * pyval)) :
  filter p (map snd l) = map snd (filter (fun kx => p (snd kx)) l).
Proof.
  induction l as [|a l IH]; [reflexivity|].
  cbn [map filter]. destruct (p (snd a)); cbn [map]; now rewrite IH.
Qed.

(** X23.  Sorting services that all have a name (a record whose [service]
    is a string) succeeds; the result holds the same items, in the order of
    their names, and services of one name keep the order they came in. *)
Theorem sort_by_service_sorts_named_services (items : list pyval) :
  Forall (fun x => is_named x = true) items ->
  exists combined,
    sort_by_service items = Ok combined
    /\ Permutation items combined
    /\ StronglySorted name_le combined
    /\ forall s, filter (has_name s) combined = filter (has_name s) items.
Proof.
  intros Hnamed. destruct (with_keys_named items Hnamed) as (keyed & Ek & Hk).
  destruct (sort_keyed_named keyed Hk) as (done & Es & _ & Hs & Hf).
  assert (Erun : sort_by_service items = Ok (map snd done))
    by (unfold sort_by_service; rewrite Ek; cbn [bind]; now rewrite Es).
  exists (map snd done). split; [exact Erun|]. split; [|split].
  - now apply sort_by_service_permutation.
  - now apply strongly_sorted_map_snd.
  - intros s. rewrite filter_map_snd, Hf, <- filter_map_snd.
    now rewrite (with_keys_items _ _ Ek).
Qed.

(** ** The whole script *)

Lemma open_read_permutation (es1 es2 : list (string * node)) (out1 out2 : option node) :
  NoDup (map fst es1) -> Permutation es1 es2 ->
  forall name,
    open_read {| categories := Entries es1; services_json := out1 |} name
    = open_read {| categories := Entries es2; services_json := out2 |} name.
Proof.
  intros ND HP name. unfold open_read. cbn [categories].
  now rewrite (dict_get_permutation name es1 es2 ND HP).
Qed.

Lemma combined_services_permutation (es1 es2 : list (string * node)) (out : option node) :
  NoDup (map fst es1) -> Permutation es1 es2 ->
  combined_services {| categories := Entries es1; services_json := out |}
  = combined_services {| categories := Entries es2; services_json := out |}.
Proof.
  intros ND HP. unfold combined_services, listdir. cbn [categories bind].
  rewrite (sorted_of_permutation _ _ (Permutation_map fst HP)).
  now rewrite (load_same_files _ _ _ (open_read_permutation es1 es2 out out ND HP)).
Qed.

(** X24.  The order in which the directory lists its entries does not
    matter: two listings of the same entries give the same outcome, the
    same services file and the same message. *)
Theorem merge_services_ignores_listing_order
    (es1 es2 : list (string * node)) (out : option node) :
  NoDup (map fst es1) -> Permutation es1 es2 ->
  outcome (merge_services {| categories := Entries es1; services_json := out |})
  = outcome (merge_services {| categories := Entries es2; services_json := out |})
  /\ services_json
       (disk_after (merge_services {| categories := Entries es1; services_json := out |}))
     = services_json
         (disk_after (merge_services {| categories := Entries es2; services_json := out |}))
  /\ printed (merge_services {| categories := Entries es1; services_json := out |})
     = printed (merge_services {| categories := Entries es2; services_json := out |}).
Proof.
  intros ND HP. unfold merge_services.
  rewrite (combined_services_permutation es1 es2 out ND HP).
  destruct (combined_services _) as [combined|e]; [|now cbn].
  cbn [services_json]. destruct out as [[text|]|]; try (now cbn);
    destruct (npx_prettier (json_dump combined)) as [[| |] text']; now cbn.
Qed.

Lemma combined_services_raises (d : Disk) (e : exn) :
  combined_services d = Raise e -> merge_services d = (Raise e, d, []).
Proof. unfold merge_services. now intros ->. Qed.

Lemma sorted_in (name : string) (names : list string) :
  In name names -> In name (sorted names).
Proof. apply Permutation_in, sorted_perm. Qed.

Lemma in_sorted (name : string) (names : list string) :
  In name (sorted names) -> In name names.
Proof. apply Permutation_in, Permutation_sym, sorted_perm. Qed.

(** X25.  One category file that cannot be decoded stops the merge before
    anything is written or printed: the services file is left as it was. *)
Theorem merge_services_bad_file_aborts
    (d : Disk) (es : list (string * node)) (name text : string) (e : exn) :
  categories d = Entries es ->
  NoDup (map fst es) ->
  In (name, File text) es ->
  ends_with ".json" name = true ->
  json_load text = Raise e ->
  exists e', merge_services d = (Raise e', d, []).
Proof.
  intros Hes ND Hin Hjson Hbad.
  assert (Hname : In name (sorted (map fst es))).
  { apply sorted_in, in_map_iff. now exists (name, File text). }
  assert (Hfail : forall items,
             bind (open_read d name) (fun t => bind (json_load t) iterate) <> Ok items).
  { intros items. unfold open_read. rewrite Hes, (dict_get_unique _ _ _ ND Hin).
    cbn [bind]. now rewrite Hbad. }
  destruct (load_raises d _ name Hname Hjson Hfail []) as (e' & Eload).
  exists e'. apply combined_services_raises.
  unfold combined_services, listdir. rewrite Hes. cbn [bind]. now rewrite Eload.
Qed.

Lemma combined_services_items (d : Disk) (es : list (string * node)) (combined : list pyval) :
  categories d = Entries es ->
  NoDup (map fst es) ->
  combined_services d = Ok combined ->
  Permutation combined (flat_map file_items es).
Proof.
  intros Hes ND. unfold combined_services, listdir. rewrite Hes. cbn [bind].
  destruct (load d (sorted (map fst es)) []) as [items|] eqn:Eload; [|discriminate].
  cbn [bind]. intros Hsort. apply sort_by_service_permutation in Hsort.
  rewrite <- Hsort.
  rewrite (load_collects d es _ Hes (fun n => in_sorted n _) _ _ Eload).
  cbn [app]. rewrite <- (flat_map_entries es ND).
  apply Permutation_flat_map, Permutation_sym, sorted_perm.
Qed.

(** X26.  An item that is not a record with a [service] key, in any category
    file, stops
    the merge before anything is written or printed. *)
Theorem merge_services_item_without_key_aborts
    (d : Disk) (es : list (string * node)) (entry : string * node) (x : pyval) (e : exn) :
  categories d = Entries es ->
  NoDup (map fst es) ->
  In entry es ->
  In x (file_items entry) ->
  service_key x = Raise e ->
  exists e', merge_services d = (Raise e', d, []).
Proof.
  intros Hes ND Hentry Hx Hkey.
  destruct (combined_services d) as [combined|e'] eqn:Ec;
    [|exists e'; now apply combined_services_raises].
  exfalso. revert Ec. unfold combined_services, listdir. rewrite Hes. cbn [bind].
  destruct (load d (sorted (map fst es)) []) as [items|] eqn:Eload; [|discriminate].
  cbn [bind]. assert (Hin : In x items).
  { rewrite (load_collects d es _ Hes (fun n => in_sorted n _) _ _ Eload). cbn [app].
    apply (Permutation_in x
             (Permutation_flat_map _ (sorted_perm (map fst es)))).
    rewrite (flat_map_entries es ND). apply in_flat_map. now exists entry. }
  unfold sort_by_service.
  destruct (with_keys_raises items x e Hin Hkey) as (e' & ->). discriminate.
Qed.

(** X27.  When the script returns normally, the list it wrote holds the
    items of every [.json] file of the directory and nothing else, the
    services file is what Prettier left of its text, and the one line
    printed gives their number. *)
Theorem merge_services_merges_every_json_file (d : Disk) (es : list (string * node)) :
  categories d = Entries es ->
  NoDup (map fst es) ->
  outcome (merge_services d) = Ok tt ->
  exists combined,
    combined_services d = Ok combined
    /\ Permutation combined (flat_map file_items es)
    /\ services_json (disk_after (merge_services d))
       = Some (File (snd (npx_prettier (json_dump combined))))
    /\ (printed (merge_services d)
        = [merged_and_formatted (List.length (flat_map file_items es))]
        \/ printed (merge_services d)
           = [merged_only (List.length (flat_map file_items es))]).
Proof.
  intros Hes ND. unfold merge_services.
  destruct (combined_services d) as [combined|e] eqn:Ec; [|discriminate].
  pose proof (combined_services_items d es combined Hes ND Ec) as HP.
  rewrite <- (Permutation_length HP).
  assert (Hrun : forall run,
    run = (match npx_prettier (json_dump combined) with
           | (Completed, text') =>
               (Ok tt, write_services text' d,
                [merged_and_formatted (List.length combined)])
           | (CalledProcessError, text') =>
               (Ok tt, write_services text' d, [merged_only (List.length combined)])
           | (ExecutableNotFound, _) =>
               (Raise FileNotFoundError, write_services (json_dump combined) d, [])
           end) ->
    outcome run = Ok tt ->
    exists combined0,
      Ok combined = Ok combined0
      /\ Permutation combined0 (flat_map file_items es)
      /\ services_json (disk_after run)
         = Some (File (snd (npx_prettier (json_dump combined0))))
      /\ (printed run = [merged_and_formatted (List.length combined)]
          \/ printed run = [merged_only (List.length combined)])).
  { intros run ->. exists combined.
    destruct (npx_prettier (json_dump combined)) as [[| |] text']; cbn;
      try discriminate; auto. }
  destruct (services_json d) as [[text|]|]; try discriminate;
    now apply Hrun.
Qed.

End MergeFacts.
(* ===================================================================== *)
(** * The theorems at work on the example stores *)
(* ===================================================================== *)

#[local] Existing Instance example_runtime.

(** The scenario of the specification: C misses its date, A and B share
    theirs; a first run flags three entries, a second run reports three
    again and adds no row. *)
Example specification_scenario :
  let w := world_of (store [session_A; session_B; session_C] []) in
  let first := run_checks ["missing_data"; "duplicate_dates"] false false w in
  let second := run_checks ["missing_data"; "duplicate_dates"] false false (snd first) in
  let rows (w : World) := option_map (fun d => option_map (@List.length _) (review_queue d)) (db w) in
  fst first
  = Ok {| total_flagged := 3;
          by_criteria := [("missing_data", {| found := 1; flagged := 1 |});
                          ("duplicate_dates", {| found := 2; flagged := 2 |})] |}
  /\ fst second = fst first
  /\ rows (snd first) = Some (Some 3)
  /\ rows (snd second) = Some (Some 3).
Proof. vm_compute. repeat split. Qed.

(** Without the uniqueness constraint the second call inserts a second
    row. *)
Example flagging_twice_without_constraint :
  let d := {| sessions := Some []; memberships := Some []; session_absences := Some [];
              review_queue := Some []; review_unique := false |} in
  let w1 := snd (flag_session_for_review (PStr "A") "missing_data" "d" false false (world_of d)) in
  let w2 := snd (flag_session_for_review (PStr "A") "missing_data" "d" false false w1) in
  option_map (fun d => option_map (entries_for (SText "A") "missing_data") (review_queue d))
             (db w2)
  = Some (Some 2).
Proof. vm_compute. reflexivity. Qed.

(** C1 at the example store: C is flagged twice for missing_data. *)
Lemma flagging_twice_is_idempotent_witness :
  db (world_of example_store) = Some example_store
  /\ review_queue example_store = Some example_queue
  /\ review_unique example_store = true
  /\ entries_for (SText "C") "missing_data" example_queue <= 1
  /\ ~ In (SText (review_id_of (draws (world_of example_store)))) (map r_id example_queue)
  /\ exists (w1 w2 : World) (d2 : Database) (rq2 : list ReviewEntry),
       flag_session_for_review (PStr "C") "missing_data" "first" false false
         (world_of example_store) = (Ok true, w1)
       /\ flag_session_for_review (PStr "C") "missing_data" "second" false false w1
          = (Ok true, w2)
       /\ db w2 = Some d2
       /\ review_queue d2 = Some rq2
       /\ entries_for (SText "C") "missing_data" rq2 = 1
       /\ List.length rq2
          = List.length example_queue
            + (1 - entries_for (SText "C") "missing_data" example_queue)
       /\ db w2 = db w1.
Proof.
  assert (H1 : entries_for (SText "C") "missing_data" example_queue <= 1)
    by (vm_compute; lia).
  assert (H2 : ~ In (SText (review_id_of (draws (world_of example_store))))
                    (map r_id example_queue))
    by (vm_compute; intuition discriminate).
  repeat (split; [first [reflexivity | assumption]|]).
  exact (flagging_twice_is_idempotent (world_of example_store) example_store
           example_queue "C" "missing_data" "first" "second"
           eq_refl eq_refl eq_refl H1 H2).
Defined.

(** C3 at the example store. *)
Lemma missing_data_rule_witness :
  db (world_of example_store) = Some example_store
  /\ sessions example_store = Some example_sessions
  /\ exists rows : list Session,
       detect_missing_data_sessions false (world_of example_store)
       = (Ok (PList (map (fun s => PDict (row5 s)) rows)),
          with_trace (trace (world_of example_store) ++ [Connect; Close])
                     (world_of example_store))
       /\ (forall s, In s rows <->
                     In s example_sessions
                     /\ (s_date s = SNull \/ s_type s = SNull \/ s_term_id s = SNull))
       /\ (forall s, In s rows ->
                     description_for "missing_data" (row5 s)
                     = "Missing required fields: " +++ join ", " (blank_fields s))
       /\ (forall s, In s rows ->
                     blank (s_date s) = is_null (s_date s) ->
                     blank (s_type s) = is_null (s_type s) ->
                     blank (s_term_id s) = is_null (s_term_id s) ->
                     description_for "missing_data" (row5 s)
                     = "Missing required fields: " +++ join ", " (null_fields s)).
Proof.
  split; [reflexivity|]. split; [reflexivity|].
  exact (missing_data_rule (world_of example_store) example_store example_sessions
           eq_refl eq_refl).
Defined.

(** C3, the claim as stated fails: session E has a date (the empty text)
    and no type; missing_data returns it, and its description names the
    date as well as the type. *)
Lemma missing_data_names_a_field_that_is_not_null :
  fst (detect_missing_data_sessions false (world_of (store [session_E] [])))
  = Ok (PList [PDict (row5 session_E)])
  /\ s_date session_E <> SNull
  /\ null_fields session_E = ["type"]
  /\ description_for "missing_data" (row5 session_E)
     = "Missing required fields: date, type"
  /\ description_for "missing_data" (row5 session_E)
     <> "Missing required fields: " +++ join ", " (null_fields session_E).
Proof.
  repeat split; try reflexivity; vm_compute; discriminate.
Qed.

(** C4 at the example store. *)
Lemma duplicate_dates_rule_witness :
  db (world_of example_store) = Some example_store
  /\ sessions example_store = Some example_sessions
  /\ exists rows : list Session,
       detect_duplicate_dates false (world_of example_store)
       = (Ok (PList (map (fun s => PDict (row5 s)) rows)),
          with_trace (trace (world_of example_store) ++ [Connect; Close])
                     (world_of example_store))
       /\ (forall D, 2 <= sharing_date D example_sessions ->
                     forall s, In s example_sessions -> s_date s = D -> In s rows)
       /\ (forall s, In s rows ->
                     In s example_sessions /\ s_date s <> SNull
                     /\ 2 <= sharing_date (s_date s) example_sessions)
       /\ StronglySorted (fun a b => sql_le (s_date a) (s_date b) = true) rows.
Proof.
  split; [reflexivity|]. split; [reflexivity|].
  exact (duplicate_dates_rule (world_of example_store) example_store example_sessions
           eq_refl eq_refl).
Defined.

(** X28 at the example store: no resolved entry there has a NULL item. *)
Lemma auto_imported_rule_witness :
  db (world_of example_store) = Some example_store
  /\ sessions example_store = Some example_sessions
  /\ review_queue example_store = Some example_queue
  /\ (forall r, In r example_queue -> r_item_type r = SText "session" ->
                r_status r = SText "resolved" -> r_item_id r <> SNull)
  /\ exists rows : list Session,
       detect_auto_imported_unreviewed false (world_of example_store)
       = (Ok (PList (map (fun s => PDict (row6 s)) rows)),
          with_trace (trace (world_of example_store) ++ [Connect; Close])
                     (world_of example_store))
       /\ (forall s, s_id s <> SNull ->
                     (In s rows <->
                      In s example_sessions
                      /\ ~ exists r, In r example_queue /\ resolved_for (s_id s) r))
       /\ StronglySorted (fun a b => sql_le (s_created_at b) (s_created_at a) = true) rows
       /\ (forall s, In s example_sessions -> s_id s <> SNull ->
                     (forall r, In r example_queue -> r_item_id r = s_id s ->
                                r_status r = SText "pending") ->
                     In s rows).
Proof.
  assert (H : forall r, In r example_queue -> r_item_type r = SText "session" ->
                        r_status r = SText "resolved" -> r_item_id r <> SNull).
  { intros r [<- | [<- | []]] _ _; simpl; discriminate. }
  split; [reflexivity|]. split; [reflexivity|]. split; [reflexivity|].
  split; [exact H|].
  exact (auto_imported_rule (world_of example_store) example_store example_sessions
           example_queue eq_refl eq_refl eq_refl H).
Defined.

(** C5 at a queue that holds a resolved session entry whose item_id is
    NULL: no entry is for session A, yet auto_imported returns nothing. *)
Lemma auto_imported_null_item_id_hides_every_session_witness :
  let rq := [queue_entry "r9" SNull "missing_data" "resolved"] in
  let d := store [session_A] rq in
  db (world_of d) = Some d
  /\ sessions d = Some [session_A]
  /\ review_queue d = Some rq
  /\ (exists r, In r rq /\ resolved_for SNull r)
  /\ (forall r, In r rq -> ~ resolved_for (s_id session_A) r)
  /\ detect_auto_imported_unreviewed false (world_of d)
     = (Ok (PList []), with_trace (trace (world_of d) ++ [Connect; Close]) (world_of d)).
Proof.
  cbv zeta.
  assert (H : exists r, In r [queue_entry "r9" SNull "missing_data" "resolved"]
                        /\ resolved_for SNull r).
  { exists (queue_entry "r9" SNull "missing_data" "resolved").
    split; [now left|]. split; [reflexivity|]. split; reflexivity. }
  split; [reflexivity|]. split; [reflexivity|]. split; [reflexivity|].
  split; [exact H|]. split.
  - intros r [<- | []] (_ & _ & Hitem). discriminate Hitem.
  - exact (auto_imported_null_item_id_hides_every_session
             (world_of (store [session_A] [queue_entry "r9" SNull "missing_data" "resolved"]))
             _ [session_A] _ eq_refl eq_refl eq_refl H).
Defined.

(** C6 at the example store: A, B and C are candidates, D (a term without
    members, one absence) is not. *)
Lemma incomplete_attendance_rule_witness :
  db (world_of example_store) = Some example_store
  /\ sessions example_store = Some example_sessions
  /\ session_absences example_store = Some example_absences
  /\ memberships example_store = Some example_memberships
  /\ NoDup (map s_id example_sessions)
  /\ exists rows : list AttendanceRow,
       detect_incomplete_attendance false (world_of example_store)
       = (Ok (PList (map (fun r => PDict (row7 r)) rows)),
          with_trace (trace (world_of example_store) ++ [Connect; Close])
                     (world_of example_store))
       /\ (forall s, In s example_sessions ->
                     members_of_term example_memberships (s_term_id s) = 0 ->
                     forall r, In r rows -> ar_session r <> s)
       /\ (forall s, In s example_sessions -> s_term_id s <> SNull ->
                     0 < members_of_term example_memberships (s_term_id s) ->
                     In (attendance_row example_absences example_memberships s) rows)
       /\ (forall r, In r rows ->
                     In (ar_session r) example_sessions
                     /\ absence_count r = recorded_absences example_absences (ar_session r)
                     /\ term_member_count r
                        = members_of_term example_memberships (s_term_id (ar_session r))
                     /\ dict_get "absence_count" (row7 r)
                        = Some (PInt (Z.of_nat (recorded_absences example_absences
                                                  (ar_session r))))
                     /\ dict_get "term_member_count" (row7 r)
                        = Some (PInt (Z.of_nat (members_of_term example_memberships
                                                  (s_term_id (ar_session r)))))
                     /\ description_for "incomplete_attendance" (row7 r)
                        = "Incomplete attendance: "
                          +++ string_of_Z (Z.of_nat (recorded_absences example_absences
                                                       (ar_session r)))
                          +++ " absences recorded for "
                          +++ string_of_Z (Z.of_nat (members_of_term example_memberships
                                                       (s_term_id (ar_session r))))
                          +++ " term members").
Proof.
  assert (H : NoDup (map s_id example_sessions)).
  { repeat constructor; simpl; intuition discriminate. }
  repeat (split; [first [reflexivity | exact H]|]).
  exact (incomplete_attendance_rule (world_of example_store) example_store
           example_sessions example_absences example_memberships
           eq_refl eq_refl eq_refl eq_refl H).
Defined.

Example incomplete_attendance_example :
  fst (run_checks ["incomplete_attendance"] true false (world_of example_store))
  = Ok {| total_flagged := 3;
          by_criteria := [("incomplete_attendance", {| found := 3; flagged := 3 |})] |}.
Proof. vm_compute. reflexivity. Qed.

(** C7 at a database file without tables: the SELECT raises
    OperationalError and the connection stays open. *)
Lemma execute_query_error_leaves_connection_open_witness :
  db (world_of empty_file) = Some empty_file
  /\ run_select MissingData empty_file
     = Raise (OperationalError "no such table: sessions")
  /\ fst (execute_query MissingData false (world_of empty_file))
     = Raise (OperationalError "no such table: sessions")
  /\ leaves_open (trace (world_of empty_file))
                 (trace (snd (execute_query MissingData false (world_of empty_file)))) 1.
Proof.
  split; [reflexivity|]. split; [reflexivity|].
  exact (execute_query_error_leaves_connection_open MissingData (world_of empty_file)
           empty_file (OperationalError "no such table: sessions") eq_refl eq_refl).
Defined.

Example execute_query_error_trace :
  execute_query MissingData false (world_of empty_file)
  = (Raise (OperationalError "no such table: sessions"),
     with_trace [Connect] (world_of empty_file))
  /\ open_connections [Connect] = 1
  /\ trace (snd (flag_session_for_review (PStr "A") "missing_data" "d" false false
                   (world_of empty_file)))
     = [FlagCall (PStr "A") "missing_data" "d"; Connect; Close;
        Stderr "  Error flagging session A: no such table: review_queue"].
Proof. repeat split. Qed.

(** C2 at the example store: a preview of all four checks. *)
Lemma preview_mode_writes_nothing_witness :
  let criteria := ["missing_data"; "duplicate_dates"; "incomplete_attendance";
                   "auto_imported"] in
  db (world_of example_store) = Some example_store
  /\ schema_loaded example_store = true
  /\ exists res w',
       run_checks criteria true false (world_of example_store) = (Ok res, w')
       /\ db w' = db (world_of example_store)
       /\ forall c, In c criteria -> known c = true ->
                    exists rows k,
                      finds example_store c rows
                      /\ dict_get c (by_criteria res)
                         = Some {| found := List.length rows; flagged := k |}.
Proof.
  cbv zeta. split; [reflexivity|]. split; [reflexivity|].
  exact (proj2 (proj2 (proj2 preview_mode_writes_nothing))
           ["missing_data"; "duplicate_dates"; "incomplete_attendance"; "auto_imported"]
           (world_of example_store) example_store eq_refl eq_refl).
Defined.

Example preview_example :
  let run := run_checks ["missing_data"; "duplicate_dates"; "incomplete_attendance";
                         "auto_imported"] true false (world_of example_store) in
  fst run
  = Ok {| total_flagged := 9;
          by_criteria := [("missing_data", {| found := 1; flagged := 1 |});
                          ("duplicate_dates", {| found := 2; flagged := 2 |});
                          ("incomplete_attendance", {| found := 3; flagged := 3 |});
                          ("auto_imported", {| found := 3; flagged := 3 |})] |}
  /\ db (snd run) = Some example_store.
Proof. vm_compute. split; reflexivity. Qed.




(** C10: a store where one of two sessions without a date has an empty
    identifier; missing_data finds two and flags one. *)
Lemma candidates_without_id_are_found_not_flagged_witness :
  let w := world_of (store [session_unnamed; session_C] []) in
  let sessions := [PDict (row5 session_unnamed); PDict (row5 session_C)] in
  let empty := {| total_flagged := 0; by_criteria := [] |} in
  let run := run_checks_from ["missing_data"] false false empty w in
  let w1 := snd (detect_missing_data_sessions false
                   (with_trace (trace w ++ [Stdout (announcement "missing_data")]) w)) in
  check_functions "missing_data" = Some detect_missing_data_sessions
  /\ detect_missing_data_sessions false
       (with_trace (trace w ++ [Stdout (announcement "missing_data")]) w)
     = (Ok (PList sessions), w1)
  /\ fst run
     = Ok {| total_flagged := 1;
             by_criteria := [("missing_data", {| found := 2; flagged := 1 |})] |}
  /\ exists stats during,
       dict_get "missing_data"
         (by_criteria {| total_flagged := 1;
                         by_criteria := [("missing_data", {| found := 2; flagged := 1 |})] |})
       = Some stats
       /\ found stats = List.length sessions
       /\ flagged stats <= count has_id sessions
       /\ trace (snd run) = trace w1 ++ during
       /\ flag_calls during = map (flag_call_for "missing_data") (filter has_id sessions)
       /\ (forall sid issue desc, In (FlagCall sid issue desc) during -> truthy sid = true)
       /\ ((exists s, In s sessions /\ has_id s = false) -> flagged stats < found stats).
Proof.
  cbv zeta. split; [reflexivity|]. split; [reflexivity|]. split; [vm_compute; reflexivity|].
  exact (candidates_without_id_are_found_not_flagged "missing_data"
           detect_missing_data_sessions false false
           {| total_flagged := 0; by_criteria := [] |} _
           (world_of (store [session_unnamed; session_C] [])) _ _
           [PDict (row5 session_unnamed); PDict (row5 session_C)]
           eq_refl eq_refl ltac:(vm_compute; reflexivity)).
Defined.

(* ===================================================================== *)
(** * The further properties at work *)
(* ===================================================================== *)


(** X2 where npx is not installed. *)
Lemma execute_query_remote_failure_is_empty_witness :
  (forall out,
      fst (npx_wrangler temp_query_args
             (dict_set ".temp_query.sql" (sql_text MissingData)
                (files (world_of example_store)))
             (remote (world_of example_store)))
      <> Completed out)
  /\ exists line,
       fst (execute_query MissingData true (world_of example_store)) = Ok (PList [])
       /\ trace (snd (execute_query MissingData true (world_of example_store)))
          = trace (world_of example_store) ++ [Stderr line].
Proof.
  assert (H : forall out,
             fst (npx_wrangler temp_query_args
                    (dict_set ".temp_query.sql" (sql_text MissingData)
                       (files (world_of example_store)))
                    (remote (world_of example_store)))
             <> Completed out)
    by (intros out; simpl; discriminate).
  split; [exact H|].
  exact (execute_query_remote_failure_is_empty MissingData (world_of example_store) H).
Defined.

(** X3 for a first flag of C. *)
Lemma flag_session_for_review_closes_connection_witness :
  db (world_of example_store) = Some example_store
  /\ exists ok w' tail,
       flag_session_for_review (PStr "C") "missing_data" "no date" false false
         (world_of example_store) = (Ok ok, w')
       /\ trace w'
          = trace (world_of example_store)
            ++ FlagCall (PStr "C") "missing_data" "no date" :: Connect :: Close :: tail
       /\ open_connections
            (FlagCall (PStr "C") "missing_data" "no date" :: Connect :: Close :: tail) = 0
       /\ (ok = true -> tail = [])
       /\ (ok = false ->
           db w' = db (world_of example_store)
           /\ exists msg,
                tail = [Stderr ("  Error flagging session " +++ py_str (PStr "C") +++ ": "
                                +++ msg)]).
Proof.
  split; [reflexivity|].
  exact (flag_session_for_review_closes_connection (PStr "C") "missing_data" "no date"
           (world_of example_store) example_store eq_refl).
Defined.

(** X4 in a working directory without a database file. *)
Lemma flag_session_for_review_without_store_witness :
  db world_without_store = None
  /\ exists msg w',
       flag_session_for_review (PStr "C") "missing_data" "no date" false false
         world_without_store
       = (Raise (FileNotFoundError msg), w')
       /\ trace w' = trace world_without_store
                     ++ [FlagCall (PStr "C") "missing_data" "no date"]
       /\ db w' = None /\ files w' = files world_without_store
       /\ remote w' = remote world_without_store.
Proof.
  split; [reflexivity|].
  exact (flag_session_for_review_without_store (PStr "C") "missing_data" "no date"
           world_without_store eq_refl).
Defined.

(** X5 for a first flag of C. *)
Lemma flag_session_for_review_appends_one_row_witness :
  db (world_of example_store) = Some example_store
  /\ review_queue example_store = Some example_queue
  /\ exists d',
       db (snd (flag_session_for_review (PStr "C") "missing_data" "no date" false false
                  (world_of example_store))) = Some d'
       /\ sessions d' = sessions example_store
       /\ memberships d' = memberships example_store
       /\ session_absences d' = session_absences example_store
       /\ review_unique d' = review_unique example_store
       /\ (review_queue d' = Some example_queue
           \/ exists item,
                bind_param (PStr "C") = Ok item
                /\ review_queue d'
                   = Some (example_queue
                           ++ [review_row (review_id_of (draws (world_of example_store)))
                                 item "missing_data" "no date"
                                 (utcnow_isoformat (draws (world_of example_store)))])).
Proof.
  split; [reflexivity|]. split; [reflexivity|].
  exact (flag_session_for_review_appends_one_row (PStr "C") "missing_data" "no date"
           (world_of example_store) example_store example_queue eq_refl eq_refl).
Defined.

(** X6 where npx is not installed: the remote write returns False. *)
Lemma flag_session_for_review_remote_witness :
  let w := world_of example_store in
  let n := draws w in
  let text := insert_statement_text (review_id_of n) (PStr "C") "missing_data" "no date"
                (utcnow_isoformat n) in
  let exit := fst (npx_wrangler (temp_insert_args n)
                     (dict_set (temp_insert_file n) text (files w)) (remote w)) in
  exists ok w',
    flag_session_for_review (PStr "C") "missing_data" "no date" false true w = (Ok ok, w')
    /\ (ok = true <-> exists out, exit = Completed out)
    /\ db w' = db w
    /\ dict_get (temp_insert_file n) (files w') = None
    /\ forall name, name <> temp_insert_file n ->
                    dict_get name (files w') = dict_get name (files w).
Proof.
  exact (flag_session_for_review_remote (PStr "C") "missing_data" "no date"
           (world_of example_store)).
Defined.

(** X7 for a description with an apostrophe. *)
Lemma escaped_description_reads_back_witness :
  sql_unquote (replace_char "'"%char "''" "Session's date is missing")
  = Some "Session's date is missing".
Proof. exact (escaped_description_reads_back "Session's date is missing"). Defined.

(** X8 for a run of two checks against the example store. *)
Lemma run_checks_only_appends_witness :
  match db (world_of example_store),
        db (snd (run_checks ["missing_data"; "duplicate_dates"] false false
                   (world_of example_store))) with
  | Some d, Some d' =>
      sessions d' = sessions d
      /\ memberships d' = memberships d
      /\ session_absences d' = session_absences d
      /\ review_unique d' = review_unique d
      /\ match review_queue d, review_queue d' with
         | Some rq, Some rq' =>
             exists added,
               rq' = rq ++ added
               /\ Forall (written_for (filter known ["missing_data"; "duplicate_dates"]))
                         added
         | None, None => True
         | _, _ => False
         end
  | None, None => True
  | _, _ => False
  end.
Proof.
  exact (run_checks_only_appends ["missing_data"; "duplicate_dates"] false false
           (world_of example_store)).
Defined.

(** X9 for a run against a store whose queue is empty. *)
Lemma run_checks_keeps_keys_unique_witness :
  db (world_of (store example_sessions [])) = Some (store example_sessions [])
  /\ constraint_holds (store example_sessions [])
  /\ exists d',
       db (snd (run_checks ["missing_data"; "duplicate_dates"] false false
                  (world_of (store example_sessions [])))) = Some d'
       /\ constraint_holds d'.
Proof.
  assert (H : constraint_holds (store example_sessions []))
    by (split; [reflexivity | simpl; intros item issue; vm_compute; lia]).
  split; [reflexivity|]. split; [exact H|].
  exact (run_checks_keeps_keys_unique ["missing_data"; "duplicate_dates"] false false
           (world_of (store example_sessions [])) (store example_sessions [])
           eq_refl H).
Defined.

(** X10 for a preview of the four checks. *)
Lemma run_checks_counts_are_consistent_witness :
  let res :=
    {| total_flagged := 9;
       by_criteria := [("missing_data", {| found := 1; flagged := 1 |});
                       ("duplicate_dates", {| found := 2; flagged := 2 |});
                       ("incomplete_attendance", {| found := 3; flagged := 3 |});
                       ("auto_imported", {| found := 3; flagged := 3 |})] |} in
  run_checks all_criteria true false (world_of example_store)
  = (Ok res, snd (run_checks all_criteria true false (world_of example_store)))
  /\ (forall c stats, dict_get c (by_criteria res) = Some stats ->
                      flagged stats <= found stats)
  /\ flagged_sum (by_criteria res) <= total_flagged res.
Proof.
  cbv zeta.
  assert (H : run_checks all_criteria true false (world_of example_store)
              = (Ok {| total_flagged := 9;
                       by_criteria :=
                         [("missing_data", {| found := 1; flagged := 1 |});
                          ("duplicate_dates", {| found := 2; flagged := 2 |});
                          ("incomplete_attendance", {| found := 3; flagged := 3 |});
                          ("auto_imported", {| found := 3; flagged := 3 |})] |},
                 snd (run_checks all_criteria true false (world_of example_store))))
    by (vm_compute; reflexivity).
  split; [exact H|].
  exact (run_checks_counts_are_consistent all_criteria true false
           (world_of example_store) _ _ H).
Defined.

(** X11 for a preview of missing_data against a store in which one of the
    two sessions without a date has an empty identifier. *)
Lemma preview_counts_every_identified_candidate_witness :
  let w := world_of (store [session_C; session_unnamed] []) in
  let check := detect_missing_data_sessions false
                 (with_trace (trace w ++ [Stdout (announcement "missing_data")]) w) in
  let sessions := match fst check with Ok (PList l) => l | _ => [] end in
  let run := run_check "missing_data" detect_missing_data_sessions true false w in
  check = (Ok (PList sessions), snd check)
  /\ run = (Ok {| found := 2; flagged := 1 |}, snd run)
  /\ 1 = count has_id sessions
  /\ 2 = List.length sessions.
Proof.
  cbv zeta.
  split; [vm_compute; reflexivity|]. split; [vm_compute; reflexivity|].
  exact (preview_counts_every_identified_candidate "missing_data"
           detect_missing_data_sessions false
           (world_of (store [session_C; session_unnamed] [])) _ _ _
           {| found := 2; flagged := 1 |}
           ltac:(vm_compute; reflexivity) ltac:(vm_compute; reflexivity)).
Defined.

(** X12: A is in the queue under missing_data already. *)
Lemma flag_sessions_already_flagged_witness :
  review_queue example_store = Some example_queue
  /\ review_unique example_store = true
  /\ (forall row, In row [candidate_A; candidate_unnamed] ->
                  has_id (PDict row) = true ->
                  already_flagged "missing_data" example_queue row)
  /\ exists w',
       flag_sessions "missing_data" (map PDict [candidate_A; candidate_unnamed])
         false false 0 (world_of example_store)
       = (Ok (0 + count has_id (map PDict [candidate_A; candidate_unnamed])), w')
       /\ db w' = Some example_store.
Proof.
  assert (H : forall row, In row [candidate_A; candidate_unnamed] ->
                          has_id (PDict row) = true ->
                          already_flagged "missing_data" example_queue row).
  { intros row [<- | [<- | []]] Hid.
    - exists (SText "A"). split; [reflexivity | vm_compute; lia].
    - vm_compute in Hid. discriminate. }
  split; [reflexivity|]. split; [reflexivity|]. split; [exact H|].
  exact (flag_sessions_already_flagged "missing_data" example_store example_queue
           [candidate_A; candidate_unnamed] eq_refl eq_refl H 0
           (world_of example_store) eq_refl).
Defined.

(** X13 against a database file without tables. *)
Lemma flag_sessions_without_queue_table_witness :
  review_queue empty_file = None
  /\ db (world_of empty_file) = Some empty_file
  /\ exists w' during,
       flag_sessions "missing_data" (map PDict [candidate_A; candidate_unnamed])
         false false 0 (world_of empty_file) = (Ok 0, w')
       /\ db w' = Some empty_file
       /\ trace w' = trace (world_of empty_file) ++ during
       /\ count (fun e => match e with Stderr _ => true | _ => false end) during
          = count has_id (map PDict [candidate_A; candidate_unnamed]).
Proof.
  split; [reflexivity|]. split; [reflexivity|].
  exact (flag_sessions_without_queue_table "missing_data" empty_file
           [candidate_A; candidate_unnamed] eq_refl 0 (world_of empty_file) eq_refl).
Defined.

(** X14 without a database file. *)
Lemma run_checks_with_unknown_criteria_only_witness :
  (forall c, In c ["no_such_check"; "attendance"] -> known c = false)
  /\ run_checks ["no_such_check"; "attendance"] false false world_without_store
     = (Ok {| total_flagged := 0; by_criteria := [] |},
        with_trace (trace world_without_store
                    ++ map warning ["no_such_check"; "attendance"])
                   world_without_store).
Proof.
  assert (H : forall c, In c ["no_such_check"; "attendance"] -> known c = false)
    by (intros c [<- | [<- | []]]; reflexivity).
  split; [exact H|].
  exact (run_checks_with_unknown_criteria_only ["no_such_check"; "attendance"]
           false false world_without_store H).
Defined.

(** X15 without a database file. *)
Lemma run_checks_without_store_witness :
  db world_without_store = None
  /\ (forall x, In x ["no_such_check"] -> known x = false)
  /\ known "missing_data" = true
  /\ exists msg,
       run_checks (["no_such_check"] ++ "missing_data" :: ["duplicate_dates"])
         false false world_without_store
       = (Raise (FileNotFoundError msg),
          with_trace (trace world_without_store ++ map warning ["no_such_check"]
                      ++ [Stdout (announcement "missing_data")])
                     world_without_store).
Proof.
  assert (H : forall x, In x ["no_such_check"] -> known x = false)
    by (intros x [<- | []]; reflexivity).
  split; [reflexivity|]. split; [exact H|]. split; [reflexivity|].
  exact (run_checks_without_store ["no_such_check"] "missing_data" ["duplicate_dates"]
           false world_without_store eq_refl H eq_refl).
Defined.

(** X16 on three records, and on a list that holds a number. *)
Lemma keep_with_members_filters_witness :
  let rows := [[("id", PStr "A"); ("term_member_count", PInt 3)];
               [("id", PStr "D"); ("term_member_count", PInt 0)];
               [("id", PStr "E")]] in
  keep_with_members (map PDict rows) = Ok (map PDict (filter has_members rows))
  /\ (exists s, In s [PDict []; PInt 1] /\ forall d, s <> PDict d)
  /\ exists msg, keep_with_members [PDict []; PInt 1] = Raise (AttributeError msg).
Proof.
  cbv zeta.
  assert (H : exists s, In s [PDict []; PInt 1] /\ forall d, s <> PDict d)
    by (exists (PInt 1); split; [simpl; auto | intros d; discriminate]).
  split; [|split; [exact H|]].
  - exact (proj1 (keep_with_members_filters _) _ eq_refl).
  - exact (proj2 (proj2 (keep_with_members_filters [PDict []; PInt 1])) H).
Defined.

(** X17 for a preview from the example world. *)
Lemma main_exit_status_witness :
  exists status w' banner,
    main example_args (world_of example_store) = (Ok status, w')
    /\ match fst (run_checks (parse_criteria (arg_criteria example_args))
                    (arg_dry_run example_args) (arg_remote example_args)
                    (with_trace (trace (world_of example_store) ++ banner)
                                (world_of example_store))) with
       | Ok _ => status = Returned
       | Raise e =>
           status = SystemExit 1
           /\ exists before,
                trace w' = before ++ [Stderr (nl +++ "Error: " +++ exn_str e)]
       end.
Proof. exact (main_exit_status example_args (world_of example_store)). Defined.

(** X18 for a preview from the example world. *)
Lemma main_dry_run_leaves_store_witness :
  arg_dry_run example_args = true
  /\ db (snd (main example_args (world_of example_store)))
     = db (world_of example_store).
Proof.
  split; [reflexivity|].
  exact (main_dry_run_leaves_store example_args (world_of example_store) eq_refl).
Defined.

(** X19 on "ALL" and on two criteria with a space after the comma. *)
Lemma parse_criteria_pieces_witness :
  (py_lower "ALL" = "all"
   /\ parse_criteria "ALL" = all_criteria
   /\ forall c, In c (parse_criteria "ALL") -> known c = true)
  /\ (py_lower (arg_criteria example_args) <> "all"
      /\ List.length (parse_criteria (arg_criteria example_args))
         = commas (arg_criteria example_args) + 1
      /\ forall c, In c (parse_criteria (arg_criteria example_args)) ->
                   commas c = 0
                   /\ first_char_is_space c = false
                   /\ last_char_is_space c = false).
Proof.
  assert (H : py_lower (arg_criteria example_args) <> "all")
    by (vm_compute; discriminate).
  split.
  - split; [reflexivity|]. exact (proj1 (parse_criteria_pieces "ALL") eq_refl).
  - split; [exact H|].
    exact (proj2 (parse_criteria_pieces (arg_criteria example_args)) H).
Defined.

(** X20 on the example tree: the database two levels down is found. *)
Lemma get_local_db_path_names_a_sqlite_entry_witness :
  get_local_db_path example_tree = Some (wrangler_dir ++ ["v1"; "db.sqlite"])
  /\ (exists below, wrangler_dir ++ ["v1"; "db.sqlite"] = wrangler_dir ++ below)
  /\ (ends_with ".sqlite" (last (wrangler_dir ++ ["v1"; "db.sqlite"]) EmptyString) = true
      \/ (wrangler_dir ++ ["v1"; "db.sqlite"] = wrangler_dir
          /\ fs_find wrangler_dir example_tree = Some RegularFile)).
Proof.
  split; [reflexivity|].
  exact (get_local_db_path_names_a_sqlite_entry example_tree
           (wrangler_dir ++ ["v1"; "db.sqlite"]) eq_refl).
Defined.

(** X21 on a tree with the file of the known hash, and on one whose
    miniflare directory lists a directory named old.sqlite. *)
Lemma get_local_db_path_order_witness :
  (fs_find hashed_file hashed_tree = Some RegularFile
   /\ get_local_db_path hashed_tree = Some hashed_file)
  /\ (fs_find hashed_file listing_tree = None
      /\ fs_find wrangler_dir listing_tree
         = Some (Directory [("journal.txt", RegularFile); ("old.sqlite", Directory [])])
      /\ first_sqlite (map fst [("journal.txt", RegularFile); ("old.sqlite", Directory [])])
         = Some "old.sqlite"
      /\ get_local_db_path listing_tree = Some (wrangler_dir ++ ["old.sqlite"])).
Proof.
  split.
  - split; [reflexivity|]. exact (proj1 (get_local_db_path_order hashed_tree) eq_refl).
  - split; [reflexivity|]. split; [reflexivity|]. split; [reflexivity|].
    exact (proj2 (get_local_db_path_order listing_tree) _ "old.sqlite"
             eq_refl eq_refl eq_refl).
Defined.

(** X22 on the example tree, and on an empty working directory. *)
Lemma get_local_db_path_finds_any_database_witness :
  (fs_find (wrangler_dir ++ ["v1"] ++ ["db.sqlite"]) example_tree = Some RegularFile
   /\ ends_with ".sqlite" "db.sqlite" = true
   /\ get_local_db_path example_tree <> None)
  /\ (fs_find wrangler_dir (Directory []) = None
      /\ get_local_db_path (Directory []) = None).
Proof.
  split.
  - split; [reflexivity|]. split; [reflexivity|].
    exact (proj1 (get_local_db_path_finds_any_database example_tree)
             ["v1"] "db.sqlite" eq_refl eq_refl).
  - split; [reflexivity|].
    exact (proj2 (get_local_db_path_finds_any_database (Directory [])) eq_refl).
Defined.

#[local] Existing Instance example_tools.

(** X23 on three services, two of one name. *)
Lemma sort_by_service_sorts_named_services_witness :
  let items := [service "Vaccination"; service "Birth certificate";
                PDict [("service", PStr "Vaccination")]] in
  Forall (fun x => Merge.is_named x = true) items
  /\ exists combined,
       Merge.sort_by_service items = Merge.Ok combined
       /\ Permutation items combined
       /\ StronglySorted Merge.name_le combined
       /\ forall s, filter (Merge.has_name s) combined = filter (Merge.has_name s) items.
Proof.
  cbv zeta.
  assert (H : Forall (fun x => Merge.is_named x = true)
                [service "Vaccination"; service "Birth certificate";
                 PDict [("service", PStr "Vaccination")]])
    by (repeat constructor).
  split; [exact H|].
  exact (sort_by_service_sorts_named_services _ H).
Defined.

(** X24 on the example directory, listed in two orders. *)
Lemma merge_services_ignores_listing_order_witness :
  let es1 := example_categories in
  let es2 := rev example_categories in
  let run1 := Merge.merge_services
                {| Merge.categories := Merge.Entries es1; Merge.services_json := None |} in
  let run2 := Merge.merge_services
                {| Merge.categories := Merge.Entries es2; Merge.services_json := None |} in
  NoDup (map fst es1)
  /\ Permutation es1 es2
  /\ Merge.outcome run1 = Merge.outcome run2
  /\ Merge.services_json (Merge.disk_after run1)
     = Merge.services_json (Merge.disk_after run2)
  /\ Merge.printed run1 = Merge.printed run2.
Proof.
  cbv zeta.
  assert (ND : NoDup (map fst example_categories))
    by (repeat constructor; simpl; intuition discriminate).
  assert (HP : Permutation example_categories (rev example_categories))
    by apply Permutation_rev.
  split; [exact ND|]. split; [exact HP|].
  exact (merge_services_ignores_listing_order example_categories
           (rev example_categories) None ND HP).
Defined.

(** X25 on a directory with a draft that is not JSON. *)
Lemma merge_services_bad_file_aborts_witness :
  let es := example_categories ++ [("draft.json", Merge.File "{")] in
  Merge.categories broken_disk = Merge.Entries es
  /\ NoDup (map fst es)
  /\ In ("draft.json", Merge.File "{") es
  /\ ends_with ".json" "draft.json" = true
  /\ Merge.json_load "{" = Merge.Raise Merge.JSONDecodeError
  /\ exists e', Merge.merge_services broken_disk = (Merge.Raise e', broken_disk, []).
Proof.
  cbv zeta.
  assert (ND : NoDup (map fst (example_categories ++ [("draft.json", Merge.File "{")])))
    by (repeat constructor; simpl; intuition discriminate).
  assert (Hin : In ("draft.json", Merge.File "{")
                   (example_categories ++ [("draft.json", Merge.File "{")]))
    by (simpl; auto).
  split; [reflexivity|]. split; [exact ND|]. split; [exact Hin|].
  split; [reflexivity|]. split; [reflexivity|].
  exact (merge_services_bad_file_aborts broken_disk _ "draft.json" "{"
           Merge.JSONDecodeError eq_refl ND Hin eq_refl eq_refl).
Defined.

(** X26 on a directory with a file whose one item is a number. *)
Lemma merge_services_item_without_key_aborts_witness :
  let es := example_categories ++ [("numbers.json", Merge.File "[1]")] in
  Merge.categories numbers_disk = Merge.Entries es
  /\ NoDup (map fst es)
  /\ In ("numbers.json", Merge.File "[1]") es
  /\ In (PInt 1) (Merge.file_items ("numbers.json", Merge.File "[1]"))
  /\ Merge.service_key (PInt 1) = Merge.Raise Merge.TypeError
  /\ exists e', Merge.merge_services numbers_disk = (Merge.Raise e', numbers_disk, []).
Proof.
  cbv zeta.
  assert (ND : NoDup (map fst (example_categories ++ [("numbers.json", Merge.File "[1]")])))
    by (repeat constructor; simpl; intuition discriminate).
  assert (Hin : In ("numbers.json", Merge.File "[1]")
                   (example_categories ++ [("numbers.json", Merge.File "[1]")]))
    by (simpl; auto).
  assert (Hx : In (PInt 1) (Merge.file_items ("numbers.json", Merge.File "[1]")))
    by (vm_compute; auto).
  split; [reflexivity|]. split; [exact ND|]. split; [exact Hin|].
  split; [exact Hx|]. split; [reflexivity|].
  exact (merge_services_item_without_key_aborts numbers_disk _ _ (PInt 1)
           Merge.TypeError eq_refl ND Hin Hx eq_refl).
Defined.

(** X27 on the example directory: three services from two files. *)
Lemma merge_services_merges_every_json_file_witness :
  Merge.categories example_disk = Merge.Entries example_categories
  /\ NoDup (map fst example_categories)
  /\ Merge.outcome (Merge.merge_services example_disk) = Merge.Ok tt
  /\ exists combined,
       Merge.combined_services example_disk = Merge.Ok combined
       /\ Permutation combined (flat_map Merge.file_items example_categories)
       /\ Merge.services_json (Merge.disk_after (Merge.merge_services example_disk))
          = Some (Merge.File (snd (Merge.npx_prettier (Merge.json_dump combined))))
       /\ (Merge.printed (Merge.merge_services example_disk)
           = [Merge.merged_and_formatted
                (List.length (flat_map Merge.file_items example_categories))]
           \/ Merge.printed (Merge.merge_services example_disk)
              = [Merge.merged_only
                   (List.length (flat_map Merge.file_items example_categories))]).
Proof.
  assert (ND : NoDup (map fst example_categories))
    by (repeat constructor; simpl; intuition discriminate).
  split; [reflexivity|]. split; [exact ND|]. split; [reflexivity|].
  exact (merge_services_merges_every_json_file example_disk example_categories
           eq_refl ND eq_refl).
Defined.

(** The merged list of the example directory, in the order of the names. *)
Example merge_services_example :
  Merge.merge_services example_disk
  = (Merge.Ok tt,
     {| Merge.categories := Merge.Entries example_categories;
        Merge.services_json := Some (Merge.File "<3 items>") |},
     ["Successfully merged 3 services into one file (Prettier formatting skipped)."])
  /\ Merge.combined_services example_disk
     = Merge.Ok [service "Birth certificate"; service "Business permit";
                 service "Vaccination"].
Proof. split; vm_compute; reflexivity. Qed.
